(** * Admission checks of the Aerospike Kubernetes operator

    A shallow embedding of the validating webhook of the AerospikeCluster
    resource (package v1, [ValidateCreate] / [ValidateUpdate] and the
    checks they call), followed by theorems about its update-safety rules.

    Conventions of the embedding:
    - the loosely typed configuration tree ([map[string]interface{}]) is
      the inductive [value]; Go maps are stdpp finite maps, so that
      [reflect.DeepEqual] is Leibniz equality on them;
    - a Go function returning [error] returns a [result]: [Ok], [Err] with
      the arguments of the [fmt.Errorf] call, or [Panic] when an unchecked
      type assertion fails;
    - pointers that may be nil are options. *)

From Stdlib Require Import ZArith Lia Ascii String.
From stdpp Require Import gmap strings list fin_maps.

Set Warnings "-register-all,-clear-no-such-hyp".
Set Default Proof Using "Type".
Open Scope string_scope.
Open Scope Z_scope.

(** ** The configuration tree *)

(** Dynamic values held by an [interface{}] of the configuration tree, as
    the JSON decoder builds them. [VNil] is the nil interface. Numbers are
    the integers the configuration uses (ports, replication factors). *)
Inductive value : Type :=
| VNil
| VBool (b : bool)
| VInt (z : Z)
| VString (s : string)
| VList (l : list value)
| VMap (m : gmap string value).

(** [reflect.DeepEqual] on configuration values is decidable equality. *)
Fixpoint value_eq_dec (x y : value) {struct x} : Decision (x = y).
Proof.
  refine (
    match x, y with
    | VNil, VNil => left _
    | VBool a, VBool b => cast_if (decide (a = b))
    | VInt a, VInt b => cast_if (decide (a = b))
    | VString a, VString b => cast_if (decide (a = b))
    | VList a, VList b => cast_if (@list_eq_dec _ value_eq_dec a b)
    | VMap a, VMap b => cast_if (@gmap_eq_dec _ _ _ _ value_eq_dec a b)
    | _, _ => right _
    end); congruence.
Defined.
#[global] Instance value_eqdec : EqDecision value := value_eq_dec.

Definition DeepEqual `{EqDecision A} (x y : A) : bool := bool_decide (x = y).

(** [m[k]] read as an interface value: a missing key gives the nil interface. *)
Definition index (m : gmap string value) (k : string) : value :=
  default VNil (m !! k).

(** [x == y] on two interface values: it panics at run time when both hold
    the same uncomparable dynamic type (slice or map). *)
Definition iface_eq (x y : value) : option bool :=
  match x, y with
  | VList _, VList _ => None
  | VMap _, VMap _ => None
  | _, _ => Some (bool_decide (x = y))
  end.

(** [x == "lit"] where one side is a string constant never panics. *)
Definition is_string (x : value) (s : string) : bool :=
  bool_decide (x = VString s).

(** ** Kubernetes [intstr.IntOrString] *)

Inductive IntOrString : Type :=
| IntVal (n : Z)
| StrVal (s : string).

#[global] Instance IntOrString_eqdec : EqDecision IntOrString.
Proof. solve_decision. Defined.

(** ** Storage and racks *)

Inductive VolumeMode := Block | Filesystem.
Inductive VolumeSource := PersistentVolume | Secret | EmptyDir.

#[global] Instance VolumeMode_eqdec : EqDecision VolumeMode.
Proof. solve_decision. Defined.
#[global] Instance VolumeSource_eqdec : EqDecision VolumeSource.
Proof. solve_decision. Defined.

(** Modelled from the spec: the declaration of the volume type is not part
    of the sources at hand. The data model lists, for a volume, its name,
    mode (Block or Filesystem), source (PersistentVolume, Secret or
    EmptyDir), attachment path, init and wipe methods, and singles out the
    cascade-delete policy as the sole mutable storage attribute. *)
Record VolumeSpec : Type := {
  vol_name : string;
  vol_mode : VolumeMode;
  vol_source : VolumeSource;
  vol_path : string;
  vol_initMethod : string;
  vol_wipeMethod : string;
  vol_cascadeDelete : bool;
}.

#[global] Instance VolumeSpec_eqdec : EqDecision VolumeSpec.
Proof. solve_decision. Defined.

Record AerospikeStorageSpec : Type := {
  Volumes : list VolumeSpec;
  CleanupThreads : Z;
}.

#[global] Instance AerospikeStorageSpec_eqdec : EqDecision AerospikeStorageSpec.
Proof. solve_decision. Defined.

(** [AerospikeConfigSpec.Value]; [None] is the nil map, which reads like
    the empty one. *)
Record AerospikeConfigSpec : Type := {
  Value : option (gmap string value);
}.

#[global] Instance AerospikeConfigSpec_eqdec : EqDecision AerospikeConfigSpec.
Proof. solve_decision. Defined.

Definition conf (c : AerospikeConfigSpec) : gmap string value :=
  default ∅ (Value c).

Record Rack : Type := {
  ID : Z;
  NodeName : string;
  RackLabel : string;
  Region : string;
  Zone : string;
  AerospikeConfig : AerospikeConfigSpec;
  Storage : AerospikeStorageSpec;
  InputAerospikeConfig : option AerospikeConfigSpec;
}.

#[global] Instance Rack_eqdec : EqDecision Rack.
Proof. solve_decision. Defined.

Record RackConfig : Type := {
  Namespaces : list string;
  Racks : list Rack;
  RollingUpdateBatchSize : option IntOrString;
  ScaleDownBatchSize : option IntOrString;
  MaxIgnorablePods : option IntOrString;
}.

#[global] Instance RackConfig_eqdec : EqDecision RackConfig.
Proof. solve_decision. Defined.

(** ** Errors and results *)

(** An error value is the [fmt.Errorf] call that built it: the format
    string and its arguments. *)
Inductive error : Type :=
| Errorf (format : string) (args : list fmtarg)
with fmtarg : Type :=
| AString (s : string)
| AInt (z : Z)
| AValue (v : value)
| AStrings (l : list string)
| AIntOrString (v : option IntOrString)
| AStorage (s : AerospikeStorageSpec)
| ARack (r : Rack)
| AError (e : error).

Inductive result (A : Type) : Type :=
| Ok (a : A)
| Err (e : error)
| Panic.
Arguments Ok {A} a.
Arguments Err {A} e.
Arguments Panic {A}.

#[global] Instance result_ret : MRet result := λ A a, Ok a.
#[global] Instance result_bind : MBind result := λ A B f m,
  match m with Ok a => f a | Err e => Err e | Panic => Panic end.

(** Unchecked type assertions [x.(T)]. *)
Definition as_map (x : value) : result (gmap string value) :=
  match x with VMap m => Ok m | _ => Panic end.
Definition as_list (x : value) : result (list value) :=
  match x with VList l => Ok l | _ => Panic end.
Definition as_string (x : value) : result string :=
  match x with VString s => Ok s | _ => Panic end.
Definition as_bool (x : value) : result bool :=
  match x with VBool b => Ok b | _ => Panic end.

(** A [for ... range] loop whose body may return early with an error. *)
Fixpoint forEach {A} (body : A → result unit) (l : list A) : result unit :=
  match l with
  | [] => Ok tt
  | x :: l' => body x ≫= λ _, forEach body l'
  end.

(** The same loop threading a local variable through the iterations. *)
Fixpoint foldEach {A S} (body : S → A → result S) (s : S) (l : list A) : result S :=
  match l with
  | [] => Ok s
  | x :: l' => body s x ≫= λ s', foldEach body s' l'
  end.

(** A check rejects when it returns an error. *)
Definition rejected (r : result unit) : Prop := ∃ e, r = Err e.

(** ** The cluster descriptor *)

Inductive AerospikeNetworkType :=
| NetworkTypePod | NetworkTypeHostInternal | NetworkTypeHostExternal
| NetworkTypeConfigured | NetworkTypeCustomInterface.

#[global] Instance AerospikeNetworkType_eqdec : EqDecision AerospikeNetworkType.
Proof. solve_decision. Defined.

(** *** The client certificate of the operator *)

Module ClientCert.

(** A nil pointer. *)
Definition isNil {A} (p : option A) : bool :=
  match p with None => true | Some _ => false end.

(** Of the source of the CA certificates the checks read only whether it
    is set. *)
Record CaCertsSourceRef : Type := {
  CaSecretName : string;
}.

Record AerospikeSecretCertSource : Type := {
  CaCertsSource : option CaCertsSourceRef;
  CaCertsFilename : string;
  ClientCertFilename : string;
  ClientKeyFilename : string;
}.

Record AerospikeCertPathInOperatorSource : Type := {
  ClientCertPath : string;
  ClientKeyPath : string;
}.

Record AerospikeOperatorClientCertSpec : Type := {
  TLSClientName : string;
  SecretCertSource : option AerospikeSecretCertSource;
  CertPathInOperator : option AerospikeCertPathInOperatorSource;
}.

Definition IsClientCertConfigured (c : AerospikeOperatorClientCertSpec) : bool :=
  match SecretCertSource c with
  | Some source => negb (bool_decide (ClientCertFilename source = ""))
  | None => false
  end ||
  match CertPathInOperator c with
  | Some source => negb (bool_decide (ClientCertPath source = ""))
  | None => false
  end.

Definition validate (c : AerospikeOperatorClientCertSpec) : result unit :=
  if eqb (isNil (SecretCertSource c)) (isNil (CertPathInOperator c)) then
    Err (Errorf ("either `secretCertSource` or `certPathInOperator` must be set in " ++
                 "`operatorClientCertSpec` but not both: %+v") [])
  else
    _ ← match SecretCertSource c with
        | Some source =>
            if negb (eqb (bool_decide (ClientCertFilename source = ""))
                         (bool_decide (ClientKeyFilename source = ""))) then
              Err (Errorf ("both `clientCertFilename` and `clientKeyFilename` should be " ++
                           "either set or not set in `secretCertSource`: %+v") [])
            else if negb (bool_decide (CaCertsFilename source = "")) &&
                    negb (isNil (CaCertsSource source)) then
              Err (Errorf ("both `caCertsFilename` or `caCertsSource` cannot be set in " ++
                           "`secretCertSource`: %+v") [])
            else Ok tt
        | None => Ok tt
        end;
    _ ← match CertPathInOperator c with
        | Some source =>
            if negb (eqb (bool_decide (ClientCertPath source = ""))
                         (bool_decide (ClientKeyPath source = ""))) then
              Err (Errorf ("both `clientCertPath` and `clientKeyPath` should be either " ++
                           "set or not set in `certPathInOperator`: %+v") [])
            else Ok tt
        | None => Ok tt
        end;
    if negb (IsClientCertConfigured c) then
      Err (Errorf "operator client cert is not configured" [])
    else Ok tt.

Definition confKeyNetwork : string := "network".
Definition confKeyNetworkService : string := "service".

Definition validateClientCertSpec (clientCertSpec : option AerospikeOperatorClientCertSpec)
    (configSpec : AerospikeConfigSpec) : result unit :=
  match conf configSpec !! confKeyNetwork with
  | None => Ok tt
  | Some networkConf =>
      networkConfMap ← as_map networkConf;
      match networkConfMap !! confKeyNetworkService with
      | None => Ok tt
      | Some serviceConf =>
          serviceConfMap ← as_map serviceConf;
          match serviceConfMap !! "tls-authenticate-client" with
          | None => Ok tt
          | Some tlsAuthenticateClientConfig =>
              if DeepEqual (VString "false") tlsAuthenticateClientConfig then Ok tt
              else if DeepEqual (VString "any") tlsAuthenticateClientConfig then
                match clientCertSpec with
                | None => Err (Errorf "operator client cert is not specified" [])
                | Some clientCertSpec => validate clientCertSpec
                end
              else
                match clientCertSpec with
                | None => Err (Errorf "operator client cert is not specified" [])
                | Some clientCertSpec =>
                    if decide (TLSClientName clientCertSpec = "") then
                      Err (Errorf "operator TLSClientName is not specified" [])
                    else validate clientCertSpec
                end
          end
      end
  end.

End ClientCert.

(** *** The pod specification, the operations and the status *)

(** [v1.ResourceRequirements]: a quantity is the whole number of its
    nano-units, the finest grain a [resource.Quantity] has. [Cpu] and
    [Memory] read a list, zero when the resource is not listed. *)
Record ResourceRequirements : Type := {
  Limits : option (gmap string Z);
  Requests : option (gmap string Z);
}.

Definition Cpu (rl : gmap string Z) : Z := default 0 (rl !! "cpu").
Definition Memory (rl : gmap string Z) : Z := default 0 (rl !! "memory").

Record AerospikeContainerSpec : Type := {
  Resources : option ResourceRequirements;
}.

Record AerospikeInitContainerSpec : Type := {
  InitResources : option ResourceRequirements;
}.

(** [v1.Container], of which the checks read the name. *)
Record Container : Type := {
  ContainerName : string;
}.

Record AerospikeObjectMeta : Type := {
  Labels : gmap string string;
  Annotations : gmap string string;
}.

(** [v1.PodDNSConfig], of which the checks read whether it is set. *)
Record PodDNSConfig : Type := {
  Nameservers : list string;
}.

Definition DNSDefault : string := "Default".
Definition DNSNone : string := "None".

Record AerospikePodSpec : Type := {
  PodAerospikeContainerSpec : AerospikeContainerSpec;
  PodAerospikeInitContainerSpec : option AerospikeInitContainerSpec;
  PodAerospikeObjectMeta : AerospikeObjectMeta;
  Sidecars : list Container;
  InitContainers : list Container;
  HostNetwork : bool;
  MultiPodPerHost : option bool;
  DNSPolicy : string;
  DNSConfig : option PodDNSConfig;
}.

(** The slices are options of lists: [reflect.DeepEqual] tells a nil slice
    from an empty one. *)
Record AerospikeNetworkPolicy : Type := {
  AccessType : AerospikeNetworkType;
  AlternateAccessType : AerospikeNetworkType;
  TLSAccessType : AerospikeNetworkType;
  TLSAlternateAccessType : AerospikeNetworkType;
  FabricType : AerospikeNetworkType;
  TLSFabricType : AerospikeNetworkType;
  CustomAccessNetworkNames : option (list string);
  CustomAlternateAccessNetworkNames : option (list string);
  CustomTLSAccessNetworkNames : option (list string);
  CustomTLSAlternateAccessNetworkNames : option (list string);
  CustomFabricNetworkNames : option (list string);
  CustomTLSFabricNetworkNames : option (list string);
}.

Record OperationSpec : Type := {
  OperationKind : string;
  OperationID : string;
  PodList : option (list string);
}.

#[global] Instance OperationSpec_eqdec : EqDecision OperationSpec.
Proof. solve_decision. Defined.

Record ValidationPolicySpec : Type := {
  SkipWorkDirValidate : bool;
}.

(** The status the operator keeps of a pod; the checks read the names of
    the pods only. *)
Record AerospikePodStatus : Type := {
  PodStatusImage : string;
  InitializedVolumes : list string;
  DirtyVolumes : list string;
}.

Record AerospikeClusterSpec : Type := {
  Size : Z;
  Image : string;
  MaxUnavailable : option IntOrString;
  DisablePDB : option bool;
  EnableDynamicConfigUpdate : option bool;
  ValidationPolicy : option ValidationPolicySpec;
  Operations : list OperationSpec;
  SpecStorage : AerospikeStorageSpec;
  SpecAerospikeConfig : AerospikeConfigSpec;
  SpecRackConfig : RackConfig;
  PodSpec : AerospikePodSpec;
  SpecNetworkPolicy : AerospikeNetworkPolicy;
  OperatorClientCertSpec : option ClientCert.AerospikeOperatorClientCertSpec;
}.

Record AerospikeClusterStatus : Type := {
  StatusSize : Z;
  StatusImage : string;
  StatusOperations : list OperationSpec;
  StatusAerospikeConfig : option AerospikeConfigSpec;
  StatusRackConfig : RackConfig;
  Pods : gmap string AerospikePodStatus;
}.

Record AerospikeCluster : Type := {
  Name : string;
  Namespace : string;
  Spec : AerospikeClusterSpec;
  Status : AerospikeClusterStatus;
}.

(** ** Namespace accessors *)

Definition IsNSSCEnabled (nsConf : gmap string value) : result bool :=
  match nsConf !! "strong-consistency" with
  | None => Ok false
  | Some scEnabled => as_bool scEnabled
  end.

(** [isInMemoryNamespace] returns true if this namespace config uses
    memory for storage. *)
Definition isInMemoryNamespace (namespaceConf : gmap string value) : result bool :=
  match namespaceConf !! "storage-engine" with
  | None => Ok false
  | Some storage =>
      storageConf ← as_map storage;
      Ok (match storageConf !! "type" with
          | Some typeStr => is_string typeStr "memory"
          | None => false
          end)
  end.

Definition isDeviceOrPmemNamespace (namespaceConf : gmap string value) : result bool :=
  match namespaceConf !! "storage-engine" with
  | None => Ok false
  | Some storage =>
      storageConf ← as_map storage;
      Ok (match storageConf !! "type" with
          | Some typeStr => is_string typeStr "device" || is_string typeStr "pmem"
          | None => false
          end)
  end.

Definition isShMemIndexTypeNamespace (namespaceConf : gmap string value) : result bool :=
  match namespaceConf !! "index-type" with
  | None => Ok true
  | Some storage =>
      storageConf ← as_map storage;
      Ok (match storageConf !! "type" with
          | Some typeStr => is_string typeStr "shmem"
          | None => false
          end)
  end.

(** ** [validateSCNamespaces] *)

(** One iteration of the inner loop: the namespace is added to the rack's
    set when strong consistency is enabled on it. *)
Definition scNamespaceStep (tmpSCNamespaceSet : gset string) (nsConfInterface : value)
  : result (gset string) :=
  nsConf ← as_map nsConfInterface;
  isEnabled ← IsNSSCEnabled nsConf;
  if (isEnabled : bool) then
    name ← as_string (index nsConf "name");
    let inserted := {[name]} ∪ tmpSCNamespaceSet in
    inMemory ← isInMemoryNamespace nsConf;
    if (inMemory : bool) then
      Err (Errorf "in-memory SC namespace is not supported, namespace %v"
                  [AValue (index nsConf "name")])
    else Ok inserted
  else Ok tmpSCNamespaceSet.

Definition rackSCNamespaceSet (rack : Rack) : result (gset string) :=
  nsList ← as_list (index (conf (AerospikeConfig rack)) "namespaces");
  foldEach scNamespaceStep ∅ nsList.

Fixpoint validateSCNamespaces_from (idx : nat) (scNamespaceSet : gset string)
    (racks : list Rack) : result unit :=
  match racks with
  | [] => Ok tt
  | rack :: rest =>
      tmpSCNamespaceSet ← rackSCNamespaceSet rack;
      if decide (idx = 0%nat) then
        validateSCNamespaces_from (S idx) tmpSCNamespaceSet rest
      else if decide (scNamespaceSet = tmpSCNamespaceSet) then
        validateSCNamespaces_from (S idx) scNamespaceSet rest
      else
        Err (Errorf ("SC namespaces list is different for different racks. " ++
                     "All racks should have same SC namespaces") [])
  end.

Definition validateSCNamespaces (c : AerospikeCluster) : result unit :=
  validateSCNamespaces_from 0 ∅ (Racks (SpecRackConfig (Spec c))).

(** The property the check is meant to establish, stated on the
    descriptor alone: the names of the namespaces of a rack that carry
    [strong-consistency: true]. *)
Definition scEnabledName (ns : value) : option string :=
  match ns with
  | VMap m =>
      match m !! "strong-consistency", m !! "name" with
      | Some (VBool true), Some (VString n) => Some n
      | _, _ => None
      end
  | _ => None
  end.

Definition scEnabledNames (rack : Rack) : gset string :=
  match conf (AerospikeConfig rack) !! "namespaces" with
  | Some (VList nsList) => list_to_set (omap scEnabledName nsList)
  | _ => ∅
  end.

(** ** Library functions the checks rely on *)

(** Go strings are sequences of bytes, here the characters of a
    [string]; text that is not ASCII is held in UTF-8.

    [strings.Contains] and [strings.HasPrefix] compare bytes. *)
Fixpoint strings_Contains (s substr : string) : bool :=
  String.prefix substr s ||
  match s with
  | EmptyString => false
  | String _ s' => strings_Contains s' substr
  end.

Definition strings_HasPrefix (s prefix : string) : bool := String.prefix prefix s.

(** *** White space

    [strings.Fields] and [strings.TrimSpace] go by [unicode.IsSpace]: the
    ASCII characters tab, line feed, vertical tab, form feed, carriage
    return and space; U+0085 and U+00A0; and U+1680, U+2000 to U+200A,
    U+2028, U+2029, U+202F, U+205F and U+3000. In UTF-8 each of the
    latter starts with a leading byte, which a decoder never takes for
    the continuation of another character: wherever its bytes occur they
    are decoded as that character, also next to bytes that are no valid
    UTF-8.

    [spaceWidth s] is the number of bytes of the white space character
    that [s] starts with, 0 when it starts with none. *)
Definition spaceWidth (s : string) : nat :=
  match s with
  | EmptyString => 0%nat
  | String a s1 =>
      if Ascii.is_space a then 1%nat
      else
        match nat_of_ascii a, s1 with
        | 194%nat, String b _ =>
            (* U+0085, U+00A0 *)
            if bool_decide (nat_of_ascii b = 133%nat ∨ nat_of_ascii b = 160%nat)
            then 2%nat else 0%nat
        | 225%nat, String b (String c _) =>
            (* U+1680 *)
            if bool_decide (nat_of_ascii b = 154%nat ∧ nat_of_ascii c = 128%nat)
            then 3%nat else 0%nat
        | 226%nat, String b (String c _) =>
            (* U+2000 to U+200A, U+2028, U+2029, U+202F; U+205F *)
            if bool_decide
                 ((nat_of_ascii b = 128%nat ∧
                   (128 ≤ nat_of_ascii c ≤ 138 ∨ nat_of_ascii c = 168 ∨
                    nat_of_ascii c = 169 ∨ nat_of_ascii c = 175)%nat) ∨
                  (nat_of_ascii b = 129%nat ∧ nat_of_ascii c = 159%nat))
            then 3%nat else 0%nat
        | 227%nat, String b (String c _) =>
            (* U+3000 *)
            if bool_decide (nat_of_ascii b = 128%nat ∧ nat_of_ascii c = 128%nat)
            then 3%nat else 0%nat
        | _, _ => 0%nat
        end
  end.

(** [strings.Fields]: the maximal runs of bytes between white space.
    [skip] counts the bytes left of the white space character being
    passed, [field] is the field read so far. *)
Fixpoint fieldsFrom (skip : nat) (field : string) (s : string) {struct s} : list string :=
  match s with
  | EmptyString => if decide (field = "") then [] else [field]
  | String a s' =>
      match skip with
      | S skip' => fieldsFrom skip' field s'
      | O =>
          match spaceWidth s with
          | O => fieldsFrom 0 (field +:+ String a EmptyString) s'
          | S skip' =>
              if decide (field = "") then fieldsFrom skip' "" s'
              else field :: fieldsFrom skip' "" s'
          end
      end
  end.

Definition strings_Fields (s : string) : list string := fieldsFrom 0 "" s.

(** The text is white space from end to end. *)
Fixpoint onlySpace (skip : nat) (s : string) {struct s} : bool :=
  match s with
  | EmptyString => true
  | String _ s' =>
      match skip with
      | S skip' => onlySpace skip' s'
      | O =>
          match spaceWidth s with
          | O => false
          | S skip' => onlySpace skip' s'
          end
      end
  end.

Fixpoint trimLeft (skip : nat) (s : string) {struct s} : string :=
  match s with
  | EmptyString => EmptyString
  | String _ s' =>
      match skip with
      | S skip' => trimLeft skip' s'
      | O =>
          match spaceWidth s with
          | O => s
          | S skip' => trimLeft skip' s'
          end
      end
  end.

Fixpoint trimRight (s : string) : string :=
  match s with
  | EmptyString => EmptyString
  | String a s' => if onlySpace 0 s then EmptyString else String a (trimRight s')
  end.

(** [strings.TrimSpace]: the text without the white space it starts and
    ends with. *)
Definition strings_TrimSpace (s : string) : string := trimRight (trimLeft 0 s).

(** [strings.Split] for a separator of one character: the text between
    the separators, a single empty string for the empty text. *)
Fixpoint strings_Split (s : string) (sep : ascii) : list string :=
  match s with
  | EmptyString => [EmptyString]
  | String a s' =>
      if Ascii.eqb a sep then EmptyString :: strings_Split s' sep
      else
        match strings_Split s' sep with
        | part :: parts => String a part :: parts
        | [] => [String a EmptyString]
        end
  end.

(** *** Letter case

    On ASCII text [strings.ToLower] lowers the letters A to Z and
    [strings.EqualFold] compares the lowered texts; on other text both go
    by the Unicode tables, which are parameters of the embedding. *)
Fixpoint isASCII (s : string) : bool :=
  match s with
  | EmptyString => true
  | String a s' => (nat_of_ascii a <? 128)%nat && isASCII s'
  end.

Definition lower (a : ascii) : ascii :=
  let n := Ascii.N_of_ascii a in
  if ((65 <=? n) && (n <=? 90))%N then Ascii.ascii_of_N (n + 32) else a.

Fixpoint asciiToLower (s : string) : string :=
  match s with
  | EmptyString => EmptyString
  | String a s' => String (lower a) (asciiToLower s')
  end.

(** *** The version pattern

    [versionRegex] is the pattern [(\d+(\.\d+)+)]: a run of digits
    followed by one or more groups of a dot and a run of digits.
    [FindAllString] returns its successive matches, which do not overlap:
    each is the longest one that starts at the leftmost position after
    the previous match where one starts. *)
Definition isDigit (a : ascii) : bool :=
  (48 <=? nat_of_ascii a)%nat && (nat_of_ascii a <=? 57)%nat.

(** Where the scan of the pattern stands: outside of a candidate; in the
    first run of digits; after a dot, [acc] being the text before it and
    [complete] telling that this text is a match already; in the digits
    of a group, [acc] being a match. *)
Inductive scanState : Type :=
  | Outside
  | InDigits (acc : string)
  | AfterDot (acc : string) (complete : bool)
  | InGroup (acc : string).

Fixpoint scanVersions (st : scanState) (s : string) {struct s} : list string :=
  match s with
  | EmptyString =>
      match st with
      | InGroup acc | AfterDot acc true => [acc]
      | _ => []
      end
  | String a s' =>
      match st with
      | Outside =>
          if isDigit a then scanVersions (InDigits (String a EmptyString)) s'
          else scanVersions Outside s'
      | InDigits acc =>
          if isDigit a then scanVersions (InDigits (acc +:+ String a EmptyString)) s'
          else if Ascii.eqb a "." then scanVersions (AfterDot acc false) s'
          else scanVersions Outside s'
      | AfterDot acc complete =>
          if isDigit a then
            scanVersions (InGroup (acc +:+ String "." (String a EmptyString))) s'
          else if complete then acc :: scanVersions Outside s'
          else scanVersions Outside s'
      | InGroup acc =>
          if isDigit a then scanVersions (InGroup (acc +:+ String a EmptyString)) s'
          else if Ascii.eqb a "." then scanVersions (AfterDot acc true) s'
          else acc :: scanVersions Outside s'
      end
  end.

(** [versionRegex.FindAllString version (-1)]. *)
Definition versionRegex_FindAllString (version : string) : list string :=
  scanVersions Outside version.

(** [strconv.Atoi]: an optional sign and at least one decimal digit, the
    value within the range of a 64-bit [int]. *)
Fixpoint parseDigits (acc : Z) (s : string) : option Z :=
  match s with
  | EmptyString => Some acc
  | String a s' =>
      match Ascii.is_nat a with
      | Some d => parseDigits (10 * acc + Z.of_nat d) s'
      | None => None
      end
  end.

Definition parseUnsigned (s : string) : option Z :=
  match s with
  | EmptyString => None
  | _ => parseDigits 0 s
  end.

Definition strconv_Atoi (s : string) : option Z :=
  let signed :=
    match s with
    | String "-" s' => Z.opp <$> parseUnsigned s'
    | String "+" s' => parseUnsigned s'
    | _ => parseUnsigned s
    end in
  n ← signed;
  if decide (- 2 ^ 63 ≤ n < 2 ^ 63) then Some n else None.

(** [IntOrString.IntValue]: the number itself, or the string read as a
    decimal integer, 0 when it is not one. *)
Definition IntValue (v : IntOrString) : Z :=
  match v with
  | IntVal n => n
  | StrVal s => default 0 (strconv_Atoi s)
  end.

(** The string of [getIntOrPercentValueSafely] without its [%] suffix. *)
Fixpoint trimPercentSuffix (s : string) : option string :=
  match s with
  | EmptyString => None
  | String "%" EmptyString => Some EmptyString
  | String a s' => String a <$> trimPercentSuffix s'
  end.

(** [intstr.GetScaledValueFromIntOrPercent value 100 false], the only way
    the webhook calls it: a number is returned as it is, a string has to be
    a percentage, and a percentage of 100 is its own number. *)
Definition GetScaledValueFromIntOrPercent (value : option IntOrString) : result Z :=
  match value with
  | None => Err (Errorf "nil value for IntOrString" [])
  | Some (IntVal n) => Ok n
  | Some (StrVal s) =>
      match trimPercentSuffix s with
      | None =>
          Err (Errorf "invalid value for IntOrString: %v"
                 [AError (Errorf "invalid type: string is not a percentage" [])])
      | Some digits =>
          match strconv_Atoi digits with
          | Some n => Ok n
          | None =>
              Err (Errorf "invalid value for IntOrString: %v"
                     [AError (Errorf "invalid value %q: %v" [AString s])])
          end
      end
  end.

Definition isStringType (value : option IntOrString) : bool :=
  match value with Some (StrVal _) => true | _ => false end.

(** Modelled from the spec: the helpers [GetBool], [ContainsString],
    [isNameExist], [GetIntType] and [isValueUpdated] belong to files of the
    package that are not part of the sources at hand. An unset flag is
    false; a name is rack-enabled when it is listed; a device path is
    declared when it is present in the list; a replication factor is a
    number (anything else is an error); a field is updated when it is set
    on one side only or set to two different values. *)
Definition GetBool (b : option bool) : bool := default false b.

Definition ContainsString (list : list string) (ele : string) : bool :=
  bool_decide (ele ∈ list).

Definition isNameExist (names : list string) (name : string) : bool :=
  bool_decide (name ∈ names).

Definition GetIntType (v : value) : result Z :=
  match v with
  | VInt n => Ok n
  | _ => Err (Errorf "value %v not valid int, int64 or float64" [AValue v])
  end.

Definition isValueUpdated (m1 m2 : gmap string value) (key : string) : bool :=
  negb (DeepEqual (m1 !! key) (m2 !! key)).

(** ** [validateIntOrStringField] *)

Definition validateIntOrStringField (value : option IntOrString) (fieldPath : string)
  : result unit :=
  (* Just validate if value is valid number or string. *)
  count ← GetScaledValueFromIntOrPercent value;
  (* Only negative is not allowed. Any big number can be given. *)
  if decide (count < 0) then
    Err (Errorf "can not use negative %s: %s" [AString fieldPath; AIntOrString value])
  else if isStringType value && bool_decide (count > 100) then
    Err (Errorf "%s: %s must not be greater than 100 percent"
           [AString fieldPath; AIntOrString value])
  else Ok tt.

(** ** [validateMaxUnavailable] *)

(** The body of the loop over the namespaces of a rack; the local variable
    is [safeMaxUnavailable]. *)
Definition maxUnavailableStep (safeMaxUnavailable : Z) (nsInterface : value) : result Z :=
  ns ← as_map nsInterface;
  match ns !! "replication-factor" with
  | None =>
      (* Default RF is 2 if not given *)
      Ok 2
  | Some rfInterface =>
      match GetIntType rfInterface with
      | Ok rf =>
          (* If RF is 1, then ignore it for maxUnavailable calculation as it
             will anyway result in data loss *)
          if decide (rf = 1) then Ok safeMaxUnavailable
          else if decide (rf < safeMaxUnavailable) then Ok rf
          else Ok safeMaxUnavailable
      | Err err => Err (Errorf "namespace replication-factor %v" [AError err])
      | Panic => Panic
      end
  end.

Definition maxUnavailableRack (safeMaxUnavailable : Z) (rack : Rack) : result Z :=
  nsList ← as_list (index (conf (AerospikeConfig rack)) "namespaces");
  foldEach maxUnavailableStep safeMaxUnavailable nsList.

Definition pdbDisabledWarning : string :=
  "Spec field 'spec.maxUnavailable' will be omitted from Custom Resource (CR) " ++
  "because 'spec.disablePDB' is true.".

Definition validateMaxUnavailable (c : AerospikeCluster) : list string * result unit :=
  if GetBool (DisablePDB (Spec c)) then
    (* PDB is disabled, no further validation required *)
    ([pdbDisabledWarning], Ok tt)
  else
    ([],
     _ ← validateIntOrStringField (MaxUnavailable (Spec c)) "spec.maxUnavailable";
     let safeMaxUnavailable := Size (Spec c) in
     (* If Size is 1, then ignore it for maxUnavailable calculation as it
        will anyway result in data loss *)
     if decide (safeMaxUnavailable = 1) then Ok tt
     else
       safeMaxUnavailable ←
         foldEach maxUnavailableRack safeMaxUnavailable (Racks (SpecRackConfig (Spec c)));
       match MaxUnavailable (Spec c) with
       | None => Panic
       | Some maxUnavailable =>
           if decide (IntValue maxUnavailable >= safeMaxUnavailable) then
             Err (Errorf ("maxUnavailable %s cannot be greater than or equal to %v as it may " ++
                          "result in data loss. Set it to a lower value")
                    [AIntOrString (Some maxUnavailable); AInt safeMaxUnavailable])
           else Ok tt
       end).

(** The bound as the specification words it: the smallest of the cluster
    size and of the replication factors of all namespaces of all racks, an
    absent factor counting as 2 and a factor of 1 not counting. *)
Definition namespaceRF (ns : value) : option Z :=
  match ns with
  | VMap m =>
      match m !! "replication-factor" with
      | None => Some 2
      | Some (VInt rf) => Some rf
      | Some _ => None
      end
  | _ => None
  end.

Definition rackRFs (rack : Rack) : option (list Z) :=
  match conf (AerospikeConfig rack) !! "namespaces" with
  | Some (VList nsList) => mapM namespaceRF nsList
  | _ => None
  end.

Definition clusterRFs (c : AerospikeCluster) : option (list Z) :=
  rfss ← mapM rackRFs (Racks (SpecRackConfig (Spec c))); Some (concat rfss).

Definition minimumOver (size : Z) (rfs : list Z) : Z :=
  foldr Z.min size (filter (λ rf, rf ≠ 1) rfs).

(** ** [getNsConfForNamespaces] and [validateBatchSize] *)

Definition getNamespaceReplicationFactor (nsConf : gmap string value) : result Z :=
  let rfInterface := default (VInt 2) (nsConf !! "replication-factor") in
  match GetIntType rfInterface with
  | Ok rf => Ok rf
  | Err err => Err (Errorf "namespace replication-factor %v" [AError err])
  | Panic => Panic
  end.

Record nsConf : Type := {
  noOfRacksForNamespaces : Z;
  replicationFactor : Z;
  scEnabled : bool;
}.

(** The body of the inner loop: the entry of the namespace is overwritten,
    its rack count incremented; a replication factor that cannot be read
    is kept as 0 (the error is dropped). *)
Definition nsConfStep (nsConfs : gmap string nsConf) (nsInterface : value)
  : result (gmap string nsConf) :=
  ns ← as_map nsInterface;
  nsName ← as_string (index ns "name");
  let noOfRacks :=
    match nsConfs !! nsName with
    | None => 1
    | Some old => noOfRacksForNamespaces old + 1
    end in
  let rf := match getNamespaceReplicationFactor ns with Ok rf => rf | _ => 0 end in
  sc ← IsNSSCEnabled ns;
  Ok (<[nsName := {| noOfRacksForNamespaces := noOfRacks;
                     replicationFactor := rf;
                     scEnabled := sc |}]> nsConfs).

Definition nsConfRack (nsConfs : gmap string nsConf) (rack : Rack)
  : result (gmap string nsConf) :=
  nsList ← as_list (index (conf (AerospikeConfig rack)) "namespaces");
  foldEach nsConfStep nsConfs nsList.

Definition getNsConfForNamespaces (rackConfig : RackConfig) : result (gmap string nsConf) :=
  foldEach nsConfRack ∅ (Racks rackConfig).

Definition batchSizeFieldPath (rollingUpdateBatch : bool) : string :=
  if rollingUpdateBatch then "spec.rackConfig.rollingUpdateBatchSize"
  else "spec.rackConfig.scaleDownBatchSize".

Definition checkNsForBatchSize (rackConfig : RackConfig) (rollingUpdateBatch : bool)
    (entry : string * nsConf) : result unit :=
  let fieldPath := batchSizeFieldPath rollingUpdateBatch in
  let '(ns, nsConf) := entry in
  if negb (isNameExist (Namespaces rackConfig) ns) then
    Err (Errorf "can not use %s when there is any non-rack enabled namespace %s"
           [AString fieldPath; AString ns])
  else if decide (noOfRacksForNamespaces nsConf <= 1) then
    Err (Errorf "can not use %s when namespace `%s` is configured in only one rack"
           [AString fieldPath; AString ns])
  else if decide (replicationFactor nsConf <= 1) then
    Err (Errorf "can not use %s when namespace `%s` is configured with replication-factor 1"
           [AString fieldPath; AString ns])
  (* If Strong Consistency is enabled, then scaleDownBatchSize can't be used *)
  else if negb rollingUpdateBatch && scEnabled nsConf then
    Err (Errorf "can not use %s when namespace `%s` is configured with Strong Consistency"
           [AString fieldPath; AString ns])
  else Ok tt.

(** The closure [validateRacksForBatchSize]. Go ranges over the map in an
    unspecified order; the order of [map_to_list] stands for it, and only
    decides which of several errors is reported. *)
Definition validateRacksForBatchSize (rollingUpdateBatch : bool) (rackConfig : RackConfig)
  : result unit :=
  if decide (length (Racks rackConfig) < 2)%nat then
    Err (Errorf "can not use %s when number of racks is less than two"
           [AString (batchSizeFieldPath rollingUpdateBatch)])
  else
    nsConfsNamespaces ← getNsConfForNamespaces rackConfig;
    forEach (checkNsForBatchSize rackConfig rollingUpdateBatch)
            (map_to_list nsConfsNamespaces).

Definition validateBatchSize (c : AerospikeCluster) (batchSize : option IntOrString)
    (rollingUpdateBatch : bool) : result unit :=
  match batchSize with
  | None => Ok tt
  | Some _ =>
      let fieldPath := batchSizeFieldPath rollingUpdateBatch in
      _ ← validateIntOrStringField batchSize fieldPath;
      (* validate rackConf from spec *)
      _ ← validateRacksForBatchSize rollingUpdateBatch (SpecRackConfig (Spec c));
      (* If the status is not nil, validate rackConf from status to restrict
         batch-size update when old rackConfig is not valid for batch-size *)
      match StatusAerospikeConfig (Status c) with
      | Some _ =>
          match validateRacksForBatchSize rollingUpdateBatch (StatusRackConfig (Status c)) with
          | Err err =>
              Err (Errorf "status invalid for %s: update, %v" [AString fieldPath; AError err])
          | r => r
          end
      | None => Ok tt
      end
  end.

(** The conditions the specification puts on a rack topology for a batch
    size to be usable, read off the descriptor. *)
Definition nsEntries (rack : Rack) : list value :=
  match conf (AerospikeConfig rack) !! "namespaces" with
  | Some (VList nsList) => nsList
  | _ => []
  end.

Definition nsName (ns : value) : option string :=
  match ns with
  | VMap m => match m !! "name" with Some (VString n) => Some n | _ => None end
  | _ => None
  end.

Definition nsSCEnabled (ns : value) : bool :=
  match ns with
  | VMap m => bool_decide (m !! "strong-consistency" = Some (VBool true))
  | _ => false
  end.

Definition rackNsNames (rack : Rack) : list string := omap nsName (nsEntries rack).

Definition racksHolding (rackConfig : RackConfig) (name : string) : list Rack :=
  filter (λ rack, name ∈ rackNsNames rack) (Racks rackConfig).

Record batchSafe (rollingUpdateBatch : bool) (rackConfig : RackConfig) : Prop := {
  batch_two_racks : (2 ≤ length (Racks rackConfig))%nat;
  batch_rack_enabled :
    ∀ rack name, rack ∈ Racks rackConfig → name ∈ rackNsNames rack →
      name ∈ Namespaces rackConfig;
  batch_many_racks :
    ∀ rack name, rack ∈ Racks rackConfig → name ∈ rackNsNames rack →
      (1 < length (racksHolding rackConfig name))%nat;
  batch_replicated :
    ∀ rack ns, rack ∈ Racks rackConfig → ns ∈ nsEntries rack →
      ∃ rf, namespaceRF ns = Some rf ∧ 1 < rf;
  batch_not_sc :
    rollingUpdateBatch = false →
    ∀ rack ns, rack ∈ Racks rackConfig → ns ∈ nsEntries rack →
      nsSCEnabled ns = false;
}.

(** Namespaces are described consistently: a name is listed once in a rack,
    and the racks that configure a namespace agree on its replication
    factor and strong-consistency flag. *)
Record uniformNamespaces (rackConfig : RackConfig) : Prop := {
  uniform_names : ∀ rack, rack ∈ Racks rackConfig → NoDup (rackNsNames rack);
  uniform_settings :
    ∀ rack rack' ns ns' name,
      rack ∈ Racks rackConfig → rack' ∈ Racks rackConfig →
      ns ∈ nsEntries rack → ns' ∈ nsEntries rack' →
      nsName ns = Some name → nsName ns' = Some name →
      namespaceRF ns = namespaceRF ns' ∧ nsSCEnabled ns = nsSCEnabled ns';
}.

(** ** Collaborators

    What the checks call outside the sources at hand: other files of the
    package, the management library, the Go libraries, the certificate on
    the operator's disk. They are parameters of the embedding. *)
Class Collaborators : Type := {
  (** [IsSecurityEnabled], whether a configuration turns security on. *)
  IsSecurityEnabled : AerospikeConfigSpec → result bool;
  (** [storage.getAerospikeStorageList(onlyPV)]: the device paths of the
      block volumes and the mount paths of the filesystem volumes. *)
  getAerospikeStorageList :
    AerospikeStorageSpec → bool → result (list string * list string);
  (** [storage.GetVolumeForAerospikePath], [GetDefaultPasswordFilePath],
      [GetWorkDirectory], [GetConfiguredWorkDirectory]. *)
  GetVolumeForAerospikePath : AerospikeStorageSpec → string → option VolumeSpec;
  GetDefaultPasswordFilePath : AerospikeConfigSpec → option string;
  GetWorkDirectory : AerospikeConfigSpec → string;
  GetConfiguredWorkDirectory : AerospikeConfigSpec → string;
  (** The bounds of rack identifiers. *)
  MinRackID : Z;
  MaxRackID : Z;
  (** The number of cleanup threads that asks for no resource limits. *)
  AerospikeVolumeSingleCleanupThread : Z;
  (** The names reserved for the containers of the operator. *)
  AerospikeServerContainerName : string;
  AerospikeInitContainerName : string;
  (** The labels the operator defines on its pods. *)
  AerospikeAppLabel : string;
  AerospikeRackIDLabel : string;
  AerospikeCustomResourceLabel : string;
  (** The oldest server version supported, and the oldest init container
      version that allows dynamic configuration updates. *)
  baseVersion : string;
  minInitVersionForDynamicConf : string;
  (** [govalidator.IsDNSName]. *)
  IsDNSName : string → bool;
  (** Reading the names (common name and DNS names) of the certificate
      stored at a path of the operator's file system. *)
  readCertificateNames : string → result (gset string);
  (** [filepath.Dir], [filepath.Rel] and [filepath.IsAbs]. *)
  filepath_Dir : string → string;
  filepath_Rel : string → string → option string;
  filepath_IsAbs : string → bool;
  (** [strings.ToLower] and [strings.EqualFold] on text that is not
      ASCII. *)
  unicodeToLower : string → string;
  unicodeEqualFold : string → string → bool;
  (** [setNamespaceDefault networks namespace]: the list it leaves in
      [networks], which it updates in place. *)
  setNamespaceDefault : list string → string → list string;
  (** [GetAllPodNames]: the names of the pods of a status;
      [getMinRunningInitVersion]: the oldest init container version among
      them. *)
  GetAllPodNames : gmap string AerospikePodStatus → gset string;
  getMinRunningInitVersion : gmap string AerospikePodStatus → result string;
  (** [ParseDockerImageTag]: registry, name and tag of an image. *)
  ParseDockerImageTag : string → string * string * string;
  (** [lib.CompareVersions]: negative, zero or positive; and
      [asconfig.IsValidUpgrade]. *)
  CompareVersions : string → string → result Z;
  IsValidUpgrade : string → string → result unit;
  (** [validateStorage], of the storage file of the package. *)
  validateStorage : AerospikeStorageSpec → AerospikePodSpec → result unit;
  (** [validateAerospikeConfigSchema]: the schema of the server version,
      which the management library holds and checks. *)
  validateAerospikeConfigSchema : string → AerospikeConfigSpec → result unit;
  (** [IsAerospikeAccessControlValid], of the access control file of the
      package. *)
  IsAerospikeAccessControlValid : AerospikeClusterSpec → result unit;
  (** [GetMigrateFillDelay]. *)
  GetMigrateFillDelay : AerospikeConfigSpec → result Z;
}.

Section Webhook.
Context `{collab : Collaborators}.

Definition networkConnectionTypes : list string := ["service"; "heartbeat"; "fabric"].

Definition confKeyTLSName : string := "tls-name".

(** ** Structural validation of a configuration *)

Definition validateLoggingConf (loggingConfList : list value) : result unit :=
  let syslogParams := ["facility"; "path"; "tag"] in
  forEach (λ entry,
    match entry with
    | VMap logConf =>
        if negb (is_string (index logConf "name") "syslog") then
          forEach (λ param,
            if decide (is_Some (logConf !! param)) then
              Err (Errorf "can use %s only with `syslog` in aerospikeConfig.logging %v"
                     [AString param; AValue entry])
            else Ok tt) syslogParams
        else Ok tt
    | _ =>
        Err (Errorf "aerospikeConfig.logging not a list of valid map %v" [AValue VNil])
    end) loggingConfList.

(** [ValidateTLSAuthenticateClient] validates the tls-authenticate-client
    field in the service configuration. *)
Definition ValidateTLSAuthenticateClient (serviceConf : gmap string value)
  : result (list string) :=
  match serviceConf !! "tls-authenticate-client" with
  | None => Ok []
  | Some config =>
      match config with
      | VString value =>
          if bool_decide (value = "any") || bool_decide (value = "false") then Ok []
          else Err (Errorf "tls-authenticate-client contains invalid value: %s"
                      [AString value])
      | VBool value =>
          if negb value then Ok []
          else Err (Errorf "tls-authenticate-client contains invalid value: %t"
                      [AValue config])
      | VList value =>
          foldEach (λ (dnsNames : list string) entry,
            match entry with
            | VString dnsName =>
                if negb (IsDNSName dnsName) then
                  Err (Errorf "tls-authenticate-client contains invalid dns-name: %v"
                         [AString dnsName])
                else Ok (app dnsNames [dnsName])
            | _ =>
                Err (Errorf "tls-authenticate-client contains invalid type value: %v"
                       [AValue config])
            end) [] value
      | _ =>
          Err (Errorf "tls-authenticate-client contains invalid type value: %v"
                 [AValue config])
      end
  end.

Definition containsAnyName (clientNames : list string) (namesToFind : gset string) : bool :=
  existsb (λ clientName, bool_decide (clientName ∈ namesToFind)) clientNames.

Definition readNamesFromLocalCertificate
    (clientCertSpec : option ClientCert.AerospikeOperatorClientCertSpec)
  : result (gset string) :=
  match clientCertSpec with
  | Some clientCertSpec =>
      match ClientCert.CertPathInOperator clientCertSpec with
      | Some source =>
          if decide (ClientCert.ClientCertPath source = "") then Ok ∅
          else readCertificateNames (ClientCert.ClientCertPath source)
      | None => Ok ∅
      end
  | None => Ok ∅
  end.

Definition validateTLSClientNames (serviceConf : gmap string value)
    (clientCertSpec : option ClientCert.AerospikeOperatorClientCertSpec) : result unit :=
  dnsnames ← ValidateTLSAuthenticateClient serviceConf;
  if decide (length dnsnames = 0%nat) then Ok tt
  else
    localCertNames ← readNamesFromLocalCertificate clientCertSpec;
    if negb (containsAnyName dnsnames localCertNames) &&
       bool_decide (0 < size localCertNames)%nat then
      Err (Errorf ("tls-authenticate-client (%+v) doesn't contain name from Operator's " ++
                   "certificate (%+v), configure OperatorClientCertSpec.TLSClientName properly")
             [AStrings dnsnames; AStrings (elements localCertNames)])
    else Ok tt.

(** The [else] branch ranges over the keys of the map, in an order Go
    leaves unspecified; the first [tls-] key of [map_to_list] stands for
    the one reported. *)
Definition validateNetworkConnection (networkConf : gmap string value)
    (tlsNames : gset string) (connectionType : string) : result unit :=
  match networkConf !! connectionType with
  | Some connectionConfig =>
      connectionConfigMap ← as_map connectionConfig;
      match connectionConfigMap !! confKeyTLSName with
      | Some tlsName =>
          if decide (connectionConfigMap !! "tls-port" = None) then
            Err (Errorf "you can't specify tls-name for network.%s without specifying tls-port"
                   [AString connectionType])
          else
            name ← as_string tlsName;
            if decide (name ∈ tlsNames) then Ok tt
            else Err (Errorf "tls-name '%s' is not configured" [AValue tlsName])
      | None =>
          forEach (λ entry : string * value,
            if strings_HasPrefix entry.1 "tls-" then
              Err (Errorf "you can't specify %s for network.%s without specifying tls-name"
                     [AString entry.1; AString connectionType])
            else Ok tt) (map_to_list connectionConfigMap)
      end
  | None => Ok tt
  end.

Definition tlsNameStep (tlsNames : gset string) (tlsConfInt : value) : result (gset string) :=
  tlsConf ← as_map tlsConfInt;
  tlsNames ← match tlsConf !! "name" with
             | Some tlsName => name ← as_string tlsName; Ok ({[name]} ∪ tlsNames)
             | None => Ok tlsNames
             end;
  if decide (is_Some (tlsConf !! "ca-path") ∧ is_Some (tlsConf !! "ca-file")) then
    Err (Errorf "both `ca-path` and `ca-file` cannot be set in `tls`. tlsConf %v"
           [AValue tlsConfInt])
  else Ok tlsNames.

Definition validateNetworkConfig (c : AerospikeCluster) (networkConf : gmap string value)
  : result unit :=
  match networkConf !! "service" with
  | None => Err (Errorf "network.service section not found in config" [])
  | Some serviceConf =>
      (* network.tls conf *)
      tlsNames ← match networkConf !! "tls" with
                 | Some tls => tlsConfList ← as_list tls; foldEach tlsNameStep ∅ tlsConfList
                 | None => Ok ∅
                 end;
      serviceConfMap ← as_map serviceConf;
      _ ← validateTLSClientNames serviceConfMap (OperatorClientCertSpec (Spec c));
      forEach (validateNetworkConnection networkConf tlsNames) networkConnectionTypes
  end.

Definition isMRTFieldSet (nsConf : gmap string value) : bool :=
  existsb (λ field, bool_decide (is_Some (nsConf !! field)))
          ["mrt-duration"; "disable-mrt-writes"].

Definition validateMRTFields (nsConf : gmap string value) : result unit :=
  let mrtField := isMRTFieldSet nsConf in
  scEnabled ← IsNSSCEnabled nsConf;
  if negb scEnabled && mrtField then
    Err (Errorf "MRT fields are not allowed in non-SC namespace %v" [AValue (VMap nsConf)])
  else Ok tt.

Definition validateNamespaceReplicationFactor (nsConf : gmap string value) (clSize : Z)
  : result unit :=
  rf ← getNamespaceReplicationFactor nsConf;
  scEnabled ← IsNSSCEnabled nsConf;
  (* clSize < rf is allowed in AP mode but not in sc mode *)
  if (scEnabled : bool) && bool_decide (clSize < rf) then
    Err (Errorf ("strong-consistency namespace replication-factor %v cannot be more " ++
                 "than cluster size %d") [AInt rf; AInt clSize])
  else Ok tt.

(** [isPathParentOrSame] indicates if dir1 is a parent or same as dir2. *)
Definition isPathParentOrSame (dir1 dir2 : string) : bool :=
  match filepath_Rel dir1 dir2 with
  | Some relPath =>
      (* If dir1 is not a parent directory then relative path will have to
         climb up directory hierarchy of dir1. *)
      negb (strings_HasPrefix relPath "..")
  | None => false
  end.

(** [isFileStorageConfiguredForDir] indicates if file storage is
    configured for dir. *)
Definition isFileStorageConfiguredForDir (fileStorageList : list string) (dir : string)
  : bool :=
  existsb (λ storageMount, isPathParentOrSame storageMount dir) fileStorageList.

(** One pass of [validateStorageEngineDeviceList] over the [devices] (or
    [files]) of a namespace: the map from device to namespace grows, and a
    device already claimed is an error. *)
Definition claimStep (kind : string) (namespace : string)
    (claimed : gmap string string) (d : value) : result (gmap string string) :=
  device ← as_string d;
  match claimed !! device with
  | Some previousNamespace =>
      Err (Errorf (kind ++ " %s is already being referenced in multiple namespaces (%s, %s)")
             [AString device; AString previousNamespace; AString namespace])
  | None => Ok (<[device := namespace]> claimed)
  end.

Definition claimAll (kind key : string) (namespace : string)
    (storage : gmap string value) (claimed : gmap string string)
  : result (gmap string string) :=
  match storage !! key with
  | Some entries => l ← as_list entries; foldEach (claimStep kind namespace) claimed l
  | None => Ok claimed
  end.

Definition deviceListStep (lists : gmap string string * gmap string string)
    (nsConfInterface : value) : result (gmap string string * gmap string string) :=
  nsConf ← as_map nsConfInterface;
  namespace ← as_string (index nsConf "name");
  storage ← as_map (index nsConf "storage-engine");
  deviceList ← claimAll "device" "devices" namespace storage lists.1;
  fileList ← claimAll "file" "files" namespace storage lists.2;
  Ok (deviceList, fileList).

Definition validateStorageEngineDeviceList (nsConfList : list value)
  : result (gmap string string * gmap string string) :=
  (* build a map device -> namespace *)
  foldEach deviceListStep (∅, ∅) nsConfList.

(** The checks of [validateNamespaceConfig] on one entry of a [devices]
    list. *)
Definition checkDevice (storage : AerospikeStorageSpec)
    (blockStorageDeviceList : list string) (device : value) : result unit :=
  match device with
  | VString s =>
      let device := strings_TrimSpace s in
      (* device list Fields cannot be more than 2 in single line. Two in
         shadow device case. Validate. *)
      if decide (2 < length (strings_Fields device))%nat then
        Err (Errorf ("invalid device name %v. Max 2 device can be mentioned in single " ++
                     "line (Shadow device config)") [AString device])
      else
        forEach (λ dev,
          (* Namespace device should be present in BlockStorage config section *)
          if negb (ContainsString blockStorageDeviceList dev) then
            Err (Errorf ("namespace storage device related devicePath %v not found in " ++
                         "Storage config %v") [AString dev; AStorage storage])
          else Ok tt) (strings_Fields device)
  | _ => Err (Errorf "namespace storage device not valid string %v" [AValue device])
  end.

Definition checkFile (storage : AerospikeStorageSpec)
    (fileStorageList : list string) (file : value) : result unit :=
  match file with
  | VString s =>
      let file := strings_TrimSpace s in
      if decide (2 < length (strings_Fields file))%nat then
        Err (Errorf ("invalid file name %v. Max 2 file can be mentioned in single " ++
                     "line (Shadow file config)") [AString file])
      else
        forEach (λ f,
          let dirPath := filepath_Dir f in
          if negb (isFileStorageConfiguredForDir fileStorageList dirPath) then
            Err (Errorf ("namespace storage file related mountPath %v not found in " ++
                         "storage config %v") [AString dirPath; AStorage storage])
          else Ok tt) (strings_Fields file)
  | _ => Err (Errorf "namespace storage file not valid string %v" [AValue file])
  end.

Definition checkDevices (storage : AerospikeStorageSpec)
    (blockStorageDeviceList : list string) (nsStorage devices : value) : result unit :=
  match devices with
  | VNil => Err (Errorf "namespace storage devices cannot be nil %v" [AValue nsStorage])
  | VList l =>
      if decide (length l = 0%nat) then
        Err (Errorf "no devices for namespace storage %v" [AValue nsStorage])
      else forEach (checkDevice storage blockStorageDeviceList) l
  | _ => Err (Errorf "namespace storage device format not valid %v" [AValue nsStorage])
  end.

Definition checkFiles (storage : AerospikeStorageSpec)
    (fileStorageList : list string) (nsStorage files : value) : result unit :=
  match files with
  | VNil => Err (Errorf "namespace storage files cannot be nil %v" [AValue nsStorage])
  | VList l =>
      if decide (length l = 0%nat) then
        Err (Errorf "no files for namespace storage %v" [AValue nsStorage])
      else forEach (checkFile storage fileStorageList) l
  | _ => Err (Errorf "namespace storage files format not valid %v" [AValue nsStorage])
  end.

(** The body of the first loop of [validateNamespaceConfig]. *)
Definition checkNamespace (storage : AerospikeStorageSpec)
    (blockStorageDeviceList fileStorageList : list string) (clSize : Z)
    (nsConfInterface : value) : result unit :=
  match nsConfInterface with
  | VMap nsConf =>
      _ ← validateNamespaceReplicationFactor nsConf clSize;
      _ ← validateMRTFields nsConf;
      match nsConf !! "storage-engine" with
      | Some nsStorage =>
          if decide (nsStorage = VNil) then
            Err (Errorf "storage-engine cannot be nil for namespace %v"
                   [AValue nsConfInterface])
          else
            inMemory ← isInMemoryNamespace nsConf;
            if (inMemory : bool) then
              (* storage-engine memory *)
              Ok tt
            else
              deviceOrPmem ← isDeviceOrPmemNamespace nsConf;
              if negb deviceOrPmem then
                Err (Errorf "storage-engine not supported for namespace %v"
                       [AValue nsConfInterface])
              else
                storageConf ← as_map nsStorage;
                _ ← match storageConf !! "devices" with
                    | Some devices =>
                        checkDevices storage blockStorageDeviceList nsStorage devices
                    | None => Ok tt
                    end;
                match storageConf !! "files" with
                | Some files => checkFiles storage fileStorageList nsStorage files
                | None => Ok tt
                end
      | None => Err (Errorf "storage-engine config is required for namespace" [])
      end
  | _ => Err (Errorf "namespace conf not in valid format %v" [AValue nsConfInterface])
  end.

(** The body of the loop that validates index-type. *)
Definition checkIndexType (storage : AerospikeStorageSpec) (fileStorageList : list string)
    (nsConfInterface : value) : result unit :=
  match nsConfInterface with
  | VMap nsConf =>
      shMem ← isShMemIndexTypeNamespace nsConf;
      if (shMem : bool) then Ok tt
      else
        match nsConf !! "index-type" with
        | Some nsIndexStorage =>
            indexConf ← as_map nsIndexStorage;
            match indexConf !! "mounts" with
            | Some VNil =>
                Err (Errorf "namespace index-type mounts cannot be nil %v"
                       [AValue nsIndexStorage])
            | Some (VList mounts) =>
                if decide (length mounts = 0%nat) then
                  Err (Errorf "no mounts for namespace index-type %v" [AValue nsIndexStorage])
                else
                  forEach (λ mount,
                    match mount with
                    | VString m =>
                        (* Namespace index-type mount should be present in
                           filesystem config section *)
                        if negb (ContainsString fileStorageList m) then
                          Err (Errorf "namespace index-type mount %v not found in Storage config %v"
                                 [AValue mount; AStorage storage])
                        else Ok tt
                    | _ =>
                        Err (Errorf "namespace index-type mount not valid string %v"
                               [AValue mount])
                    end) mounts
            | Some _ =>
                Err (Errorf "namespace index-type mounts format not valid %v"
                       [AValue nsIndexStorage])
            | None => Ok tt
            end
        | None => Ok tt
        end
  | _ => Err (Errorf "namespace conf not in valid format %v" [AValue nsConfInterface])
  end.

Definition validateNamespaceConfig (nsConfInterfaceList : list value)
    (storage : AerospikeStorageSpec) (clSize : Z) : result unit :=
  if decide (length nsConfInterfaceList = 0%nat) then
    Err (Errorf "aerospikeConfig.namespace list cannot be empty" [])
  else
    (* Get list of all devices used in namespace. match it with namespace
       device list *)
    lists ← getAerospikeStorageList storage true;
    let '(blockStorageDeviceList, fileStorageList) := lists in
    _ ← forEach (checkNamespace storage blockStorageDeviceList fileStorageList clSize)
                nsConfInterfaceList;
    _ ← validateStorageEngineDeviceList nsConfInterfaceList;
    (* Validate index-type *)
    forEach (checkIndexType storage fileStorageList) nsConfInterfaceList.

Definition validateAerospikeConfig (c : AerospikeCluster)
    (configSpec : AerospikeConfigSpec) (storage : AerospikeStorageSpec) (clSize : Z)
  : result unit :=
  match Value configSpec with
  | None => Err (Errorf "aerospikeConfig cannot be empty" [])
  | Some config =>
      (* service conf *)
      match index config "service" with
      | VMap serviceConf =>
          advertise ← match serviceConf !! "advertise-ipv6" with
                      | Some val => as_bool val
                      | None => Ok false
                      end;
          if (advertise : bool) then Err (Errorf "advertise-ipv6 is not supported" [])
          else if decide (serviceConf !! "cluster-name" = None) then
            Err (Errorf ("aerospikeCluster name not found in config. Looks like object " ++
                         "is not mutated by webhook") [])
          else
            (* network conf *)
            match index config "network" with
            | VMap networkConf =>
                _ ← validateNetworkConfig c networkConf;
                (* namespace conf *)
                match config !! "namespaces" with
                | None =>
                    Err (Errorf "aerospikeConfig.namespace not a present. aerospikeConfig %v"
                           [AValue (VMap config)])
                | Some VNil => Err (Errorf "aerospikeConfig.namespace cannot be nil" [])
                | Some (VList nsList) =>
                    _ ← validateNamespaceConfig nsList storage clSize;
                    (* logging conf *)
                    match index config "logging" with
                    | VList loggingConfList => validateLoggingConf loggingConfList
                    | other =>
                        Err (Errorf "aerospikeConfig.logging not a valid list %v"
                               [AValue other])
                    end
                | Some nsListInterface =>
                    Err (Errorf "aerospikeConfig.namespace not valid namespace list %v"
                           [AValue nsListInterface])
                end
            | other =>
                Err (Errorf "aerospikeConfig.network not a valid map %v" [AValue other])
            end
      | other => Err (Errorf "aerospikeConfig.service not a valid map %v" [AValue other])
      end
  end.

(** ** Checks of an update against the previous descriptor *)

(** Modelled from the spec: [validateStorageSpecChange] is not part of the
    sources at hand. The specification makes the source and mode of a
    volume immutable after first acceptance and the cascade-delete policy
    the sole mutable storage attribute: the volumes have to be the same,
    their cascade-delete policy left aside. *)
Definition volumeIdentity (v : VolumeSpec) :=
  (vol_name v, vol_mode v, vol_source v, vol_path v, vol_initMethod v, vol_wipeMethod v).

Definition validateStorageSpecChange (old new : AerospikeStorageSpec) : result unit :=
  if DeepEqual (volumeIdentity <$> Volumes old) (volumeIdentity <$> Volumes new) then Ok tt
  else Err (Errorf "cannot change volumes old: %v new %v" [AStorage old; AStorage new]).

Definition validateSecurityContext (newSpec oldSpec : AerospikeConfigSpec) : result unit :=
  ovflag ← match IsSecurityEnabled oldSpec with
           | Err err =>
               Err (Errorf "failed to validate Security context of old aerospike conf: %w"
                      [AError err])
           | r => r
           end;
  ivflag ← match IsSecurityEnabled newSpec with
           | Err err =>
               Err (Errorf "failed to validate Security context of new aerospike conf: %w"
                      [AError err])
           | r => r
           end;
  if negb ivflag && ovflag then
    Err (Errorf "cannot disable cluster security in running cluster" [])
  else Ok tt.

Definition validateSecurityConfigUpdate (newSpec oldSpec : AerospikeConfigSpec)
    (currentStatus : option AerospikeConfigSpec) : result unit :=
  _ ← match currentStatus with
      | Some currentStatus =>
          currentSecurityEnabled ← IsSecurityEnabled currentStatus;
          desiredSecurityEnabled ← IsSecurityEnabled newSpec;
          if (currentSecurityEnabled : bool) && negb desiredSecurityEnabled then
            Err (Errorf "cannot disable cluster security in running cluster" [])
          else Ok tt
      | None => Ok tt
      end;
  validateSecurityContext newSpec oldSpec.

(** The names of the TLS configurations used by the connections. *)
Definition usedTLSStep (network : gmap string value) (used : gset string)
    (connectionType : string) : result (gset string) :=
  match network !! connectionType with
  | Some connectionConfig =>
      connectionConfigMap ← as_map connectionConfig;
      match connectionConfigMap !! confKeyTLSName with
      | Some tlsName => name ← as_string tlsName; Ok ({[name]} ∪ used)
      | None => Ok used
      end
  | None => Ok used
  end.

Definition oldTLSStep (oldUsedTLS : gset string)
    (maps : gmap string string * gmap string string) (tls : value)
  : result (gmap string string * gmap string string) :=
  tlsMap ← as_map tls;
  name ← as_string (index tlsMap "name");
  if decide (name ∈ oldUsedTLS) then
    caFileMap ← match tlsMap !! "ca-file" with
                | Some oldCAFile => f ← as_string oldCAFile; Ok (<[name := f]> maps.1)
                | None => Ok maps.1
                end;
    caPathMap ← match tlsMap !! "ca-path" with
                | Some oldCAPath => f ← as_string oldCAPath; Ok (<[name := f]> maps.2)
                | None => Ok maps.2
                end;
    Ok (caFileMap, caPathMap)
  else Ok maps.

Definition newTLSCheck (newUsedTLS : gset string)
    (oldTLSCAFileMap oldTLSCAPathMap : gmap string string) (tls : value) : result unit :=
  tlsMap ← as_map tls;
  name ← as_string (index tlsMap "name");
  if decide (name ∈ newUsedTLS) then
    let newCAPathOK := bool_decide (is_Some (tlsMap !! "ca-path")) in
    let newCAFileOK := bool_decide (is_Some (tlsMap !! "ca-file")) in
    let oldCAFileOK := bool_decide (is_Some (oldTLSCAFileMap !! name)) in
    let oldCAPathOK := bool_decide (is_Some (oldTLSCAPathMap !! name)) in
    if (oldCAFileOK || oldCAPathOK) && negb (newCAPathOK || newCAFileOK) then
      Err (Errorf "cannot remove used `ca-file` or `ca-path` from tls" [])
    else
      match oldTLSCAFileMap !! name, tlsMap !! "ca-file" with
      | Some oldCAFile, Some newCAFile =>
          f ← as_string newCAFile;
          if decide (f ≠ oldCAFile) then Err (Errorf "cannot change ca-file of used tls" [])
          else Ok tt
      | _, _ => Ok tt
      end
  else Ok tt.

Definition validateTLSUpdate (oldConf newConf : gmap string value) : result unit :=
  oldNetwork ← as_map (index oldConf "network");
  newNetwork ← as_map (index newConf "network");
  match oldNetwork !! "tls", newNetwork !! "tls" with
  | Some oldTLS, Some newTLS =>
      if negb (DeepEqual oldTLS newTLS) then
        (* fetching names of TLS configurations used in connections *)
        newUsedTLS ← foldEach (usedTLSStep newNetwork) ∅ networkConnectionTypes;
        (* fetching names of TLS configurations used in old connections
           configurations *)
        oldUsedTLS ← foldEach (usedTLSStep oldNetwork) ∅ networkConnectionTypes;
        oldList ← as_list oldTLS;
        maps ← foldEach (oldTLSStep oldUsedTLS) (∅, ∅) oldList;
        newList ← as_list newTLS;
        forEach (newTLSCheck newUsedTLS maps.1 maps.2) newList
      else Ok tt
  | _, _ => Ok tt
  end.

Definition validateNetworkPortUpdate (oldConnectionConfig newConnectionConfig : gmap string value)
    (port : string) : result unit :=
  let tlsPort := "tls-" ++ port in
  _ ← match oldConnectionConfig !! port, newConnectionConfig !! port with
      | Some oldPort, Some newPort =>
          if negb (DeepEqual oldPort newPort) then
            Err (Errorf "cannot modify %s number: old value %v, new value %v"
                   [AString port; AValue oldPort; AValue newPort])
          else Ok tt
      | _, _ => Ok tt
      end;
  _ ← match oldConnectionConfig !! tlsPort, newConnectionConfig !! tlsPort with
      | Some oldTLSPort, Some newTLSPort =>
          if negb (DeepEqual oldTLSPort newTLSPort) then
            Err (Errorf "cannot modify %s number: old value %v, new value %v"
                   [AString tlsPort; AValue oldTLSPort; AValue newTLSPort])
          else Ok tt
      | _, _ => Ok tt
      end;
  let oldPortOk := bool_decide (is_Some (oldConnectionConfig !! port)) in
  let newPortOk := bool_decide (is_Some (newConnectionConfig !! port)) in
  let oldTLSPortOk := bool_decide (is_Some (oldConnectionConfig !! tlsPort)) in
  let newTLSPortOk := bool_decide (is_Some (newConnectionConfig !! tlsPort)) in
  if ((negb newTLSPortOk && oldTLSPortOk) || (negb newPortOk && oldPortOk)) &&
     negb (oldPortOk && oldTLSPortOk) then
    Err (Errorf ("cannot remove tls or non-tls configurations unless both " ++
                 "configurations have been set initially") [])
  else Ok tt.

Definition networkPorts : list string := ["port"; "access-port"; "alternate-access-port"].

Definition validateNetworkConnectionUpdate (newConf oldConf : gmap string value)
    (connectionType : string) : result unit :=
  oldNetwork ← as_map (index oldConf "network");
  oldConnectionConfig ← as_map (index oldNetwork connectionType);
  newNetwork ← as_map (index newConf "network");
  newConnectionConfig ← as_map (index newNetwork connectionType);
  _ ← match oldConnectionConfig !! "tls-name", newConnectionConfig !! "tls-name" with
      | Some oldTLSName, Some newTLSName =>
          if negb (DeepEqual oldTLSName newTLSName) then
            Err (Errorf "cannot modify tls name" [])
          else Ok tt
      | _, _ => Ok tt
      end;
  forEach (validateNetworkPortUpdate oldConnectionConfig newConnectionConfig) networkPorts.

Definition validateNetworkPolicyUpdate (oldPolicy newPolicy : AerospikeNetworkPolicy)
  : result unit :=
  if negb (DeepEqual (FabricType oldPolicy) (FabricType newPolicy)) then
    Err (Errorf "cannot update fabric type" [])
  else if negb (DeepEqual (TLSFabricType oldPolicy) (TLSFabricType newPolicy)) then
    Err (Errorf "cannot update tlsFabric type" [])
  else if DeepEqual (FabricType newPolicy) NetworkTypeCustomInterface &&
          negb (DeepEqual (CustomFabricNetworkNames oldPolicy)
                          (CustomFabricNetworkNames newPolicy)) then
    Err (Errorf "cannot change/update customFabricNetworkNames" [])
  else if DeepEqual (TLSFabricType newPolicy) NetworkTypeCustomInterface &&
          negb (DeepEqual (CustomTLSFabricNetworkNames oldPolicy)
                          (CustomTLSFabricNetworkNames newPolicy)) then
    Err (Errorf "cannot change/update customTLSFabricNetworkNames" [])
  else Ok tt.

(** A device of the status may not be claimed by another namespace of the
    incoming configuration. [claimed !!! device] is Go's read of a
    [map[string]string], the empty string for a missing key. *)
Definition reuseStep (kind : string) (namespace : string)
    (claimed : gmap string string) (d : value) : result unit :=
  device ← as_string d;
  let current := default "" (claimed !! device) in
  if negb (bool_decide (current = "")) && negb (bool_decide (current = namespace)) then
    Err (Errorf (kind ++ " %s can not be removed and re-used in a different namespace at " ++
                 "the same time. It has to be removed first. currentNamespace `%s`, " ++
                 "oldNamespace `%s`")
           [AString device; AString current; AString namespace])
  else Ok tt.

Definition reuseAll (kind key : string) (namespace : string)
    (storage : gmap string value) (claimed : gmap string string) : result unit :=
  match storage !! key with
  | Some entries => l ← as_list entries; forEach (reuseStep kind namespace claimed) l
  | None => Ok tt
  end.

Definition validateStorageEngineDeviceListUpdate (nsConfList statusNsConfList : list value)
  : result unit :=
  lists ← validateStorageEngineDeviceList nsConfList;
  let '(deviceList, fileList) := lists in
  forEach (λ statusNsConfInterface,
    nsConf ← as_map statusNsConfInterface;
    namespace ← as_string (index nsConf "name");
    storage ← as_map (index nsConf "storage-engine");
    _ ← reuseAll "device" "devices" namespace storage deviceList;
    reuseAll "file" "files" namespace storage fileList) statusNsConfList.

(** The comparison of one incoming namespace with one previous namespace. *)
Definition checkNsPair (singleConfInterface : value) (singleConf : gmap string value)
    (oldSingleConfInterface : value) : result unit :=
  match oldSingleConfInterface with
  | VMap oldSingleConf =>
      match iface_eq (index singleConf "name") (index oldSingleConf "name") with
      | None => Panic
      | Some false => Ok tt
      | Some true =>
          (* replication-factor update not allowed *)
          if isValueUpdated oldSingleConf singleConf "replication-factor" then
            Err (Errorf "replication-factor cannot be updated. old nsconf %v, new nsconf %v"
                   [AValue oldSingleConfInterface; AValue singleConfInterface])
          (* strong-consistency update not allowed *)
          else if isValueUpdated oldSingleConf singleConf "strong-consistency" then
            Err (Errorf "strong-consistency cannot be updated. old nsconf %v, new nsconf %v"
                   [AValue oldSingleConfInterface; AValue singleConfInterface])
          else Ok tt
      end
  | _ => Err (Errorf "namespace conf not in valid format %v" [AValue oldSingleConfInterface])
  end.

Definition checkNsUpdate (oldNsConfList : list value) (singleConfInterface : value)
  : result unit :=
  match singleConfInterface with
  | VMap singleConf =>
      (* Validate new namespace conf from old namespace conf. Few fields
         cannot be updated *)
      forEach (checkNsPair singleConfInterface singleConf) oldNsConfList
  | _ => Err (Errorf "namespace conf not in valid format %v" [AValue singleConfInterface])
  end.

Definition validateNsConfUpdate (newConfSpec oldConfSpec : AerospikeConfigSpec)
    (currentStatus : option AerospikeConfigSpec) : result unit :=
  let newConf := conf newConfSpec in
  let oldConf := conf oldConfSpec in
  statusNsConfList ←
    match currentStatus with
    | Some currentStatus =>
        if decide (size (conf currentStatus) ≠ 0%nat) then
          as_list (index (conf currentStatus) "namespaces")
        else Ok []
    | None => Ok []
    end;
  newNsConfList ← as_list (index newConf "namespaces");
  oldNsConfList ← as_list (index oldConf "namespaces");
  _ ← forEach (checkNsUpdate oldNsConfList) newNsConfList;
  validateStorageEngineDeviceListUpdate newNsConfList statusNsConfList.

Definition validateAerospikeConfigUpdate (incomingSpec outgoingSpec : AerospikeConfigSpec)
    (currentStatus : option AerospikeConfigSpec) : result unit :=
  _ ← validateSecurityConfigUpdate incomingSpec outgoingSpec currentStatus;
  let newConf := conf incomingSpec in
  let oldConf := conf outgoingSpec in
  _ ← validateTLSUpdate oldConf newConf;
  _ ← forEach (validateNetworkConnectionUpdate newConf oldConf) networkConnectionTypes;
  validateNsConfUpdate incomingSpec outgoingSpec currentStatus.

(** The body of the loops of [validateRackUpdate] for an old rack and the
    first rack of the new descriptor with the same ID (the inner loop
    breaks after it). *)
Definition checkRackPair (c : AerospikeCluster) (oldRack newRack : Rack) : result unit :=
  if negb (DeepEqual (NodeName oldRack) (NodeName newRack)) ||
     negb (DeepEqual (RackLabel oldRack) (RackLabel newRack)) ||
     negb (DeepEqual (Region oldRack) (Region newRack)) ||
     negb (DeepEqual (Zone oldRack) (Zone newRack)) then
    Err (Errorf ("old RackConfig (NodeName, RackLabel, Region, Zone) cannot be updated. " ++
                 "Old rack %v, new rack %v") [ARack oldRack; ARack newRack])
  else
    _ ← (if decide (size (conf (AerospikeConfig oldRack)) ≠ 0%nat ∨
                    size (conf (AerospikeConfig newRack)) ≠ 0%nat) then
           let rackStatusConfig :=
             AerospikeConfig <$>
               List.find (λ statusRack, bool_decide (ID statusRack = ID newRack))
                         (Racks (StatusRackConfig (Status c))) in
           (* Validate aerospikeConfig update *)
           match validateAerospikeConfigUpdate (AerospikeConfig newRack)
                   (AerospikeConfig oldRack) rackStatusConfig with
           | Err err =>
               Err (Errorf "invalid update in Rack(ID: %d) aerospikeConfig: %v"
                      [AInt (ID oldRack); AError err])
           | r => r
           end
         else Ok tt);
    if decide (length (Volumes (Storage oldRack)) ≠ 0%nat ∨
               length (Volumes (Storage newRack)) ≠ 0%nat) then
      (* Volume storage update is not allowed but cascadeDelete policy is
         allowed *)
      match validateStorageSpecChange (Storage oldRack) (Storage newRack) with
      | Err err => Err (Errorf "rack storage config cannot be updated: %v" [AError err])
      | r => r
      end
    else Ok tt.

Definition validateRackUpdate (c old : AerospikeCluster) : result unit :=
  if DeepEqual (SpecRackConfig (Spec c)) (SpecRackConfig (Spec old)) then Ok tt
  else
    (* Old racks cannot be updated *)
    forEach (λ oldRack,
      match List.find (λ newRack, bool_decide (ID oldRack = ID newRack))
                      (Racks (SpecRackConfig (Spec c))) with
      | Some newRack => checkRackPair c oldRack newRack
      | None => Ok tt
      end) (Racks (SpecRackConfig (Spec old))).

(** ** Letter case *)

Definition strings_ToLower (s : string) : string :=
  if isASCII s then asciiToLower s else unicodeToLower s.

Definition strings_EqualFold (s t : string) : bool :=
  if isASCII s && isASCII t then bool_decide (asciiToLower s = asciiToLower t)
  else unicodeEqualFold s t.

(** ** [validateOperation] and [validateOperationUpdate] *)

Definition validateOperation (c : AerospikeCluster) : result unit :=
  (* Nothing to validate if no operation *)
  if decide (length (Operations (Spec c)) = 0%nat) then Ok tt
  else if ClientCert.isNil (StatusAerospikeConfig (Status c)) then
    Err (Errorf "operation cannot be added during aerospike cluster creation" [])
  else Ok tt.

Definition podSet (op : OperationSpec) : gset string :=
  list_to_set (default [] (PodList op)).

Definition validateOperationUpdate (oldSpec newSpec : AerospikeClusterSpec)
    (status : AerospikeClusterStatus) : result unit :=
  match Operations newSpec with
  | [] => Ok tt
  | newOp :: _ =>
      let oldOp := head (Operations oldSpec) in
      if match oldOp with
         | Some oldOp =>
             bool_decide (OperationID oldOp = OperationID newOp) &&
             negb (DeepEqual oldOp newOp)
         | None => false
         end then
        Err (Errorf "operation %s cannot be updated" [AString (OperationID newOp)])
      else
        let allPodNames := GetAllPodNames (Pods status) in
        if negb (bool_decide (podSet newOp ⊆ allPodNames)) then
          Err (Errorf "invalid pod names in operation %v"
                 [AStrings (elements (podSet newOp ∖ allPodNames))])
        (* Don't allow any on-demand operation along with these cluster
           change: scale up, racks added or removed, image update *)
        else if negb (DeepEqual (Operations newSpec) (StatusOperations status)) then
          if decide (Size newSpec > StatusSize status) then
            Err (Errorf "cannot change Spec.Operations along with cluster scale-up" [])
          else if decide (length (Racks (SpecRackConfig newSpec)) ≠
                            length (Racks (StatusRackConfig status)) ∨
                          length (Racks (SpecRackConfig newSpec)) ≠
                            length (Racks (SpecRackConfig oldSpec))) then
            Err (Errorf "cannot change Spec.Operations along with rack addition/removal" [])
          else if decide (Image newSpec ≠ StatusImage status ∨
                          Image newSpec ≠ Image oldSpec) then
            Err (Errorf "cannot change Spec.Operations along with image update" [])
          else Ok tt
        else Ok tt
  end.

(** ** Resources and limits *)

Definition validateResourceAndLimits (resources : option ResourceRequirements)
    (checkResourcesLimits : bool) : result unit :=
  match resources with
  | None =>
      if checkResourcesLimits then
        Err (Errorf ("resources.Limits for init container cannot be empty if " ++
                     "CleanupThreads is being set more than 1") [])
      else Ok tt
  | Some resources =>
      if checkResourcesLimits && ClientCert.isNil (Limits resources) then
        Err (Errorf ("resources.Limits for init container cannot be empty if " ++
                     "CleanupThreads is being set more than 1") [])
      else
        match Limits resources, Requests resources with
        | Some limits, Some requests =>
            if bool_decide (Cpu limits < Cpu requests) ||
               bool_decide (Memory limits < Memory requests) then
              Err (Errorf ("resources.Limits cannot be less than resource.Requests. " ++
                           "Resources %v") [])
            else Ok tt
        | _, _ => Ok tt
        end
  end.

Definition validatePodSpecResourceAndLimits (c : AerospikeCluster) : result unit :=
  _ ← validateResourceAndLimits (Resources (PodAerospikeContainerSpec (PodSpec (Spec c)))) false;
  let checkResourcesLimits :=
    existsb (λ rack,
      negb (bool_decide (CleanupThreads (Storage rack) = AerospikeVolumeSingleCleanupThread)))
      (Racks (SpecRackConfig (Spec c))) in
  match PodAerospikeInitContainerSpec (PodSpec (Spec c)) with
  | None =>
      if checkResourcesLimits then
        Err (Errorf ("init container spec should have resources.Limits set if " ++
                     "CleanupThreads is more than 1") [])
      else Ok tt
  | Some initContainerSpec =>
      validateResourceAndLimits (InitResources initContainerSpec) checkResourcesLimits
  end.

(** ** The pod specification *)

Definition validateDNS (dnsPolicy : string) (dnsConfig : option PodDNSConfig) : result unit :=
  if decide (dnsPolicy = DNSDefault) then
    Err (Errorf "dnsPolicy: Default is not supported" [])
  else if bool_decide (dnsPolicy = DNSNone) && ClientCert.isNil dnsConfig then
    Err (Errorf "dnsConfig is required field when dnsPolicy is set to None" [])
  else Ok tt.

(** The labels are ranged over in the order of [map_to_list], which
    stands for the order Go leaves unspecified. *)
Definition ValidateAerospikeObjectMeta (aerospikeObjectMeta : AerospikeObjectMeta)
  : result unit :=
  forEach (λ entry : string * string,
    let label := entry.1 in
    if bool_decide (label = AerospikeAppLabel) ||
       bool_decide (label = AerospikeRackIDLabel) ||
       bool_decide (label = AerospikeCustomResourceLabel) then
      Err (Errorf ("label: %s is automatically defined by operator and shouldn't be " ++
                   "specified by user") [AString label])
    else Ok tt) (map_to_list (Labels aerospikeObjectMeta)).

(** The body of the loop of [validatePodSpecContainer]; the local variable
    is [containerNames]. *)
Definition containerStep (containerNames : gmap string Z) (container : Container)
  : result (gmap string Z) :=
  (* Check for reserved container name *)
  if bool_decide (ContainerName container = AerospikeServerContainerName) ||
     bool_decide (ContainerName container = AerospikeInitContainerName) then
    Err (Errorf "cannot use reserved container name: %v" [AString (ContainerName container)])
  (* Check for duplicate names *)
  else if decide (is_Some (containerNames !! ContainerName container)) then
    Err (Errorf "cannot have duplicate names of containers: %v"
           [AString (ContainerName container)])
  else Ok (<[ContainerName container := 1]> containerNames).

Definition validatePodSpecContainer (containers : list Container) : result unit :=
  _ ← foldEach containerStep ∅ containers; Ok tt.

Definition validatePodSpec (c : AerospikeCluster) : result unit :=
  let podSpec := PodSpec (Spec c) in
  if HostNetwork podSpec && GetBool (MultiPodPerHost podSpec) then
    Err (Errorf "host networking cannot be enabled with multi pod per host" [])
  else
    _ ← validateDNS (DNSPolicy podSpec) (DNSConfig podSpec);
    let allContainers := (Sidecars podSpec ++ InitContainers podSpec)%list in
    _ ← ValidateAerospikeObjectMeta (PodAerospikeObjectMeta podSpec);
    (* Duplicate names are not allowed across sidecars and initContainers *)
    validatePodSpecContainer allContainers.

(** ** The network policy *)

Definition networksAnnotation : string := "k8s.v1.cni.cncf.io/networks".

(** The networks of the pod annotations, as [validateNetworkPolicy]
    collects them in [networkSet]. *)
Definition networkSetOf (c : AerospikeCluster) (namespace : string) : gset string :=
  let annotations := Annotations (PodAerospikeObjectMeta (PodSpec (Spec c))) in
  let networks := default "" (annotations !! networksAnnotation) in
  let networkList := strings_Split networks "," in
  list_to_set (setNamespaceDefault networkList namespace).

(** The closure [validateNetworkList]. *)
Definition validateNetworkList (c : AerospikeCluster) (networkSet : gset string)
    (netList : option (list string)) (addressType listName : string) : result unit :=
  match netList with
  | None =>
      Err (Errorf "%s is required with 'customInterface' %s type"
             [AString listName; AString addressType])
  | Some names =>
      if HostNetwork (PodSpec (Spec c)) then
        Err (Errorf "hostNetwork is not allowed with 'customInterface' network type" [])
      else if negb (bool_decide (Forall (λ name, name ∈ networkSet) names)) then
        Err (Errorf ("required networks %v not present in pod metadata annotations " ++
                     "key `k8s.v1.cni.cncf.io/networks`") [AStrings names])
      else Ok tt
  end.

Definition validateNetworkPolicy (c : AerospikeCluster) (namespace : string) : result unit :=
  let networkPolicy := SpecNetworkPolicy (Spec c) in
  let networkSet := networkSetOf c namespace in
  let check (type : AerospikeNetworkType) (netList : option (list string))
            (addressType listName : string) : result unit :=
    if decide (type = NetworkTypeCustomInterface) then
      validateNetworkList c networkSet netList addressType listName
    else Ok tt in
  _ ← check (AccessType networkPolicy) (CustomAccessNetworkNames networkPolicy)
        "access" "customAccessNetworkNames";
  _ ← check (AlternateAccessType networkPolicy)
        (CustomAlternateAccessNetworkNames networkPolicy)
        "alternateAccess" "customAlternateAccessNetworkNames";
  _ ← check (TLSAccessType networkPolicy) (CustomTLSAccessNetworkNames networkPolicy)
        "tlsAccess" "customTLSAccessNetworkNames";
  _ ← check (TLSAlternateAccessType networkPolicy)
        (CustomTLSAlternateAccessNetworkNames networkPolicy)
        "tlsAlternateAccess" "customTLSAlternateAccessNetworkNames";
  _ ← check (FabricType networkPolicy) (CustomFabricNetworkNames networkPolicy)
        "fabric" "customFabricNetworkNames";
  check (TLSFabricType networkPolicy) (CustomTLSFabricNetworkNames networkPolicy)
    "tlsFabric" "customTLSFabricNetworkNames".

(** ** The image version and the file storage a configuration requires *)

(** The body of the loop of [GetImageVersion] that looks for the longest
    match; the local variable is the index [longest]. *)
Definition longestStep (matches : list string) (longest i : nat) : nat :=
  if decide (String.length (matches !!! longest) ≤ String.length (matches !!! i))%nat
  then i else longest.

(** [GetImageVersion] extracts the Aerospike version from a container
    image: the longest string of the image tag that is a version
    string. *)
Definition GetImageVersion (imageStr : string) : result string :=
  let '(_, _, version) := ParseDockerImageTag imageStr in
  if bool_decide (version = "") || strings_EqualFold version "latest" then
    Err (Errorf "image version is mandatory for image: %v" [AString imageStr])
  else
    (* Ignore special prefixes and suffixes. *)
    let matches := versionRegex_FindAllString version in
    if decide (length matches < 1)%nat then
      Err (Errorf "invalid image version format: %v" [AString version])
    else
      let longest := foldl (longestStep matches) 0%nat (seq 0 (length matches)) in
      Ok (matches !!! longest).

(** [isSecretManagerPath] indicates if the given path is a Secret
    Manager's unique identifier path. *)
Definition isSecretManagerPath (path : string) : bool :=
  strings_HasPrefix path "secrets:" || strings_HasPrefix path "vault:".

Definition getFeatureKeyFilePaths (configSpec : AerospikeConfigSpec) : result (list string) :=
  let config := conf configSpec in
  (* feature-key-file needs secret *)
  match config !! "service" with
  | Some svc =>
      svcMap ← as_map svc;
      match svcMap !! "feature-key-file" with
      | Some path => p ← as_string path; Ok [p]
      | None =>
          match svcMap !! "feature-key-files" with
          | Some (VList pathsList) =>
              foldEach (λ (paths : list string) pathInt,
                p ← as_string pathInt; Ok (paths ++ [p])%list) [] pathsList
          | _ => Ok []
          end
      end
  | None => Ok []
  end.

(** The body of the loop of [getTLSFilePaths] over the TLS entries; the
    local variables are [nonCAPaths] and [caPaths]. *)
Definition tlsPathsStep (paths : list string * list string) (tlsInterface : value)
  : result (list string * list string) :=
  tlsMap ← as_map tlsInterface;
  nonCAPaths ← match tlsMap !! "cert-file" with
               | Some path => p ← as_string path; Ok (paths.1 ++ [p])%list
               | None => Ok paths.1
               end;
  nonCAPaths ← match tlsMap !! "key-file" with
               | Some path => p ← as_string path; Ok (nonCAPaths ++ [p])%list
               | None => Ok nonCAPaths
               end;
  caPaths ← match tlsMap !! "ca-file" with
            | Some path => p ← as_string path; Ok (paths.2 ++ [p])%list
            | None => Ok paths.2
            end;
  caPaths ← match tlsMap !! "ca-path" with
            | Some path => p ← as_string path; Ok (caPaths ++ [p +:+ "/"])%list
            | None => Ok caPaths
            end;
  Ok (nonCAPaths, caPaths).

Definition getTLSFilePaths (configSpec : AerospikeConfigSpec)
  : result (list string * list string) :=
  let config := conf configSpec in
  match config !! "network" with
  | Some network =>
      networkMap ← as_map network;
      match networkMap !! "tls" with
      | Some (VList tlsList) => foldEach tlsPathsStep ([], []) tlsList
      | _ => Ok ([], [])
      end
  | None => Ok ([], [])
  end.

(** The body of the loop of
    [validateRequiredFileStorageForAerospikeConfig] over the paths. *)
Definition checkPathMounted (storage : AerospikeStorageSpec)
    (defaultPassFilePath : option string) (path : string) : result unit :=
  match GetVolumeForAerospikePath storage (filepath_Dir path) with
  | None =>
      Err (Errorf ("feature-key-file paths or tls paths or default-password-file path " ++
                   "are not mounted - create an entry for '%s' in 'storage.volumes'")
             [AString path])
  | Some volume =>
      if match defaultPassFilePath with
         | Some p => bool_decide (path = p) && negb (bool_decide (vol_source volume = Secret))
         | None => false
         end then
        Err (Errorf ("default-password-file path %s volume source should be secret in " ++
                     "storage config, volume %v") [AString path])
      else Ok tt
  end.

Definition validateRequiredFileStorageForAerospikeConfig (configSpec : AerospikeConfigSpec)
    (storage : AerospikeStorageSpec) : result unit :=
  featureKeyFilePaths ← getFeatureKeyFilePaths configSpec;
  tlsPaths ← getTLSFilePaths configSpec;
  let '(nonCAPaths, caPaths) := tlsPaths in
  let defaultPassFilePath := GetDefaultPasswordFilePath configSpec in
  let allPaths :=
    (filter (λ path, isSecretManagerPath path = false) featureKeyFilePaths ++
     filter (λ path, isSecretManagerPath path = false) nonCAPaths)%list in
  allPaths ← match defaultPassFilePath with
             | Some p =>
                 if negb (isSecretManagerPath p) then Ok (allPaths ++ [p])%list
                 else
                   Err (Errorf ("default-password-file path doesn't support Secret " ++
                                "Manager, path %s") [AString p])
             | None => Ok allPaths
             end;
  (* CA cert related fields are not supported with Secret Manager, so check
     their mount volume *)
  let allPaths := (allPaths ++ caPaths)%list in
  forEach (checkPathMounted storage defaultPassFilePath) allPaths.

Definition validateWorkDir (workDirPath : string) (fileStorageList : list string)
  : result unit :=
  if negb (filepath_IsAbs workDirPath) then
    Err (Errorf "aerospike work directory path %s must be absolute" [AString workDirPath])
  else if negb (isFileStorageConfiguredForDir fileStorageList workDirPath) then
    Err (Errorf ("aerospike work directory path %s not found in storage volume's " ++
                 "aerospike paths %v") [AString workDirPath; AStrings fileStorageList])
  else Ok tt.

(** The policy is reached through a pointer: reading a nil one panics. *)
Definition validateRequiredFileStorageForMetadata (configSpec : AerospikeConfigSpec)
    (storage : AerospikeStorageSpec) (validationPolicy : option ValidationPolicySpec)
  : result unit :=
  lists ← getAerospikeStorageList storage true;
  let onlyPVFileStorageList := lists.2 in
  match validationPolicy with
  | None => Panic
  | Some validationPolicy =>
      (* Validate work directory. *)
      if negb (SkipWorkDirValidate validationPolicy) then
        validateWorkDir (GetWorkDirectory configSpec) onlyPVFileStorageList
      else
        let workDirPath := GetConfiguredWorkDirectory configSpec in
        if negb (bool_decide (workDirPath = "")) then
          lists ← getAerospikeStorageList storage false;
          validateWorkDir workDirPath lists.2
        else Ok tt
  end.

(** ** [validateRackConfig], [validate] and the two entry points *)

Definition checkRack (c : AerospikeCluster)
    (state : gset Z * gset Z) (rack : Rack) : result (gset Z * gset Z) :=
  let '(rackMap, migrateFillDelaySet) := state in
  (* Check for duplicate *)
  if decide (ID rack ∈ rackMap) then
    Err (Errorf "duplicate rackID %d not allowed, racks %v" [AInt (ID rack)])
  (* Check out of range rackID *)
  else if decide (ID rack > MaxRackID) then
    Err (Errorf "invalid rackID. RackID range (%d, %d)" [AInt MinRackID; AInt MaxRackID])
  else
    _ ← match InputAerospikeConfig rack with
        | Some input =>
            if decide (is_Some (conf input !! "network") ∨ is_Some (conf input !! "security"))
            then
              Err (Errorf ("you can't specify network or security configuration for rack %d " ++
                           "(network and security should be the same for all racks)")
                     [AInt (ID rack)])
            else Ok tt
        | None => Ok tt
        end;
    migrateFillDelay ← GetMigrateFillDelay (AerospikeConfig rack);
    Ok ({[ID rack]} ∪ rackMap, {[migrateFillDelay]} ∪ migrateFillDelaySet).

Definition validateRackConfig (c : AerospikeCluster) : result unit :=
  let rackConfig := SpecRackConfig (Spec c) in
  (* Validate namespace names *)
  _ ← forEach (λ nsName,
         if strings_Contains nsName " " then
           Err (Errorf "namespace name `%s` cannot have spaces, Namespaces %v"
                  [AString nsName; AStrings (Namespaces rackConfig)])
         else Ok tt) (Namespaces rackConfig);
  state ← foldEach (checkRack c) (∅, ∅) (Racks rackConfig);
  (* If len of migrateFillDelaySet is more than 1, it means that different
     migrate-fill-delay is set across racks *)
  if decide (1 < size state.2)%nat then
    Err (Errorf "migrate-fill-delay value should be same across all racks" [])
  else
    (* Validate batch upgrade/restart param *)
    _ ← validateBatchSize c (RollingUpdateBatchSize rackConfig) true;
    (* Validate batch scaleDown param *)
    _ ← validateBatchSize c (ScaleDownBatchSize rackConfig) false;
    (* Validate MaxIgnorablePods param *)
    match MaxIgnorablePods rackConfig with
    | Some _ =>
        validateIntOrStringField (MaxIgnorablePods rackConfig)
          "spec.rackConfig.maxIgnorablePods"
    | None => Ok tt
    end.

(** [isEnterprise] indicates if aerospike image is enterprise. *)
Definition isEnterprise (image : string) : bool :=
  strings_Contains (strings_ToLower image) "enterprise".

(** max cluster size for 5.0+ cluster *)
Definition maxEnterpriseClusterSize : Z := 256.

Definition validateClusterSize (sz : Z) : result unit :=
  if decide (sz > maxEnterpriseClusterSize) then
    Err (Errorf "cluster size cannot be more than %d" [AInt maxEnterpriseClusterSize])
  else Ok tt.

(** The lines of [validate] that read the version off the image and
    compare it with the base version. *)
Definition validateImageVersion (c : AerospikeCluster) : result string :=
  version ← GetImageVersion (Image (Spec c));
  val ← match CompareVersions version baseVersion with
        | Err err => Err (Errorf "failed to check image version: %v" [AError err])
        | r => r
        end;
  if decide (val < 0) then
    Err (Errorf "image version %s not supported. Base version %s"
           [AString version; AString baseVersion])
  else Ok version.

(** [validateAccessControl] hands the specification to the access control
    check and returns its error. *)
Definition validateAccessControl (c : AerospikeCluster) : result unit :=
  IsAerospikeAccessControlValid (Spec c).

(** The two checks of the file storage that [validate] runs on a rack. *)
Definition validateRequiredFileStorage (c : AerospikeCluster) (rack : Rack) : result unit :=
  _ ← validateRequiredFileStorageForMetadata (AerospikeConfig rack) (Storage rack)
        (ValidationPolicy (Spec c));
  validateRequiredFileStorageForAerospikeConfig (AerospikeConfig rack) (Storage rack).

(** The checks of [validate] on one rack. *)
Definition validateRack (c : AerospikeCluster) (version : string) (rack : Rack)
  : result unit :=
  (* Storage should be validated before validating aerospikeConfig and
     fileStorage *)
  _ ← validateStorage (Storage rack) (PodSpec (Spec c));
  (* Validate if passed aerospikeConfig *)
  _ ← match validateAerospikeConfigSchema version (AerospikeConfig rack) with
      | Err err => Err (Errorf "aerospikeConfig not valid: %v" [AError err])
      | r => r
      end;
  (* Validate common aerospike config *)
  _ ← validateAerospikeConfig c (AerospikeConfig rack) (Storage rack) (Size (Spec c));
  validateRequiredFileStorage c rack.

(** The checks that follow [validateMaxUnavailable]; each of them returns
    the warnings collected so far unchanged. *)
Definition validateAfterMaxUnavailable (c : AerospikeCluster) : result unit :=
  (* Validate Image version *)
  version ← validateImageVersion c;
  _ ← validateClusterSize (Size (Spec c));
  _ ← validateOperation c;
  _ ← validateStorage (SpecStorage (Spec c)) (PodSpec (Spec c));
  _ ← forEach (validateRack c version) (Racks (SpecRackConfig (Spec c)));
  (* Validate resource and limit *)
  _ ← validatePodSpecResourceAndLimits c;
  (* Validate access control *)
  _ ← validateAccessControl c;
  (* Validate rackConfig *)
  _ ← validateRackConfig c;
  _ ← ClientCert.validateClientCertSpec (OperatorClientCertSpec (Spec c))
        (SpecAerospikeConfig (Spec c));
  _ ← validateNetworkPolicy c (Namespace c);
  (* Validate Sidecars *)
  _ ← validatePodSpec c;
  validateSCNamespaces c.

Definition validate (c : AerospikeCluster) : list string * result unit :=
  (* Validate obj name *)
  if decide (Name c = "") then ([], Err (Errorf "aerospikeCluster name cannot be empty" []))
  else if strings_Contains (Name c) " " then
    ([], Err (Errorf "aerospikeCluster name cannot have spaces" []))
  (* Validate obj namespace *)
  else if decide (Namespace c = "") then
    ([], Err (Errorf "aerospikeCluster namespace name cannot be empty" []))
  else if strings_Contains (Namespace c) " " then
    ([], Err (Errorf "aerospikeCluster name cannot have spaces" []))
  (* Validate image type. Only enterprise image allowed for now *)
  else if negb (isEnterprise (Image (Spec c))) then
    ([], Err (Errorf "CommunityEdition Cluster not supported" []))
  (* Validate size *)
  else if decide (Size (Spec c) = 0) then ([], Err (Errorf "invalid cluster size 0" []))
  else
    (* Validate MaxUnavailable for PodDisruptionBudget *)
    let '(warns, err) := validateMaxUnavailable c in
    let warnings := warns in
    match err with
    | Ok _ => (warnings, validateAfterMaxUnavailable c)
    | _ => (warnings, err)
    end.

Definition ValidateCreate (obj : AerospikeCluster) : list string * result unit :=
  validate obj.

(** MultiPodPerHost cannot be updated (the test is written in line in
    [ValidateUpdate]). *)
Definition multiPodPerHostUpdate (oldObject aerospikeCluster : AerospikeCluster)
  : result unit :=
  if negb (eqb (GetBool (MultiPodPerHost (PodSpec (Spec aerospikeCluster))))
               (GetBool (MultiPodPerHost (PodSpec (Spec oldObject))))) then
    Err (Errorf "cannot update MultiPodPerHost setting" [])
  else Ok tt.

Definition validateEnableDynamicConfigUpdate (c : AerospikeCluster) : result unit :=
  if negb (GetBool (EnableDynamicConfigUpdate (Spec c))) then Ok tt
  else if decide (size (Pods (Status c)) = 0%nat) then Ok tt
  else
    minInitVersion ← getMinRunningInitVersion (Pods (Status c));
    val ← match CompareVersions minInitVersion minInitVersionForDynamicConf with
          | Err err => Err (Errorf "failed to check image version: %v" [AError err])
          | r => r
          end;
    if decide (val < 0) then
      Err (Errorf ("cannot enable enableDynamicConfigUpdate flag, some init containers " ++
                   "are running version less than %s. Please visit " ++
                   "https://aerospike.com/docs/cloud/kubernetes/operator/" ++
                   "Cluster-configuration-settings#spec for more details about " ++
                   "enableDynamicConfigUpdate flag")
             [AString minInitVersionForDynamicConf])
    else Ok tt.

(** The lines of [ValidateUpdate] that read the two versions off the
    images and ask whether the upgrade is valid. *)
Definition validateUpgrade (oldObject aerospikeCluster : AerospikeCluster) : result unit :=
  outgoingVersion ← GetImageVersion (Image (Spec oldObject));
  incomingVersion ← GetImageVersion (Image (Spec aerospikeCluster));
  match IsValidUpgrade outgoingVersion incomingVersion with
  | Err err => Err (Errorf "failed to start upgrade: %v" [AError err])
  | r => r
  end.

(** The part of [ValidateUpdate] that compares the new object with the
    old one. *)
Definition validateAgainstOld (oldObject aerospikeCluster : AerospikeCluster) : result unit :=
  _ ← validateEnableDynamicConfigUpdate aerospikeCluster;
  _ ← validateUpgrade oldObject aerospikeCluster;
  (* Volume storage update is not allowed but cascadeDelete policy is allowed *)
  _ ← match validateStorageSpecChange (SpecStorage (Spec oldObject))
              (SpecStorage (Spec aerospikeCluster)) with
      | Err err => Err (Errorf "storage config cannot be updated: %v" [AError err])
      | r => r
      end;
  _ ← multiPodPerHostUpdate oldObject aerospikeCluster;
  _ ← validateNetworkPolicyUpdate (SpecNetworkPolicy (Spec oldObject))
                                  (SpecNetworkPolicy (Spec aerospikeCluster));
  _ ← validateOperationUpdate (Spec oldObject) (Spec aerospikeCluster)
        (Status aerospikeCluster);
  (* Validate AerospikeConfig update *)
  _ ← validateAerospikeConfigUpdate (SpecAerospikeConfig (Spec aerospikeCluster))
        (SpecAerospikeConfig (Spec oldObject))
        (StatusAerospikeConfig (Status aerospikeCluster));
  (* Validate RackConfig update *)
  validateRackUpdate aerospikeCluster oldObject.

Definition ValidateUpdate (oldObj newObj : AerospikeCluster) : list string * result unit :=
  let '(warns, vErr) := validate newObj in
  let warnings := warns in
  match vErr with
  | Ok _ => (warnings, validateAgainstOld oldObj newObj)
  | _ => (warnings, vErr)
  end.

(** The checks of [validate] that come before [validateMaxUnavailable]. *)
Definition preliminaryChecksPass (c : AerospikeCluster) : Prop :=
  Name c ≠ "" ∧ strings_Contains (Name c) " " = false ∧
  Namespace c ≠ "" ∧ strings_Contains (Namespace c) " " = false ∧
  isEnterprise (Image (Spec c)) = true ∧ Size (Spec c) ≠ 0.

(** ** What an update may not do to a network connection *)

Definition portFields : list string :=
  networkPorts ++ (String.app "tls-" <$> networkPorts).

(** The field is set on both sides, to different values. *)
Definition fieldChanged (old new : gmap string value) (key : string) : Prop :=
  ∃ a b, old !! key = Some a ∧ new !! key = Some b ∧ a ≠ b.

(** The field was set and is not any more. *)
Definition fieldRemoved (old new : gmap string value) (key : string) : Prop :=
  is_Some (old !! key) ∧ new !! key = None.

Definition connectionUpdateForbidden (old new : gmap string value) : Prop :=
  fieldChanged old new "tls-name" ∨
  (∃ key, key ∈ portFields ∧ fieldChanged old new key) ∨
  (∃ port, port ∈ networkPorts ∧
     (fieldRemoved old new port ∨ fieldRemoved old new ("tls-" ++ port)) ∧
     ¬ (is_Some (old !! port) ∧ is_Some (old !! ("tls-" ++ port)))).

(** ** Well-typedness conditions used in the statements *)

(** The names of the namespaces can be compared with [==]: none is a
    list or a map. *)
Definition comparableName (ns : value) : bool :=
  match ns with
  | VMap m => match index m "name" with VList _ | VMap _ => false | _ => true end
  | _ => true
  end.

Definition comparableNames (nsList : list value) : Prop :=
  forallb comparableName nsList = true.

(** A status that holds a configuration holds a list of namespaces. *)
Definition statusNamespacesTyped (currentStatus : option AerospikeConfigSpec) : Prop :=
  match currentStatus with
  | Some s => size (conf s) ≠ 0%nat → ∃ l, conf s !! "namespaces" = Some (VList l)
  | None => True
  end.

(** A namespace with a device or pmem storage engine and its list of
    devices. *)
Definition deviceNamespace (nsConf storageConf : gmap string value)
    (devices : list value) : Prop :=
  nsConf !! "storage-engine" = Some (VMap storageConf) ∧
  (storageConf !! "type" = Some (VString "device") ∨
   storageConf !! "type" = Some (VString "pmem")) ∧
  storageConf !! "devices" = Some (VList devices).

(** The error reported for a device path that no block volume declares. *)
Definition devicePathNotFound (dev : string) (storage : AerospikeStorageSpec) : error :=
  Errorf ("namespace storage device related devicePath %v not found in " ++
          "Storage config %v") [AString dev; AStorage storage].

(** The texts a message is made of: its format and, among its arguments,
    the strings and the fields of a storage specification. *)
Definition storageTexts (storage : AerospikeStorageSpec) : list string :=
  v ← Volumes storage; [vol_name v; vol_path v; vol_initMethod v; vol_wipeMethod v].

Definition argTexts (a : fmtarg) : list string :=
  match a with
  | AString s => [s]
  | AStrings l => l
  | AValue (VString s) => [s]
  | AStorage storage => storageTexts storage
  | _ => []
  end.

Definition messageTexts (e : error) : list string :=
  match e with Errorf format args => format :: (a ← args; argTexts a) end.

Definition mentions (e : error) (s : string) : bool :=
  existsb (λ t, strings_Contains t s) (messageTexts e).

(** The namespaces are maps with string names, no two of them alike. *)
Definition distinctNamespaceNames (nsList : list value) : Prop :=
  ∃ names, mapM nsName nsList = Some names ∧ NoDup names.

(** The network section of a configuration holds a map for each
    connection type. *)
Definition networkSectionsTyped (config : gmap string value) : Prop :=
  ∃ network, config !! "network" = Some (VMap network) ∧
    ∀ connectionType, connectionType ∈ networkConnectionTypes →
      ∃ section, network !! connectionType = Some (VMap section).

(** ** What [getNsConfForNamespaces] computes *)

(** The replication factor the summary keeps for a namespace entry: 0
    when it cannot be read. *)
Definition rfOf (ns : value) : Z :=
  match ns with
  | VMap m => match getNamespaceReplicationFactor m with Ok rf => rf | _ => 0 end
  | _ => 0
  end.

Definition allEntries (rackConfig : RackConfig) : list value :=
  Racks rackConfig ≫= nsEntries.

Definition entriesNamed (name : string) (entries : list value) : list value :=
  filter (λ v, nsName v = Some name) entries.

(** [nsConfs] summarises the namespace entries met so far: a name is
    recorded as soon as an entry carries it, with the number of such
    entries and the settings of one of them. *)
Definition summarises (nsConfs : gmap string nsConf) (entries : list value) : Prop :=
  (∀ name c, nsConfs !! name = Some c →
     ∃ v, v ∈ entries ∧ nsName v = Some name ∧
          replicationFactor c = rfOf v ∧ scEnabled c = nsSCEnabled v ∧
          noOfRacksForNamespaces c = Z.of_nat (length (entriesNamed name entries))) ∧
  (∀ v, v ∈ entries → ∃ name, nsName v = Some name ∧ is_Some (nsConfs !! name)).

(** [statusNsList] is the list of namespaces [validateNsConfUpdate] reads
    from the status. *)
Definition statusNamespaces (currentStatus : option AerospikeConfigSpec)
    (statusNsList : list value) : Prop :=
  match currentStatus with
  | Some s => conf s !! "namespaces" = Some (VList statusNsList)
  | None => statusNsList = []
  end.

End Webhook.

(** * Example descriptors *)

(** A sample set of collaborators: security is enabled by a [security]
    section, the storage lists are read off the volumes, a volume is
    looked up by its exact path, an image has its tag after its only
    colon, versions compare component by component, and the checks of
    other files and libraries (storage, schema, access control, upgrade)
    accept. Its functions on text that is not ASCII are never reached by
    the examples, which are ASCII. *)
Definition demoStorageList (storage : AerospikeStorageSpec) (onlyPV : bool)
  : result (list string * list string) :=
  let kept := filter (λ v, onlyPV = false ∨ vol_source v = PersistentVolume)
                     (Volumes storage) in
  Ok (vol_path <$> filter (λ v, vol_mode v = Block) kept,
      vol_path <$> filter (λ v, vol_mode v = Filesystem) kept).

(** The work directory of the service section, empty when none is set. *)
Definition demoConfiguredWorkDirectory (configSpec : AerospikeConfigSpec) : string :=
  match conf configSpec !! "service" with
  | Some (VMap service) =>
      match service !! "work-directory" with
      | Some (VString dir) => dir
      | _ => ""
      end
  | _ => ""
  end.

(** The numbers of a dotted version, and their comparison. *)
Definition versionNumbers (version : string) : list Z :=
  (λ part, default 0 (strconv_Atoi part)) <$> strings_Split version ".".

Fixpoint compareNumbers (v w : list Z) : Z :=
  match v, w with
  | [], [] => 0
  | [], _ :: _ => -1
  | _ :: _, [] => 1
  | x :: v', y :: w' =>
      if decide (x < y) then -1 else if decide (y < x) then 1 else compareNumbers v' w'
  end.

Definition demoCollaborators : Collaborators := {|
  IsSecurityEnabled cfg := Ok (bool_decide (is_Some (conf cfg !! "security")));
  getAerospikeStorageList := demoStorageList;
  GetVolumeForAerospikePath storage dir :=
    head (filter (λ v, vol_path v = dir) (Volumes storage));
  GetDefaultPasswordFilePath _ := None;
  GetWorkDirectory cfg :=
    if decide (demoConfiguredWorkDirectory cfg = "") then "/opt/aerospike"
    else demoConfiguredWorkDirectory cfg;
  GetConfiguredWorkDirectory := demoConfiguredWorkDirectory;
  MinRackID := 1;
  MaxRackID := 1000000;
  AerospikeVolumeSingleCleanupThread := 1;
  AerospikeServerContainerName := "aerospike-server";
  AerospikeInitContainerName := "aerospike-init";
  AerospikeAppLabel := "app";
  AerospikeRackIDLabel := "aerospike.com/rack-id";
  AerospikeCustomResourceLabel := "aerospike.com/cr";
  baseVersion := "6.0.0.0";
  minInitVersionForDynamicConf := "2.2.0";
  IsDNSName _ := true;
  readCertificateNames _ := Ok ∅;
  filepath_Dir path := path;
  filepath_Rel base target := if String.prefix base target then Some "." else Some "..";
  filepath_IsAbs path := strings_HasPrefix path "/";
  unicodeToLower s := s;
  unicodeEqualFold s t := bool_decide (s = t);
  setNamespaceDefault networks namespace :=
    (λ network, if strings_Contains network "/" then network
                else namespace +:+ "/" +:+ network) <$> networks;
  GetAllPodNames pods := dom pods;
  getMinRunningInitVersion _ := Ok "2.2.0";
  ParseDockerImageTag image :=
    match strings_Split image ":" with
    | [name; tag] => ("", name, tag)
    | _ => ("", image, "")
    end;
  CompareVersions v w := Ok (compareNumbers (versionNumbers v) (versionNumbers w));
  IsValidUpgrade _ _ := Ok tt;
  validateStorage _ _ := Ok tt;
  validateAerospikeConfigSchema _ _ := Ok tt;
  IsAerospikeAccessControlValid _ := Ok tt;
  GetMigrateFillDelay _ := Ok 0;
|}.

Definition memoryEngine : value := VMap {[ "type" := VString "memory" ]}.

Definition deviceEngine (devices : list string) : value :=
  VMap {[ "type" := VString "device"; "devices" := VList (VString <$> devices) ]}.

(** A namespace with an explicit replication factor. *)
Definition namespaceOf (name : string) (rf : Z) (engine : value) : value :=
  VMap {[ "name" := VString name; "replication-factor" := VInt rf;
          "storage-engine" := engine ]}.

Definition scNamespace (name : string) (rf : Z) (engine : value) : value :=
  VMap {[ "name" := VString name; "replication-factor" := VInt rf;
          "strong-consistency" := VBool true; "storage-engine" := engine ]}.

Definition fullNetwork : value :=
  VMap {[ "service" := VMap {[ "port" := VInt 3000 ]};
          "heartbeat" := VMap {[ "port" := VInt 3002 ]};
          "fabric" := VMap {[ "port" := VInt 3001 ]} ]}.

Definition serviceOnlyNetwork : value :=
  VMap {[ "service" := VMap {[ "port" := VInt 3000 ]} ]}.

Definition configOf (network : value) (namespaces : list value) : AerospikeConfigSpec :=
  {| Value := Some {[ "service" := VMap {[ "cluster-name" := VString "aerocluster" ]};
                      "network" := network;
                      "namespaces" := VList namespaces;
                      "logging" := VList [] ]} |}.

Definition securedConfigOf (network : value) (namespaces : list value)
  : AerospikeConfigSpec :=
  {| Value := Some (<[ "security" := VMap ∅ ]> (conf (configOf network namespaces))) |}.

Definition noStorage : AerospikeStorageSpec := {| Volumes := []; CleanupThreads := 1 |}.

Definition blockVolume (name path : string) : VolumeSpec :=
  {| vol_name := name; vol_mode := Block; vol_source := PersistentVolume;
     vol_path := path; vol_initMethod := "dd"; vol_wipeMethod := "dd";
     vol_cascadeDelete := true |}.

Definition oneDiskStorage : AerospikeStorageSpec :=
  {| Volumes := [blockVolume "ns" "/dev/sda"]; CleanupThreads := 1 |}.

Definition rackOf (id : Z) (storage : AerospikeStorageSpec) (config : AerospikeConfigSpec)
  : Rack :=
  {| ID := id; NodeName := ""; RackLabel := ""; Region := ""; Zone := "";
     AerospikeConfig := config; Storage := storage; InputAerospikeConfig := None |}.

Definition rackConfigOf (namespaces : list string) (racks : list Rack)
    (rolling scaleDown : option IntOrString) : RackConfig :=
  {| Namespaces := namespaces; Racks := racks;
     RollingUpdateBatchSize := rolling; ScaleDownBatchSize := scaleDown;
     MaxIgnorablePods := None |}.

Definition podNetwork : AerospikeNetworkPolicy :=
  {| AccessType := NetworkTypePod; AlternateAccessType := NetworkTypePod;
     TLSAccessType := NetworkTypePod; TLSAlternateAccessType := NetworkTypePod;
     FabricType := NetworkTypePod; TLSFabricType := NetworkTypePod;
     CustomAccessNetworkNames := None; CustomAlternateAccessNetworkNames := None;
     CustomTLSAccessNetworkNames := None; CustomTLSAlternateAccessNetworkNames := None;
     CustomFabricNetworkNames := None; CustomTLSFabricNetworkNames := None |}.

(** Several pods per host, the DNS policy of the cluster, no sidecar. *)
Definition plainPodSpec : AerospikePodSpec :=
  {| PodAerospikeContainerSpec := {| Resources := None |};
     PodAerospikeInitContainerSpec := None;
     PodAerospikeObjectMeta := {| Labels := ∅; Annotations := ∅ |};
     Sidecars := []; InitContainers := [];
     HostNetwork := false; MultiPodPerHost := Some true;
     DNSPolicy := "ClusterFirst"; DNSConfig := None |}.

(** The status of a cluster of which the operator has recorded the
    configuration and the racks. *)
Definition statusOf (config : option AerospikeConfigSpec) (rackConfig : RackConfig)
  : AerospikeClusterStatus :=
  {| StatusSize := 0; StatusImage := ""; StatusOperations := [];
     StatusAerospikeConfig := config; StatusRackConfig := rackConfig; Pods := ∅ |}.

Definition noStatus : AerospikeClusterStatus :=
  statusOf None (rackConfigOf [] [] None None).

(** A descriptor with the given configuration as its cluster-wide one. The
    validation policy leaves the work directory to the defaults of the
    server. *)
Definition clusterOf (size : Z) (maxUnavailable : option IntOrString)
    (disablePDB : option bool) (config : AerospikeConfigSpec) (rackConfig : RackConfig)
    (status : AerospikeClusterStatus) : AerospikeCluster :=
  {| Name := "aerocluster"; Namespace := "aerospike";
     Spec := {| Size := size;
                Image := "aerospike/aerospike-server-enterprise:8.0.0.2";
                MaxUnavailable := maxUnavailable; DisablePDB := disablePDB;
                EnableDynamicConfigUpdate := None;
                ValidationPolicy := Some {| SkipWorkDirValidate := true |};
                Operations := [];
                SpecStorage := noStorage; SpecAerospikeConfig := config;
                SpecRackConfig := rackConfig;
                PodSpec := plainPodSpec;
                SpecNetworkPolicy := podNetwork;
                OperatorClientCertSpec := None |};
     Status := status |}.

(** Two racks that both hold the strong-consistency namespace [test]. *)
Definition scRack (id : Z) : Rack :=
  rackOf id oneDiskStorage (configOf fullNetwork [scNamespace "test" 2 (deviceEngine ["/dev/sda"])]).

Definition scCluster : AerospikeCluster :=
  clusterOf 4 (Some (IntVal 1)) None
    (configOf fullNetwork [scNamespace "test" 2 (deviceEngine ["/dev/sda"])])
    (rackConfigOf ["test"] [scRack 1; scRack 2] None None) noStatus.

(** Size 5 with namespaces of replication factors 3 and 2. *)
Definition rf32Config : AerospikeConfigSpec :=
  configOf fullNetwork [namespaceOf "test" 3 memoryEngine; namespaceOf "bar" 2 memoryEngine].

Definition rf32Cluster (maxUnavailable : IntOrString) : AerospikeCluster :=
  clusterOf 5 (Some maxUnavailable) None rf32Config
    (rackConfigOf [] [rackOf 1 noStorage rf32Config] None None) noStatus.

(** The budget disabled, with a [maxUnavailable] that is not even a
    percentage. *)
Definition noPDBCluster : AerospikeCluster :=
  clusterOf 5 (Some (StrVal "plenty")) (Some true) rf32Config
    (rackConfigOf [] [rackOf 1 noStorage rf32Config] None None) noStatus.

(** Two racks with the namespace [test], of replication factor [rf1] in
    the first rack and [rf2] in the second, and a rolling-update batch
    size of 1. *)
Definition batchRack (id rf : Z) : Rack :=
  rackOf id noStorage (configOf fullNetwork [namespaceOf "test" rf memoryEngine]).

Definition batchCluster (rf1 rf2 : Z) : AerospikeCluster :=
  clusterOf 4 (Some (IntVal 1)) None
    (configOf fullNetwork [namespaceOf "test" rf2 memoryEngine])
    (rackConfigOf ["test"] [batchRack 1 rf1; batchRack 2 rf2] (Some (IntVal 1)) None)
    noStatus.

(** A namespace on a device that the storage does not declare. *)
Definition strayDeviceNamespace : value :=
  namespaceOf "test" 2 (deviceEngine ["/dev/sdb"]).

Definition strayDeviceConfig : AerospikeConfigSpec :=
  configOf fullNetwork [strayDeviceNamespace].


(** One rack with an ordinary configuration of its own. *)
Definition plainConfig : AerospikeConfigSpec :=
  configOf fullNetwork [namespaceOf "test" 2 memoryEngine].

Definition plainRackConfig : RackConfig :=
  rackConfigOf [] [rackOf 1 noStorage plainConfig] None None.


(** A configuration whose network holds the service section only. *)
Definition serviceOnlyConfig : AerospikeConfigSpec :=
  configOf serviceOnlyNetwork [namespaceOf "test" 2 memoryEngine].

(** That configuration as the cluster-wide one of a descriptor whose rack
    has its own, ordinary configuration. *)
Definition serviceOnlyCluster : AerospikeCluster :=
  clusterOf 3 (Some (IntVal 1)) None serviceOnlyConfig plainRackConfig noStatus.

(** The service port moved from 3000 to 3001. *)
Definition movedPortNetwork : value :=
  VMap {[ "service" := VMap {[ "port" := VInt 3001 ]};
          "heartbeat" := VMap {[ "port" := VInt 3002 ]};
          "fabric" := VMap {[ "port" := VInt 3001 ]} ]}.

Definition movedPortConfig : AerospikeConfigSpec :=
  configOf movedPortNetwork [namespaceOf "test" 3 memoryEngine; namespaceOf "bar" 2 memoryEngine].

(** The replication factor of [test] raised from 3 to 4. *)
Definition rf42Config : AerospikeConfigSpec :=
  configOf fullNetwork [namespaceOf "test" 4 memoryEngine; namespaceOf "bar" 2 memoryEngine].

(** A running status with security enabled. *)
Definition securedStatus : AerospikeConfigSpec :=
  securedConfigOf fullNetwork [namespaceOf "test" 3 memoryEngine; namespaceOf "bar" 2 memoryEngine].

Definition securedCluster : AerospikeCluster :=
  clusterOf 5 (Some (IntVal 1)) None rf32Config
    (rackConfigOf [] [rackOf 1 noStorage rf32Config] None None)
    (statusOf (Some securedStatus)
       (rackConfigOf [] [rackOf 1 noStorage securedStatus] None None)).

(** * Conditions used in the further statements *)

(** A logging entry that [validateLoggingConf] lets through: a map that is
    the [syslog] entry or sets none of the parameters of syslog. *)
Definition loggingEntryOk (entry : value) : Prop :=
  ∃ logConf, entry = VMap logConf ∧
    (logConf !! "name" = Some (VString "syslog") ∨
     (logConf !! "facility" = None ∧ logConf !! "path" = None ∧ logConf !! "tag" = None)).

(** The values of [tls-authenticate-client] that ask for no client name. *)
Definition noClientNames (config : option value) : Prop :=
  config = None ∨ config = Some (VString "any") ∨ config = Some (VString "false") ∨
  config = Some (VBool false).

(** [network.tls] holds an entry of the given name. *)
Definition tlsEntryNamed (networkConf : gmap string value) (name : string) : Prop :=
  ∃ tlsList entry, networkConf !! "tls" = Some (VList tlsList) ∧
    VMap entry ∈ tlsList ∧ entry !! "name" = Some (VString name).

(** *** Which namespace a device or file belongs to *)

(** The paths a storage engine lists under [devices] (or [files]), when
    the list is well typed. *)
Definition pathOf (d : value) : option string :=
  match d with VString s => Some s | _ => None end.

Definition pathsOf (key : string) (storageConf : gmap string value) : option (list string) :=
  match storageConf !! key with
  | None => Some []
  | Some (VList l) => mapM pathOf l
  | Some _ => None
  end.

(** The pairs of a path and of the name of the namespace that lists it,
    for one namespace and for a list of namespaces, in their order. *)
Definition claimsOf (key : string) (ns : value) : option (list (string * string)) :=
  match ns with
  | VMap nsConf =>
      match nsConf !! "name", nsConf !! "storage-engine" with
      | Some (VString name), Some (VMap storageConf) =>
          match pathsOf key storageConf with
          | Some paths => Some ((λ p, (p, name)) <$> paths)
          | None => None
          end
      | _, _ => None
      end
  | _ => None
  end.

Definition allClaims (key : string) (nsList : list value) : option (list (string * string)) :=
  claims ← mapM (claimsOf key) nsList; Some (concat claims).

(** [claimed'] is [claimed] with the pairs of [claims] added, none of
    whose paths was in [claimed] or occurs twice. *)
Definition extendedBy (claimed claimed' : gmap string string)
    (claims : list (string * string)) : Prop :=
  NoDup claims.*1 ∧
  (∀ p, p ∈ claims.*1 → claimed !! p = None) ∧
  (∀ p n, claimed' !! p = Some n ↔ claimed !! p = Some n ∨ (p, n) ∈ claims).

(** Every path that the status lists is, in [claimed], either free, or
    held by a namespace of the same name, or held by a namespace whose
    name is empty. *)
Definition reusable (claimed : gmap string string)
    (statusClaims : list (string * string)) : Prop :=
  ∀ path old current,
    (path, old) ∈ statusClaims → claimed !! path = Some current →
    current = "" ∨ current = old.

(** *** What an accepted list of namespaces satisfies *)

Definition storageEngineKinds : list string := ["memory"; "device"; "pmem"].

(** A [devices] or [files] entry of a storage engine: a list that is not
    empty, of strings that each hold at most two paths (the second being
    the shadow device or file), every path being [declared]. *)
Definition pathLinesOk (declared : string → bool) (entries : value) : Prop :=
  ∃ l, entries = VList l ∧ l ≠ [] ∧
    ∀ e, e ∈ l → ∃ s, e = VString s ∧
      (length (strings_Fields (strings_TrimSpace s)) ≤ 2)%nat ∧
      ∀ path, path ∈ strings_Fields (strings_TrimSpace s) → declared path = true.

(** *** The summary of the namespaces of the racks *)

(** What the summary holds for a name, read off the namespace entries:
    their number, and the settings of the last of them. *)
Definition summaryOf (name : string) (entries : list value) : option nsConf :=
  match last (entriesNamed name entries) with
  | Some v =>
      Some {| noOfRacksForNamespaces := Z.of_nat (length (entriesNamed name entries));
              replicationFactor := rfOf v;
              scEnabled := nsSCEnabled v |}
  | None => None
  end.

(** *** TLS configurations in use *)

(** A connection of the network section ([service], [heartbeat] or
    [fabric]) names the TLS configuration. *)
Definition usesTLS (network : gmap string value) (name : string) : Prop :=
  ∃ connectionType section,
    connectionType ∈ networkConnectionTypes ∧
    network !! connectionType = Some (VMap section) ∧
    section !! "tls-name" = Some (VString name).

(** An entry of a [network.tls] list, of the given name. *)
Definition tlsEntry (tlsList : list value) (name : string)
    (entry : gmap string value) : Prop :=
  VMap entry ∈ tlsList ∧ entry !! "name" = Some (VString name).

(** *** Resources, networks *)

(** The limits of a container cover what it requests, a resource that a
    list leaves out counting as zero. *)
Definition limitsCoverRequests (resources : option ResourceRequirements) : Prop :=
  ∀ r limits requests,
    resources = Some r → Limits r = Some limits →
    Requests r = Some requests →
    Cpu requests ≤ Cpu limits ∧
    Memory requests ≤ Memory limits.

Definition hasLimits (resources : option ResourceRequirements) : Prop :=
  ∃ r limits, resources = Some r ∧ Limits r = Some limits.

Section Networks.
Context `{collab : Collaborators}.

(** What [validateNetworkPolicy] asks of a network type and of its list
    of custom network names. *)
Definition customNetworksOk (c : AerospikeCluster) (namespace : string)
    (type : AerospikeNetworkType) (names : option (list string)) : Prop :=
  type = NetworkTypeCustomInterface →
  ∃ l, names = Some l ∧
       HostNetwork (PodSpec (Spec c)) = false ∧
       ∀ name, name ∈ l → name ∈ networkSetOf c namespace.

End Networks.

(** *** Version numbers *)

Fixpoint allDigits (s : string) : bool :=
  match s with
  | EmptyString => true
  | String a s' => isDigit a && allDigits s'
  end.

(** A run of digits that is not empty. *)
Definition digits (s : string) : Prop := s ≠ "" ∧ allDigits s = true.

(** A run of digits followed by one or more groups of a dot and a run of
    digits. *)
Definition dottedNumber (s : string) : Prop :=
  ∃ first groups, digits first ∧ groups ≠ [] ∧ Forall digits groups ∧
    s = first +:+ foldr (λ group rest, "." +:+ group +:+ rest) "" groups.

(** What the texts that a state of the scan holds are. *)
Definition scanStateOk (st : scanState) : Prop :=
  match st with
  | Outside => True
  | InDigits acc | AfterDot acc false => digits acc
  | AfterDot acc true | InGroup acc => dottedNumber acc
  end.

(** *** Paths and volumes *)

Section Paths.
Context `{collab : Collaborators}.

(** The directory of the path is that of a volume of the storage. *)
Definition mounted (storage : AerospikeStorageSpec) (path : string) : Prop :=
  is_Some (GetVolumeForAerospikePath storage (filepath_Dir path)).

(** The directory of the path is that of a volume whose source is a
    secret. *)
Definition mountedFromSecret (storage : AerospikeStorageSpec) (path : string) : Prop :=
  ∃ volume, GetVolumeForAerospikePath storage (filepath_Dir path) = Some volume ∧
            vol_source volume = Secret.

(** A work directory that [validateWorkDir] accepts. *)
Definition workDirOk (workDirPath : string) (fileStorageList : list string) : Prop :=
  filepath_IsAbs workDirPath = true ∧
  isFileStorageConfiguredForDir fileStorageList workDirPath = true.

End Paths.

(** *** What the update checks assert of a configuration *)

(** The network section holds each of the three connection sections. *)
Definition connectionSectionsPresent (config : gmap string value) : Prop :=
  ∃ network, config !! "network" = Some (VMap network) ∧
    ∀ connectionType, connectionType ∈ networkConnectionTypes →
      is_Some (network !! connectionType).

(** An entry of [network.tls] that carries a name and gives [ca-file] and
    [ca-path], when it gives them, as strings. *)
Definition tlsEntryTyped (tls : value) : Prop :=
  ∃ tlsMap name, tls = VMap tlsMap ∧ tlsMap !! "name" = Some (VString name) ∧
    (∀ v, tlsMap !! "ca-file" = Some v → ∃ f, v = VString f) ∧
    (∀ v, tlsMap !! "ca-path" = Some v → ∃ f, v = VString f).

Definition tlsEntriesTyped (config : gmap string value) : Prop :=
  ∀ network tlsList,
    config !! "network" = Some (VMap network) → network !! "tls" = Some (VList tlsList) →
    Forall tlsEntryTyped tlsList.

(** A connection section that gives [tls-name], when it gives it, as a
    string. *)
Definition connectionTyped (section : value) : Prop :=
  ∃ connectionConfig, section = VMap connectionConfig ∧
    ∀ v, connectionConfig !! "tls-name" = Some v → ∃ name, v = VString name.

(** What the update checks read of a network section, with its types. *)
Definition networkTyped (config : gmap string value) : Prop :=
  ∃ network, config !! "network" = Some (VMap network) ∧
    (∀ connectionType, connectionType ∈ networkConnectionTypes →
       ∃ section, network !! connectionType = Some section ∧ connectionTyped section) ∧
    (∀ tls, network !! "tls" = Some tls → ∃ tlsList, tls = VList tlsList ∧
       Forall tlsEntryTyped tlsList).

(** A namespace that is a map with a string name and a storage engine
    that is a map whose [devices] and [files] are lists of strings. *)
Definition namespaceTyped (ns : value) : Prop :=
  is_Some (claimsOf "devices" ns) ∧ is_Some (claimsOf "files" ns).

Definition namespacesTyped (config : gmap string value) : Prop :=
  ∃ nsList, config !! "namespaces" = Some (VList nsList) ∧ Forall namespaceTyped nsList.

(** A function that returns: with success or with an error. *)
Definition returns {A} (r : result A) : Prop := (∃ a, r = Ok a) ∨ (∃ e, r = Err e).

(** * More example descriptors *)

(** A network section whose service connection is secured by the TLS
    configuration [aerospike-a]. *)
Definition tlsEntryOf (name : string) (ca : gmap string value) : value :=
  VMap (<[ "name" := VString name ]> ca).

Definition tlsNetworkConf (tlsList : list value) : gmap string value :=
  {[ "service" := VMap {[ "port" := VInt 3000; "tls-name" := VString "aerospike-a";
                          "tls-port" := VInt 4333 ]};
     "heartbeat" := VMap {[ "port" := VInt 3002 ]};
     "fabric" := VMap {[ "port" := VInt 3001 ]};
     "tls" := VList tlsList ]}.

Definition caFileEntry : gmap string value :=
  {[ "ca-file" := VString "/etc/aerospike/secret/cacert.pem" ]}.

(** The one namespace of the racks of [scCluster]. *)
Definition scNamespaceConf : gmap string value :=
  {[ "name" := VString "test"; "replication-factor" := VInt 2;
     "strong-consistency" := VBool true;
     "storage-engine" := deviceEngine ["/dev/sda"] ]}.

(** [scCluster] with its second rack in the zone [zone]. *)
Definition zonedRack (zone : string) : Rack :=
  {| ID := 2; NodeName := ""; RackLabel := ""; Region := ""; Zone := zone;
     AerospikeConfig := AerospikeConfig (scRack 2); Storage := oneDiskStorage;
     InputAerospikeConfig := None |}.

Definition zonedCluster (zone : string) : AerospikeCluster :=
  clusterOf 4 (Some (IntVal 1)) None
    (configOf fullNetwork [scNamespace "test" 2 (deviceEngine ["/dev/sda"])])
    (rackConfigOf ["test"] [scRack 1; zonedRack zone] None None) noStatus.

(** [scCluster] scaled to [size] nodes. *)
Definition resizedCluster (size : Z) : AerospikeCluster :=
  clusterOf size (Some (IntVal 1)) None
    (configOf fullNetwork [scNamespace "test" 2 (deviceEngine ["/dev/sda"])])
    (rackConfigOf ["test"] [scRack 1; scRack 2] None None) noStatus.

(** A configuration with the TLS list [tlsList]. *)
Definition tlsConfigOf (tlsList : list value) : AerospikeConfigSpec :=
  configOf (VMap (tlsNetworkConf tlsList)) [namespaceOf "test" 2 memoryEngine].

(** A service section that asks every client for a certificate, and a
    client certificate of the operator read from a secret. *)
Definition authenticatedConfig (tlsAuthenticateClient : value) : AerospikeConfigSpec :=
  configOf (VMap {[ "service" := VMap {[ "port" := VInt 3000;
                                         "tls-authenticate-client" := tlsAuthenticateClient ]};
                    "heartbeat" := VMap {[ "port" := VInt 3002 ]};
                    "fabric" := VMap {[ "port" := VInt 3001 ]} ]})
           [namespaceOf "test" 2 memoryEngine].

Definition secretClientCert (tlsClientName : string)
  : ClientCert.AerospikeOperatorClientCertSpec :=
  {| ClientCert.TLSClientName := tlsClientName;
     ClientCert.SecretCertSource :=
       Some {| ClientCert.CaCertsSource := None;
               ClientCert.CaCertsFilename := "cacert.pem";
               ClientCert.ClientCertFilename := "svc_cluster_chain.pem";
               ClientCert.ClientKeyFilename := "svc_key.pem" |};
     ClientCert.CertPathInOperator := None |}.

(** A storage with a persistent filesystem volume for the work
    directory. *)
Definition workDirStorage : AerospikeStorageSpec :=
  {| Volumes := [{| vol_name := "workdir"; vol_mode := Filesystem;
                    vol_source := PersistentVolume; vol_path := "/opt/aerospike";
                    vol_initMethod := "deleteFiles"; vol_wipeMethod := "deleteFiles";
                    vol_cascadeDelete := true |}];
     CleanupThreads := 1 |}.

(** A network with its three connection sections and a [network.tls]
    entry that has no name. *)
Definition namelessTLSConfig (caFile : string) : AerospikeConfigSpec :=
  configOf (VMap {[ "service" := VMap {[ "port" := VInt 3000 ]};
                    "heartbeat" := VMap {[ "port" := VInt 3002 ]};
                    "fabric" := VMap {[ "port" := VInt 3001 ]};
                    "tls" := VList [VMap {[ "ca-file" := VString caFile ]}] ]})
           [namespaceOf "test" 2 memoryEngine].

(** A TLS configuration in use whose [ca-file], or [ca-path], is a
    number. *)
Definition numberedCAConfig (key : string) (ca : Z) : AerospikeConfigSpec :=
  tlsConfigOf [tlsEntryOf "aerospike-a" {[ key := VInt ca ]}].

(** A status whose configuration holds no list of namespaces. *)
Definition bareStatus : AerospikeConfigSpec :=
  {| Value := Some {[ "service" := VMap {[ "cluster-name" := VString "aerocluster" ]} ]} |}.

(** * Theorems *)

(** ** The result monad and its loops *)

Lemma bind_Ok {A B} (m : result A) (f : A → result B) b :
  m ≫= f = Ok b ↔ ∃ a, m = Ok a ∧ f a = Ok b.
Proof.
  destruct m; simpl; split; try naive_solver.
Qed.

Lemma bind_Panic {A B} (m : result A) (f : A → result B) :
  m ≫= f = Panic ↔ m = Panic ∨ ∃ a, m = Ok a ∧ f a = Panic.
Proof. destruct m; simpl; naive_solver. Qed.

Lemma result_cases {A} (r : result A) :
  (∃ a, r = Ok a) ∨ (∃ e, r = Err e) ∨ r = Panic.
Proof. destruct r; eauto. Qed.

Lemma forEach_Ok {A} (body : A → result unit) l :
  forEach body l = Ok tt ↔ Forall (λ x, body x = Ok tt) l.
Proof.
  induction l as [|x l IH]; simpl.
  - split; [constructor|done].
  - rewrite bind_Ok, Forall_cons. split.
    + intros [[] [? ?]]. split; [done|]. by apply IH.
    + intros [? ?]. exists tt. split; [done|]. by apply IH.
Qed.

Lemma forEach_app {A} (body : A → result unit) l1 l2 :
  forEach body (l1 ++ l2) = forEach body l1 ≫= λ _, forEach body l2.
Proof.
  induction l1 as [|x l1 IH]; simpl; [done|].
  destruct (body x) as [[]| |]; simpl; auto.
Qed.

Lemma forEach_Panic {A} (body : A → result unit) l :
  forEach body l = Panic → ∃ x, x ∈ l ∧ body x = Panic.
Proof.
  induction l as [|x l IH]; simpl; [done|].
  intros [H|[[] [_ H]]]%bind_Panic.
  - exists x. split; [left|done].
  - destruct (IH H) as (y & ? & ?). exists y. split; [by right|done].
Qed.

(** ** Strong-consistency namespaces agree across racks *)

Lemma scNamespaceStep_Ok tmp ns s :
  scNamespaceStep tmp ns = Ok s →
  s = list_to_set (option_list (scEnabledName ns)) ∪ tmp.
Proof.
  unfold scNamespaceStep, IsNSSCEnabled, scEnabledName, index.
  destruct ns as [| | | | |m]; simpl; try done.
  destruct (m !! "strong-consistency") as [[|[]| | | |]|]; simpl; try done;
    try (intros [= <-]; set_solver).
  destruct (m !! "name") as [[| | |n| |]|]; simpl; try done.
  destruct (isInMemoryNamespace m) as [[]| |]; simpl; try done.
  intros [= <-]. set_solver.
Qed.

Lemma foldEach_scNamespaceStep tmp nsList s :
  foldEach scNamespaceStep tmp nsList = Ok s →
  s = list_to_set (omap scEnabledName nsList) ∪ tmp.
Proof.
  revert tmp. induction nsList as [|ns nsList IH]; intros tmp; simpl.
  - intros [= <-]. set_solver.
  - intros (tmp' & Hstep & Hrest)%bind_Ok.
    apply scNamespaceStep_Ok in Hstep as ->. apply IH in Hrest as ->.
    destruct (scEnabledName ns); simpl; set_solver.
Qed.

Lemma rackSCNamespaceSet_Ok rack s :
  rackSCNamespaceSet rack = Ok s → s = scEnabledNames rack.
Proof.
  unfold rackSCNamespaceSet, scEnabledNames, index.
  destruct (conf (AerospikeConfig rack) !! "namespaces") as [[| | | |l|]|];
    simpl; try done.
  intros ->%foldEach_scNamespaceStep. set_solver.
Qed.

Lemma validateSCNamespaces_from_Ok idx sc racks :
  validateSCNamespaces_from idx sc racks = Ok tt →
  (idx ≠ 0%nat → ∀ r, r ∈ racks → scEnabledNames r = sc) ∧
  (∀ r r', r ∈ racks → r' ∈ racks → scEnabledNames r = scEnabledNames r').
Proof.
  revert idx sc. induction racks as [|rack rest IH]; intros idx sc; simpl.
  - intros _. split; intros; exfalso; eapply not_elem_of_nil; eauto.
  - intros (tmp & Htmp%rackSCNamespaceSet_Ok & H)%bind_Ok. subst tmp.
    destruct (decide (idx = 0%nat)) as [->|Hidx].
    + apply IH in H as [H1 H2]. split; [done|].
      intros r r' [->|Hr]%elem_of_cons [->|Hr']%elem_of_cons;
        first [done | by apply H1 | symmetry; by apply H1 | by apply H2].
    + destruct (decide (sc = scEnabledNames rack)) as [->|]; [|done].
      apply IH in H as [H1 H2]. split.
      * intros _ r [->|Hr]%elem_of_cons; auto.
      * intros r r' [->|Hr]%elem_of_cons [->|Hr']%elem_of_cons;
          first [done | by apply H1 | symmetry; by apply H1 | by apply H2].
Qed.

Lemma validateSCNamespaces_from_Panic idx sc racks :
  validateSCNamespaces_from idx sc racks = Panic →
  ∃ r, r ∈ racks ∧ rackSCNamespaceSet r = Panic.
Proof.
  revert idx sc. induction racks as [|rack rest IH]; intros idx sc; simpl; [done|].
  intros [H|(tmp & _ & H)]%bind_Panic.
  - exists rack. split; [left|done].
  - assert (∃ r, r ∈ rest ∧ rackSCNamespaceSet r = Panic) as (r & ? & ?).
    { repeat case_decide; try done; by eapply IH. }
    exists r. split; [by right|done].
Qed.

(** C1. When [validateSCNamespaces] accepts a descriptor, any two of its
    racks have the same set of strong-consistency-enabled namespace names;
    conversely two racks whose sets differ are never accepted, and the
    outcome is a returned error as soon as no rack holds an ill-typed
    namespace list. *)
Theorem validateSCNamespaces_same_sets (c : AerospikeCluster) (r r' : Rack) :
  r ∈ Racks (SpecRackConfig (Spec c)) →
  r' ∈ Racks (SpecRackConfig (Spec c)) →
  (validateSCNamespaces c = Ok tt → scEnabledNames r = scEnabledNames r') ∧
  (scEnabledNames r ≠ scEnabledNames r' →
     validateSCNamespaces c ≠ Ok tt ∧
     ((∀ k, k ∈ Racks (SpecRackConfig (Spec c)) → rackSCNamespaceSet k ≠ Panic) →
      rejected (validateSCNamespaces c))).
Proof.
  intros Hr Hr'.
  assert (validateSCNamespaces c = Ok tt → scEnabledNames r = scEnabledNames r') as Hok.
  { intros H. apply validateSCNamespaces_from_Ok in H as [_ H]. by apply H. }
  split; [done|]. intros Hne. split; [naive_solver|].
  intros Hnp. destruct (result_cases (validateSCNamespaces c)) as [[[] H]|[[e H]|H]].
  - naive_solver.
  - by exists e.
  - apply validateSCNamespaces_from_Panic in H as (k & ? & ?). naive_solver.
Qed.

(** ** The bound of [validateMaxUnavailable] *)

Lemma foldr_min_comm (l : list Z) (a s : Z) :
  foldr Z.min (Z.min a s) l = Z.min a (foldr Z.min s l).
Proof. induction l as [|x l IH]; simpl; [done|]. rewrite IH. lia. Qed.

Lemma minimumOver_cons_1 s l : minimumOver s (1 :: l) = minimumOver s l.
Proof. unfold minimumOver. by rewrite filter_cons_False by naive_solver. Qed.

Lemma minimumOver_cons_ne s rf l :
  rf ≠ 1 → minimumOver s (rf :: l) = minimumOver (Z.min rf s) l.
Proof.
  intros. unfold minimumOver. rewrite filter_cons_True by done. simpl.
  by rewrite foldr_min_comm.
Qed.

Lemma minimumOver_app s l1 l2 :
  minimumOver s (l1 ++ l2) = minimumOver (minimumOver s l1) l2.
Proof.
  revert s. induction l1 as [|rf l1 IH]; intros s; simpl; [done|].
  destruct (decide (rf = 1)) as [->|].
  - by rewrite !minimumOver_cons_1.
  - by rewrite !minimumOver_cons_ne.
Qed.

Lemma minimumOver_ge2 s l :
  2 ≤ s → Forall (λ rf, 1 ≤ rf) l → 2 ≤ minimumOver s l.
Proof.
  intros Hs Hl. revert s Hs. induction Hl as [|rf l Hrf _ IH]; intros s Hs; [done|].
  destruct (decide (rf = 1)) as [->|].
  - rewrite minimumOver_cons_1. by apply IH.
  - rewrite minimumOver_cons_ne by done. apply IH. lia.
Qed.

Lemma maxUnavailableStep_spec safe ns rf :
  namespaceRF ns = Some rf → 1 ≤ rf → 2 ≤ safe →
  maxUnavailableStep safe ns = Ok (minimumOver safe [rf]).
Proof.
  unfold namespaceRF, maxUnavailableStep. intros Hns Hrf Hsafe.
  destruct ns as [| | | | |m]; try done. simpl.
  destruct (m !! "replication-factor") as [[| |z| | |]|]; simplify_eq/=.
  - destruct (decide (rf = 1)) as [->|].
    + by rewrite minimumOver_cons_1.
    + rewrite minimumOver_cons_ne by done. unfold minimumOver. simpl.
      case_decide; f_equal; lia.
  - rewrite minimumOver_cons_ne by done. unfold minimumOver. simpl. f_equal. lia.
Qed.

Lemma foldEach_maxUnavailableStep safe nsList rfs :
  mapM namespaceRF nsList = Some rfs → Forall (λ rf, 1 ≤ rf) rfs → 2 ≤ safe →
  foldEach maxUnavailableStep safe nsList = Ok (minimumOver safe rfs).
Proof.
  revert safe rfs. induction nsList as [|ns nsList IH]; intros safe rfs; simpl.
  - by intros [= <-] _ _.
  - intros Hm Hall Hsafe. simplify_option_eq.
    apply Forall_cons in Hall as [Hrf Hall].
    erewrite maxUnavailableStep_spec by done. simpl.
    erewrite IH; [|done..|by apply minimumOver_ge2; [|constructor]].
    by rewrite <- minimumOver_app.
Qed.

Lemma maxUnavailableRack_spec safe rack rfs :
  rackRFs rack = Some rfs → Forall (λ rf, 1 ≤ rf) rfs → 2 ≤ safe →
  maxUnavailableRack safe rack = Ok (minimumOver safe rfs).
Proof.
  unfold rackRFs, maxUnavailableRack, index. intros Hrack Hall Hsafe.
  destruct (conf (AerospikeConfig rack) !! "namespaces") as [[| | | |l|]|]; try done.
  simpl. by apply foldEach_maxUnavailableStep.
Qed.

Lemma foldEach_maxUnavailableRack safe racks rfss :
  mapM rackRFs racks = Some rfss → Forall (λ rf, 1 ≤ rf) (concat rfss) → 2 ≤ safe →
  foldEach maxUnavailableRack safe racks = Ok (minimumOver safe (concat rfss)).
Proof.
  revert safe rfss. induction racks as [|rack racks IH]; intros safe rfss; simpl.
  - by intros [= <-] _ _.
  - intros Hm Hall Hsafe. simplify_option_eq.
    apply Forall_app in Hall as [Hrfs Hall].
    erewrite maxUnavailableRack_spec by done. simpl.
    erewrite IH; [|done..|by apply minimumOver_ge2].
    by rewrite <- minimumOver_app.
Qed.

(** X30. With the disruption budget enabled and [maxUnavailable] given as
    a count, on a descriptor whose size is at least 1 and whose
    replication factors are numbers not below 1: a size of 1 skips the
    check; otherwise the count is rejected exactly when it reaches the
    minimum of the size and of the replication factors (absent ones
    counting as 2, factors of 1 left out), and the error carries that
    bound. *)
Theorem validateMaxUnavailable_bound (c : AerospikeCluster) (n : Z) (rfs : list Z) :
  GetBool (DisablePDB (Spec c)) = false →
  MaxUnavailable (Spec c) = Some (IntVal n) →
  0 ≤ n →
  1 ≤ Size (Spec c) →
  clusterRFs c = Some rfs →
  Forall (λ rf, 1 ≤ rf) rfs →
  validateMaxUnavailable c =
    ([], if decide (Size (Spec c) = 1) then Ok tt
         else if decide (n >= minimumOver (Size (Spec c)) rfs) then
           Err (Errorf ("maxUnavailable %s cannot be greater than or equal to %v as it may " ++
                        "result in data loss. Set it to a lower value")
                  [AIntOrString (Some (IntVal n)); AInt (minimumOver (Size (Spec c)) rfs)])
         else Ok tt).
Proof.
  intros Hpdb Hmu Hn Hsize Hrfs Hall. unfold validateMaxUnavailable.
  rewrite Hpdb, Hmu. f_equal. unfold validateIntOrStringField. simpl.
  destruct (decide (n < 0)); [lia|]. simpl.
  case_decide; [done|].
  unfold clusterRFs in Hrfs.
  destruct (mapM rackRFs _) as [rfss|] eqn:Hm; simplify_eq/=.
  by rewrite (foldEach_maxUnavailableRack _ _ rfss Hm Hall) by lia.
Qed.

Section UpdateSafety.
Context `{collab : Collaborators}.

(** ** The disruption budget switched off *)

Lemma validate_after_prelim c :
  preliminaryChecksPass c →
  validate c =
    match validateMaxUnavailable c with
    | (warns, Ok _) => (warns, validateAfterMaxUnavailable c)
    | (warns, err) => (warns, err)
    end.
Proof.
  intros (? & Hn & ? & Hns & Hent & ?). unfold validate.
  rewrite Hn, Hns, Hent. simpl. repeat case_decide; try done.
Qed.

(** C8. With [spec.disablePDB] true, [validateMaxUnavailable] looks at no
    other field: it returns no error and one warning, whatever
    [maxUnavailable] holds. The warning does not decide the request:
    [validate] goes on to the remaining checks and returns their verdict
    together with the warning. *)
Theorem validateMaxUnavailable_disabledPDB (c : AerospikeCluster) :
  DisablePDB (Spec c) = Some true →
  validateMaxUnavailable c = ([pdbDisabledWarning], Ok tt) ∧
  (preliminaryChecksPass c →
   validate c = ([pdbDisabledWarning], validateAfterMaxUnavailable c) ∧
   ValidateCreate c = ([pdbDisabledWarning], validateAfterMaxUnavailable c)).
Proof.
  intros Hpdb.
  assert (validateMaxUnavailable c = ([pdbDisabledWarning], Ok tt)) as Hmu.
  { unfold validateMaxUnavailable. by rewrite Hpdb. }
  split; [done|]. intros Hpre. unfold ValidateCreate.
  by rewrite validate_after_prelim, Hmu.
Qed.

(** ** Security is never switched off under a running cluster *)

Lemma validateSecurityConfigUpdate_downgrade incoming outgoing status :
  IsSecurityEnabled status = Ok true →
  IsSecurityEnabled incoming = Ok false →
  validateSecurityConfigUpdate incoming outgoing (Some status) =
    Err (Errorf "cannot disable cluster security in running cluster" []).
Proof.
  intros Hs Hi. unfold validateSecurityConfigUpdate. by rewrite Hs, Hi.
Qed.

Lemma validateAgainstOld_config_Ok old new :
  validateAgainstOld old new = Ok tt →
  validateAerospikeConfigUpdate (SpecAerospikeConfig (Spec new))
    (SpecAerospikeConfig (Spec old)) (StatusAerospikeConfig (Status new)) = Ok tt.
Proof.
  unfold validateAgainstOld. intros H.
  do 6 (apply bind_Ok in H as ([] & _ & H)).
  by apply bind_Ok in H as ([] & ? & _).
Qed.

Lemma ValidateUpdate_Ok old new warnings :
  ValidateUpdate old new = (warnings, Ok tt) →
  validateAgainstOld old new = Ok tt.
Proof.
  unfold ValidateUpdate. destruct (validate new) as [ws [[]| |]]; naive_solver.
Qed.

(** C4. When the last-observed status configuration has security enabled
    and the incoming configuration has it disabled,
    [validateAerospikeConfigUpdate] returns the error "cannot disable
    cluster security in running cluster"; hence no update it admits, and no
    update [ValidateUpdate] admits, goes from a security-enabled status to
    a security-disabled specification. *)
Theorem security_never_disabled (incoming outgoing status : AerospikeConfigSpec) :
  IsSecurityEnabled status = Ok true →
  IsSecurityEnabled incoming = Ok false →
  validateAerospikeConfigUpdate incoming outgoing (Some status) =
    Err (Errorf "cannot disable cluster security in running cluster" []) ∧
  (∀ old new warnings,
     SpecAerospikeConfig (Spec new) = incoming →
     StatusAerospikeConfig (Status new) = Some status →
     ValidateUpdate old new ≠ (warnings, Ok tt)).
Proof.
  intros Hs Hi.
  assert (∀ o, validateAerospikeConfigUpdate incoming o (Some status) =
    Err (Errorf "cannot disable cluster security in running cluster" [])) as Hrej.
  { intros o. unfold validateAerospikeConfigUpdate.
    by rewrite validateSecurityConfigUpdate_downgrade. }
  split; [done|]. intros old new ws Hin Hst Hok.
  apply ValidateUpdate_Ok, validateAgainstOld_config_Ok in Hok.
  rewrite Hin, Hst, Hrej in Hok. done.
Qed.

(** ** Network connections keep their TLS name and ports *)

Lemma forEach_rejected {A} (body : A → result unit) l x :
  (∀ y, y ∈ l → body y ≠ Panic) → x ∈ l → rejected (body x) →
  rejected (forEach body l).
Proof.
  intros Hnp Hx Hrej.
  destruct (result_cases (forEach body l)) as [[[] Hok]|[[e He]|Hp]].
  - apply forEach_Ok in Hok. rewrite Forall_forall in Hok.
    destruct Hrej as [e He]. specialize (Hok x Hx). congruence.
  - by exists e.
  - apply forEach_Panic in Hp as (y & ? & ?). naive_solver.
Qed.

Lemma validateNetworkPortUpdate_no_panic old new port :
  validateNetworkPortUpdate old new port ≠ Panic.
Proof.
  unfold validateNetworkPortUpdate.
  destruct (old !! port), (new !! port), (old !! ("tls-" ++ port)),
    (new !! ("tls-" ++ port)); simpl;
    repeat (case_match; simpl; try done); done.
Qed.

Lemma validateNetworkPortUpdate_changed old new port :
  fieldChanged old new port ∨ fieldChanged old new ("tls-" ++ port) →
  rejected (validateNetworkPortUpdate old new port).
Proof.
  unfold validateNetworkPortUpdate, DeepEqual.
  intros [(a & b & Ha & Hb & Hab)|(a & b & Ha & Hb & Hab)]; rewrite ?Ha, ?Hb.
  - rewrite (bool_decide_eq_false_2 (a = b)) by done. simpl. by eexists.
  - rewrite (bool_decide_eq_false_2 (a = b)) by done.
    destruct (old !! port) as [x|], (new !! port) as [y|]; simpl;
      try (by eexists).
    destruct (bool_decide (x = y)); simpl; by eexists.
Qed.

Lemma validateNetworkPortUpdate_removed old new port :
  fieldRemoved old new port ∨ fieldRemoved old new ("tls-" ++ port) →
  ¬ (is_Some (old !! port) ∧ is_Some (old !! ("tls-" ++ port))) →
  rejected (validateNetworkPortUpdate old new port).
Proof.
  unfold validateNetworkPortUpdate, DeepEqual, fieldRemoved.
  intros Hrem Hboth.
  destruct (old !! port) as [op|] eqn:Hop, (new !! port) as [np|] eqn:Hnp,
    (old !! ("tls-" ++ port)) as [ot|] eqn:Hot,
    (new !! ("tls-" ++ port)) as [nt|] eqn:Hnt; simpl;
    try (exfalso; apply Hboth; by eauto);
    try (exfalso; destruct Hrem as [[[? ?] ?]|[[? ?] ?]]; congruence);
    repeat case_bool_decide; simpl; try by eexists;
    try (exfalso; naive_solver).
Qed.

Lemma validateNetworkConnectionUpdate_forbidden newConf oldConf ct oldNet newNet oldCC newCC :
  oldConf !! "network" = Some (VMap oldNet) → oldNet !! ct = Some (VMap oldCC) →
  newConf !! "network" = Some (VMap newNet) → newNet !! ct = Some (VMap newCC) →
  connectionUpdateForbidden oldCC newCC →
  rejected (validateNetworkConnectionUpdate newConf oldConf ct).
Proof.
  intros Hon Hoc Hnn Hnc Hforb. unfold validateNetworkConnectionUpdate, index.
  rewrite Hon; simpl. rewrite Hoc; simpl. rewrite Hnn; simpl. rewrite Hnc; simpl.
  destruct Hforb as [(a & b & Ha & Hb & Hab)|Hports].
  { rewrite Ha, Hb. unfold DeepEqual. rewrite (bool_decide_eq_false_2 (a = b)) by done.
    simpl. by eexists. }
  assert (rejected (forEach (validateNetworkPortUpdate oldCC newCC) networkPorts)) as Hrej.
  { assert (∃ p, p ∈ networkPorts ∧ rejected (validateNetworkPortUpdate oldCC newCC p))
      as (p & Hp & Hr).
    { destruct Hports as [(key & Hkey & Hch)|(p & Hp & Hrem & Hboth)].
      - unfold portFields in Hkey. apply elem_of_app in Hkey as [Hkey|Hkey].
        + exists key. split; [done|]. apply validateNetworkPortUpdate_changed. by left.
        + apply list_elem_of_fmap in Hkey as (p & -> & Hp).
          exists p. split; [done|]. apply validateNetworkPortUpdate_changed. by right.
      - exists p. split; [done|]. by apply validateNetworkPortUpdate_removed. }
    eapply forEach_rejected; [|done..].
    intros. apply validateNetworkPortUpdate_no_panic. }
  destruct (oldCC !! "tls-name"), (newCC !! "tls-name"); simpl; try done.
  case_match; simpl; [by eexists|done].
Qed.

(** C6. For each of the connection types service, heartbeat and fabric: a
    tls-name set on both sides to different values, a port field (port,
    access-port, alternate-access-port or their tls- variants) set on both
    sides to different values, or a port or tls-port that is removed while
    the previous configuration did not hold both the port and its tls
    counterpart, makes [validateNetworkConnectionUpdate] return an error,
    and the update is not admitted by [validateAerospikeConfigUpdate]. *)
Theorem network_connection_update_rejected
    (incoming outgoing : AerospikeConfigSpec) (status : option AerospikeConfigSpec)
    (connectionType : string) (oldNet newNet oldCC newCC : gmap string value) :
  connectionType ∈ networkConnectionTypes →
  conf outgoing !! "network" = Some (VMap oldNet) →
  oldNet !! connectionType = Some (VMap oldCC) →
  conf incoming !! "network" = Some (VMap newNet) →
  newNet !! connectionType = Some (VMap newCC) →
  connectionUpdateForbidden oldCC newCC →
  rejected (validateNetworkConnectionUpdate (conf incoming) (conf outgoing) connectionType) ∧
  validateAerospikeConfigUpdate incoming outgoing status ≠ Ok tt.
Proof.
  intros Hct Hon Hoc Hnn Hnc Hforb.
  pose proof (validateNetworkConnectionUpdate_forbidden _ _ _ _ _ _ _
                Hon Hoc Hnn Hnc Hforb) as Hrej.
  split; [done|]. unfold validateAerospikeConfigUpdate. intros Hok.
  do 2 (apply bind_Ok in Hok as ([] & _ & Hok)).
  apply bind_Ok in Hok as ([] & Hok & _).
  apply forEach_Ok in Hok. rewrite Forall_forall in Hok.
  destruct Hrej as [e He]. specialize (Hok _ Hct). congruence.
Qed.

(** A connection type without a section in the incoming network fails the
    type assertion, whatever the previous configuration holds. *)
Lemma validateNetworkConnectionUpdate_absent newConf oldConf newNet connectionType :
  newConf !! "network" = Some (VMap newNet) → newNet !! connectionType = None →
  validateNetworkConnectionUpdate newConf oldConf connectionType = Panic.
Proof.
  intros Hn Hc. unfold validateNetworkConnectionUpdate.
  destruct (index oldConf "network") as [| | | | |oldNet]; simpl; try done.
  destruct (index oldNet connectionType); simpl; try done.
  unfold index. rewrite Hn. simpl. by rewrite Hc.
Qed.

(** ** Replication factor and strong consistency of a namespace are kept *)

Lemma checkNsPair_updated nI n o name key :
  n !! "name" = Some (VString name) → o !! "name" = Some (VString name) →
  key ∈ ["replication-factor"; "strong-consistency"] →
  n !! key ≠ o !! key →
  rejected (checkNsPair nI n (VMap o)).
Proof.
  intros Hn Ho Hkey Hne. unfold checkNsPair, index. rewrite Hn, Ho. simpl.
  rewrite bool_decide_eq_true_2 by done.
  assert (isValueUpdated o n key = true) as Hup.
  { unfold isValueUpdated, DeepEqual. by rewrite bool_decide_eq_false_2. }
  apply elem_of_cons in Hkey as [->|Hkey].
  - rewrite Hup. by eexists.
  - apply list_elem_of_singleton in Hkey as ->. rewrite Hup.
    destruct (isValueUpdated o n "replication-factor"); by eexists.
Qed.

Lemma validateNsConfUpdate_Ok newSpec oldSpec status newNs oldNs :
  conf newSpec !! "namespaces" = Some (VList newNs) →
  conf oldSpec !! "namespaces" = Some (VList oldNs) →
  validateNsConfUpdate newSpec oldSpec status = Ok tt →
  forEach (checkNsUpdate oldNs) newNs = Ok tt.
Proof.
  intros Hnew Hold. unfold validateNsConfUpdate, index. rewrite Hnew, Hold.
  intros (l & _ & H)%bind_Ok. simpl in H.
  by apply bind_Ok in H as ([] & ? & _).
Qed.

Lemma validateNsConfUpdate_Panic newSpec oldSpec status newNs oldNs :
  conf newSpec !! "namespaces" = Some (VList newNs) →
  conf oldSpec !! "namespaces" = Some (VList oldNs) →
  statusNamespacesTyped status →
  comparableNames newNs → comparableNames oldNs →
  validateNsConfUpdate newSpec oldSpec status = Panic →
  forEach (checkNsUpdate oldNs) newNs = Ok tt.
Proof.
  intros Hnew Hold Hst Hcn Hco. unfold validateNsConfUpdate, index.
  rewrite Hnew, Hold.
  intros [Hp|(l & _ & Hp)]%bind_Panic.
  { destruct status as [s|]; [|done]. simpl in Hst.
    case_decide; [|done]. destruct Hst as [l Hl]; [done|]. by rewrite Hl in Hp. }
  simpl in Hp. apply bind_Panic in Hp as [Hp|([] & ? & _)]; [|done].
  apply forEach_Panic in Hp as (x & Hx & Hp).
  destruct x as [| | | | |n]; try done. simpl in Hp.
  apply forEach_Panic in Hp as (y & Hy & Hp).
  destruct y as [| | | | |o]; try done. simpl in Hp.
  unfold comparableNames in Hcn, Hco. rewrite forallb_forall in Hcn, Hco.
  apply list_elem_of_In, Hcn in Hx. apply list_elem_of_In, Hco in Hy.
  simpl in Hx, Hy.
  destruct (index n "name"), (index o "name"); simpl in Hp; try done;
    repeat (case_match; simplify_eq/=); done.
Qed.

(** C9. When a namespace of the incoming configuration and a namespace of
    the previous one carry the same name and differ in their
    replication-factor or strong-consistency entry, [validateNsConfUpdate]
    does not admit the update, nor does [validateAerospikeConfigUpdate];
    on namespace lists whose names are comparable and with a well-typed
    status the outcome is a returned error. So every admitted update keeps
    both entries of every namespace it keeps. *)
Theorem namespace_rf_sc_immutable
    (newSpec oldSpec : AerospikeConfigSpec) (status : option AerospikeConfigSpec)
    (newNs oldNs : list value) (n o : gmap string value) (name key : string) :
  conf newSpec !! "namespaces" = Some (VList newNs) →
  conf oldSpec !! "namespaces" = Some (VList oldNs) →
  VMap n ∈ newNs → VMap o ∈ oldNs →
  n !! "name" = Some (VString name) → o !! "name" = Some (VString name) →
  key ∈ ["replication-factor"; "strong-consistency"] →
  n !! key ≠ o !! key →
  validateNsConfUpdate newSpec oldSpec status ≠ Ok tt ∧
  validateAerospikeConfigUpdate newSpec oldSpec status ≠ Ok tt ∧
  (statusNamespacesTyped status → comparableNames newNs → comparableNames oldNs →
   rejected (validateNsConfUpdate newSpec oldSpec status)).
Proof.
  intros Hnew Hold Hn Ho Hnn Hon Hkey Hne.
  assert (forEach (checkNsUpdate oldNs) newNs ≠ Ok tt) as Hloop.
  { intros Hok. apply forEach_Ok in Hok. rewrite Forall_forall in Hok.
    specialize (Hok _ Hn). simpl in Hok.
    apply forEach_Ok in Hok. rewrite Forall_forall in Hok.
    specialize (Hok _ Ho).
    destruct (checkNsPair_updated (VMap n) n o name key) as [e He]; try done.
    congruence. }
  assert (validateNsConfUpdate newSpec oldSpec status ≠ Ok tt) as Hns.
  { intros Hok. by eapply Hloop, validateNsConfUpdate_Ok. }
  split; [done|]. split.
  - unfold validateAerospikeConfigUpdate. intros Hok.
    do 3 (apply bind_Ok in Hok as ([] & _ & Hok)). done.
  - intros Hst Hcn Hco.
    destruct (result_cases (validateNsConfUpdate newSpec oldSpec status))
      as [[[] Hok]|[[e He]|Hp]]; [done|by exists e|].
    exfalso. by eapply Hloop, validateNsConfUpdate_Panic.
Qed.

(** ** A namespace device has to be a declared block device *)

Lemma forEach_first_Err {A} (body : A → result unit) pre x post e :
  forEach body pre = Ok tt → body x = Err e →
  forEach body (pre ++ x :: post) = Err e.
Proof. intros Hpre Hx. rewrite forEach_app, Hpre. simpl. by rewrite Hx. Qed.

Lemma forEach_Ok_elem {A} (body : A → result unit) l x :
  forEach body l = Ok tt → x ∈ l → body x = Ok tt.
Proof. rewrite forEach_Ok, Forall_forall. auto. Qed.

Lemma deviceNamespace_kind nsConf st devices :
  deviceNamespace nsConf st devices →
  isInMemoryNamespace nsConf = Ok false ∧ isDeviceOrPmemNamespace nsConf = Ok true.
Proof.
  intros (Hst & Hty & _). unfold isInMemoryNamespace, isDeviceOrPmemNamespace.
  rewrite Hst. simpl. by destruct Hty as [-> | ->].
Qed.

Lemma checkNamespace_Ok_devices storage block files clSize nsConf st devices :
  deviceNamespace nsConf st devices →
  checkNamespace storage block files clSize (VMap nsConf) = Ok tt →
  devices ≠ [] ∧ forEach (checkDevice storage block) devices = Ok tt.
Proof.
  intros Hdev. destruct (deviceNamespace_kind _ _ _ Hdev) as [Hmem Hpm].
  destruct Hdev as (Hst & _ & Hds). unfold checkNamespace.
  intros ([] & _ & H)%bind_Ok. apply bind_Ok in H as ([] & _ & H).
  rewrite Hst in H. rewrite decide_False in H by done.
  rewrite Hmem, Hpm in H. simpl in H. rewrite Hds in H.
  apply bind_Ok in H as ([] & H & _). simpl in H.
  case_decide; [done|]. split; [|done]. by destruct devices.
Qed.

Lemma checkDevice_Ok_tokens storage block entry dev :
  checkDevice storage block (VString entry) = Ok tt →
  dev ∈ strings_Fields (strings_TrimSpace entry) → dev ∈ block.
Proof.
  unfold checkDevice. case_decide; [done|]. intros Hok Hdev.
  eapply forEach_Ok_elem in Hok; [|done]. simpl in Hok.
  unfold ContainsString in Hok. by case_bool_decide.
Qed.

Lemma checkDevice_first_missing storage block entry (tpre : list string) dev tpost :
  strings_Fields (strings_TrimSpace entry) = (tpre ++ dev :: tpost)%list →
  (length (tpre ++ dev :: tpost)%list ≤ 2)%nat →
  Forall (λ t, t ∈ block) tpre → dev ∉ block →
  checkDevice storage block (VString entry) = Err (devicePathNotFound dev storage).
Proof.
  intros Hf Hlen Hpre Hdev. unfold checkDevice. rewrite Hf.
  rewrite decide_False by lia. apply forEach_first_Err.
  - apply forEach_Ok. eapply Forall_impl; [done|]. simpl. intros t Ht.
    unfold ContainsString. by rewrite bool_decide_eq_true_2.
  - unfold ContainsString. by rewrite bool_decide_eq_false_2.
Qed.

Lemma validate_Ok_rack c warnings rack :
  validate c = (warnings, Ok tt) → rack ∈ Racks (SpecRackConfig (Spec c)) →
  validateAerospikeConfig c (AerospikeConfig rack) (Storage rack) (Size (Spec c)) = Ok tt.
Proof.
  unfold validate. intros Hok Hrack.
  repeat (case_match; try done); simplify_eq.
  match goal with H : validateAfterMaxUnavailable c = Ok tt |- _ => rename H into Hafter end.
  unfold validateAfterMaxUnavailable in Hafter.
  apply bind_Ok in Hafter as (version & _ & Hafter).
  do 3 (apply bind_Ok in Hafter as ([] & _ & Hafter)).
  apply bind_Ok in Hafter as ([] & Hracks & _).
  eapply forEach_Ok_elem in Hracks; [|done]. unfold validateRack in Hracks.
  do 2 (apply bind_Ok in Hracks as ([] & _ & Hracks)).
  by apply bind_Ok in Hracks as ([] & Hracks & _).
Qed.

(** C7, as the code has it. A descriptor one of whose device or pmem
    namespaces lists a device entry with a whitespace-separated token that
    is not among the device paths of the declared block volumes is not
    accepted by [validateNamespaceConfig], hence not by
    [validateAerospikeConfig] nor by [validate] when a rack holds that
    configuration. When that token is the first defect met,
    the error is [devicePathNotFound]: its message carries the offending
    device path and the storage specification. *)
Theorem undeclared_device_rejected
    (c : AerospikeCluster) (configSpec : AerospikeConfigSpec) (config : gmap string value)
    (nsList : list value) (storage : AerospikeStorageSpec) (clSize : Z)
    (block files : list string)
    (nsConf storageConf : gmap string value) (devices : list value)
    (entry dev : string) :
  getAerospikeStorageList storage true = Ok (block, files) →
  VMap nsConf ∈ nsList →
  deviceNamespace nsConf storageConf devices →
  VString entry ∈ devices →
  dev ∈ strings_Fields (strings_TrimSpace entry) →
  dev ∉ block →
  validateNamespaceConfig nsList storage clSize ≠ Ok tt ∧
  (Value configSpec = Some config → config !! "namespaces" = Some (VList nsList) →
   validateAerospikeConfig c configSpec storage clSize ≠ Ok tt ∧
   (∀ rack warnings,
      rack ∈ Racks (SpecRackConfig (Spec c)) →
      AerospikeConfig rack = configSpec → Storage rack = storage →
      Size (Spec c) = clSize →
      validate c ≠ (warnings, Ok tt))) ∧
  (∀ (pre post dpre dpost : list value) (tpre tpost : list string),
     nsList = (pre ++ VMap nsConf :: post)%list →
     forEach (checkNamespace storage block files clSize) pre = Ok tt →
     validateNamespaceReplicationFactor nsConf clSize = Ok tt →
     validateMRTFields nsConf = Ok tt →
     devices = (dpre ++ VString entry :: dpost)%list →
     forEach (checkDevice storage block) dpre = Ok tt →
     strings_Fields (strings_TrimSpace entry) = (tpre ++ dev :: tpost)%list →
     (length (tpre ++ dev :: tpost)%list ≤ 2)%nat →
     Forall (λ t, t ∈ block) tpre →
     validateNamespaceConfig nsList storage clSize = Err (devicePathNotFound dev storage)).
Proof.
  intros Hlists Hns Hdevns Hentry Hdev Hblock.
  assert (validateNamespaceConfig nsList storage clSize ≠ Ok tt) as Hrej.
  { unfold validateNamespaceConfig. case_decide; [done|]. rewrite Hlists. simpl.
    intros ([] & Hloop & _)%bind_Ok.
    eapply forEach_Ok_elem in Hloop; [|done].
    eapply checkNamespace_Ok_devices in Hloop as [_ Hloop]; [|done].
    eapply forEach_Ok_elem in Hloop; [|done].
    eapply checkDevice_Ok_tokens in Hloop; done. }
  split; [done|]. split.
  - intros Hval Hcfg.
    assert (validateAerospikeConfig c configSpec storage clSize ≠ Ok tt) as Hconf.
    { intros Hok. unfold validateAerospikeConfig in Hok.
      rewrite Hval in Hok.
      destruct (index config "service") as [| | | | |serviceConf]; try done.
      apply bind_Ok in Hok as (advertise & _ & Hok).
      destruct advertise; [done|]. case_decide; [done|].
      destruct (index config "network") as [| | | | |networkConf]; try done.
      apply bind_Ok in Hok as ([] & _ & Hok). rewrite Hcfg in Hok.
      by apply bind_Ok in Hok as ([] & Hok & _). }
    split; [done|]. intros rack warnings Hrack <- <- <- Hok.
    by eapply Hconf, validate_Ok_rack.
  - intros pre post dpre dpost tpre tpost -> Hpre Hrf Hmrt -> Hdpre Hf Hlen Htpre.
    assert (checkDevice storage block (VString entry) =
            Err (devicePathNotFound dev storage)) as Hchk
      by by eapply checkDevice_first_missing.
    assert (checkNamespace storage block files clSize (VMap nsConf) =
            Err (devicePathNotFound dev storage)) as Hcns.
    { destruct (deviceNamespace_kind _ _ _ Hdevns) as [Hmem Hpm].
      destruct Hdevns as (Hst & _ & Hds). unfold checkNamespace.
      rewrite Hrf, Hmrt. simpl. rewrite Hst. rewrite decide_False by done.
      rewrite Hmem, Hpm. simpl. rewrite Hds. simpl.
      rewrite decide_False by (by destruct dpre).
      by rewrite (forEach_first_Err _ _ _ _ _ Hdpre Hchk). }
    unfold validateNamespaceConfig. rewrite decide_False by (by destruct pre).
    rewrite Hlists. simpl.
    by rewrite (forEach_first_Err _ _ _ _ _ Hpre Hcns).
Qed.

(** ** An update that changes nothing *)

Lemma DeepEqual_refl `{EqDecision A} (x : A) : DeepEqual x x = true.
Proof. unfold DeepEqual. by apply bool_decide_eq_true_2. Qed.

Lemma validateStorageSpecChange_refl storage :
  validateStorageSpecChange storage storage = Ok tt.
Proof. unfold validateStorageSpecChange. by rewrite DeepEqual_refl. Qed.

Lemma multiPodPerHostUpdate_refl c : multiPodPerHostUpdate c c = Ok tt.
Proof. unfold multiPodPerHostUpdate. by rewrite eqb_reflx. Qed.

Lemma validateNetworkPolicyUpdate_refl policy :
  validateNetworkPolicyUpdate policy policy = Ok tt.
Proof.
  unfold validateNetworkPolicyUpdate. rewrite !DeepEqual_refl. simpl.
  by rewrite !andb_false_r.
Qed.


Lemma validateNetworkPortUpdate_refl connection port :
  validateNetworkPortUpdate connection connection port = Ok tt.
Proof.
  unfold validateNetworkPortUpdate.
  destruct (connection !! port), (connection !! ("tls-" ++ port));
    rewrite ?DeepEqual_refl; simpl; repeat case_bool_decide; simpl; try done;
    exfalso; naive_solver.
Qed.

Lemma validateNetworkConnectionUpdate_refl_typed config network section connectionType :
  config !! "network" = Some (VMap network) →
  network !! connectionType = Some (VMap section) →
  validateNetworkConnectionUpdate config config connectionType = Ok tt.
Proof.
  intros Hn Hs. unfold validateNetworkConnectionUpdate, index.
  rewrite Hn. simpl. rewrite Hs. simpl.
  destruct (section !! "tls-name"); rewrite ?DeepEqual_refl; simpl;
    by rewrite !validateNetworkPortUpdate_refl.
Qed.


Lemma same_name_same_entry nsList names v w name :
  mapM nsName nsList = Some names → NoDup names →
  v ∈ nsList → w ∈ nsList → nsName v = Some name → nsName w = Some name → v = w.
Proof.
  revert names. induction nsList as [|x l IH]; intros names Hm Hnd Hv Hw Hnv Hnw.
  { by apply elem_of_nil in Hv. }
  simpl in Hm. simplify_option_eq.
  match goal with H : nsName x = Some ?a, H' : mapM nsName l = Some ?b |- _ =>
    rename H into Hx; rename H' into Hl; rename a into nx; rename b into rest end.
  apply NoDup_cons in Hnd as [Hnx Hnd].
  assert (∀ u, u ∈ l → nsName u = Some nx → False) as Hfresh.
  { intros u Hu Hnu. apply Hnx. clear -Hl Hu Hnu. revert rest Hl.
    induction l as [|y l IHl]; intros rest Hl; [by apply elem_of_nil in Hu|].
    simpl in Hl. simplify_option_eq.
    apply elem_of_cons in Hu as [->|Hu].
    - simplify_eq. by left.
    - right. by eapply IHl. }
  apply elem_of_cons in Hv as [->|Hv], Hw as [->|Hw]; try done.
  - exfalso. simplify_eq. by eapply Hfresh.
  - exfalso. simplify_eq. by eapply Hfresh.
  - by eapply IH.
Qed.

Lemma mapM_nsName_elem nsList names v :
  mapM nsName nsList = Some names → v ∈ nsList → is_Some (nsName v).
Proof.
  revert names. induction nsList as [|x l IH]; intros names Hm Hv.
  { by apply elem_of_nil in Hv. }
  simpl in Hm. simplify_option_eq.
  apply elem_of_cons in Hv as [->|Hv]; [by eexists|by eapply IH].
Qed.

Lemma nsName_Some v name :
  nsName v = Some name → ∃ m, v = VMap m ∧ m !! "name" = Some (VString name).
Proof.
  destruct v as [| | | | |m]; simpl; try done.
  destruct (m !! "name") as [[| | |s| |]|] eqn:Hm; try done. intros [= <-]. by exists m.
Qed.

Lemma checkNsUpdate_self nsList :
  distinctNamespaceNames nsList → forEach (checkNsUpdate nsList) nsList = Ok tt.
Proof.
  intros (names & Hm & Hnd). apply forEach_Ok, Forall_forall. intros v Hv.
  destruct (mapM_nsName_elem _ _ _ Hm Hv) as [nv Hnv].
  destruct (nsName_Some _ _ Hnv) as (n & -> & Hn). simpl.
  apply forEach_Ok, Forall_forall. intros w Hw.
  destruct (mapM_nsName_elem _ _ _ Hm Hw) as [nw Hnw].
  destruct (nsName_Some _ _ Hnw) as (o & -> & Ho).
  unfold checkNsPair, index. rewrite Hn, Ho. simpl.
  case_bool_decide as Heq; [|done]. simplify_eq.
  assert (VMap n = VMap o) as [= ->] by by eapply same_name_same_entry.
  unfold isValueUpdated. by rewrite !DeepEqual_refl.
Qed.

Lemma validateRackUpdate_refl c : validateRackUpdate c c = Ok tt.
Proof. unfold validateRackUpdate. by rewrite DeepEqual_refl. Qed.


#[local] Opaque networkConnectionTypes.

Lemma validateNsConfUpdate_self spec status nsList statusNsList :
  conf spec !! "namespaces" = Some (VList nsList) →
  distinctNamespaceNames nsList →
  statusNamespaces status statusNsList →
  validateNsConfUpdate spec spec status =
    validateStorageEngineDeviceListUpdate nsList statusNsList.
Proof.
  intros Hns Hdistinct Hstatus. unfold validateNsConfUpdate, index. rewrite Hns.
  assert (match status with
          | Some currentStatus =>
              if decide (size (conf currentStatus) ≠ 0%nat)
              then as_list (default VNil (conf currentStatus !! "namespaces"))
              else Ok []
          | None => Ok []
          end = Ok statusNsList) as ->.
  { destruct status as [s|]; simpl in Hstatus; [|by subst].
    case_decide; [by rewrite Hstatus|].
    assert (conf s = ∅) as Hempty by (apply map_size_empty_iff; lia).
    by rewrite Hempty in Hstatus. }
  simpl. by rewrite checkNsUpdate_self.
Qed.

(** X31. The update validation of a descriptor against itself accepts,
    with the warnings of [validate], as soon as [validate] accepts it, its
    namespaces are maps with pairwise distinct names, its network holds a
    map for each of its three connection sections, and the checks of
    [ValidateUpdate] that compare nothing with the old object, or compare
    with the status, accept: the dynamic-configuration, upgrade,
    operation and security checks and the device-reuse check against the
    status. *)
Lemma self_update_accepted (c : AerospikeCluster) (nsList statusNsList : list value)
    (warnings : list string) :
  conf (SpecAerospikeConfig (Spec c)) !! "namespaces" = Some (VList nsList) →
  distinctNamespaceNames nsList →
  networkSectionsTyped (conf (SpecAerospikeConfig (Spec c))) →
  validate c = (warnings, Ok tt) →
  validateEnableDynamicConfigUpdate c = Ok tt →
  validateUpgrade c c = Ok tt →
  validateOperationUpdate (Spec c) (Spec c) (Status c) = Ok tt →
  validateSecurityConfigUpdate (SpecAerospikeConfig (Spec c))
    (SpecAerospikeConfig (Spec c)) (StatusAerospikeConfig (Status c)) = Ok tt →
  statusNamespaces (StatusAerospikeConfig (Status c)) statusNsList →
  validateStorageEngineDeviceListUpdate nsList statusNsList = Ok tt →
  validateAgainstOld c c = Ok tt ∧ ValidateUpdate c c = (warnings, Ok tt).
Proof.
  intros Hns Hdistinct (network & Hnet & Hsections)
    Hvalid Hdyn Hup Hop Hsec Hstatus Hreuse.
  assert (validateAgainstOld c c = Ok tt) as Hold.
  { unfold validateAgainstOld.
    rewrite Hdyn, Hup, validateStorageSpecChange_refl, multiPodPerHostUpdate_refl,
      validateNetworkPolicyUpdate_refl, Hop. simpl.
    rewrite validateRackUpdate_refl.
    assert (validateAerospikeConfigUpdate (SpecAerospikeConfig (Spec c))
              (SpecAerospikeConfig (Spec c)) (StatusAerospikeConfig (Status c)) = Ok tt)
      as ->; [|done].
    unfold validateAerospikeConfigUpdate. rewrite Hsec. simpl.
    assert (validateTLSUpdate (conf (SpecAerospikeConfig (Spec c)))
              (conf (SpecAerospikeConfig (Spec c))) = Ok tt) as ->.
    { unfold validateTLSUpdate, index. rewrite Hnet. simpl.
      destruct (network !! "tls"); [|done]. by rewrite DeepEqual_refl. }
    simpl.
    assert (forEach (validateNetworkConnectionUpdate (conf (SpecAerospikeConfig (Spec c)))
                       (conf (SpecAerospikeConfig (Spec c)))) networkConnectionTypes = Ok tt)
      as ->.
    { apply forEach_Ok, Forall_forall. intros ct Hct.
      destruct (Hsections ct Hct) as [section Hsection].
      by eapply validateNetworkConnectionUpdate_refl_typed. }
    simpl. by erewrite validateNsConfUpdate_self. }
  split; [done|]. unfold ValidateUpdate. by rewrite Hvalid, Hold.
Qed.


#[local] Transparent networkConnectionTypes.

(** ** Batch sizes *)

Lemma entriesNamed_app name l1 l2 :
  entriesNamed name (l1 ++ l2) = (entriesNamed name l1 ++ entriesNamed name l2)%list.
Proof. apply filter_app. Qed.

Lemma entriesNamed_nil name entries :
  (∀ v, v ∈ entries → nsName v ≠ Some name) → entriesNamed name entries = [].
Proof.
  unfold entriesNamed. induction entries as [|v l IH]; intros H; [done|].
  rewrite filter_cons_False by (apply H; by left).
  apply IH. intros w Hw. apply H. by right.
Qed.

Lemma nsConfStep_Ok M v M' :
  nsConfStep M v = Ok M' →
  ∃ name, nsName v = Some name ∧
    M' = <[name := {| noOfRacksForNamespaces :=
                        match M !! name with
                        | None => 1
                        | Some old => noOfRacksForNamespaces old + 1
                        end;
                      replicationFactor := rfOf v;
                      scEnabled := nsSCEnabled v |}]> M.
Proof.
  unfold nsConfStep, index. destruct v as [| | | | |m]; simpl; try done.
  destruct (m !! "name") as [[| | |name| |]|] eqn:Hname; simpl; try done.
  unfold IsNSSCEnabled.
  destruct (m !! "strong-consistency") as [[|b| | | |]|] eqn:Hsc; simpl; try done;
    intros [= <-]; exists name; split; try done; do 2 f_equal.
  by destruct b.
Qed.

Lemma nsConfStep_summarises M entries v M' :
  summarises M entries → nsConfStep M v = Ok M' → summarises M' (entries ++ [v]).
Proof.
  intros [Hrec Hall] (name & Hname & ->)%nsConfStep_Ok. split.
  - intros name' c. destruct (decide (name' = name)) as [->|Hne].
    + rewrite lookup_insert_eq. intros [= <-]. exists v. simpl.
      split; [apply elem_of_app; right; by left|]. repeat split; try done.
      rewrite entriesNamed_app, length_app.
      assert (entriesNamed name [v] = [v]) as ->.
      { unfold entriesNamed. by rewrite filter_cons_True. }
      simpl. destruct (M !! name) as [old|] eqn:Hold.
      * destruct (Hrec _ _ Hold) as (_ & _ & _ & _ & _ & ->). lia.
      * assert (entriesNamed name entries = []) as ->; [|done].
        apply entriesNamed_nil. intros w Hw Hnw.
        destruct (Hall _ Hw) as (n & Hn & [c Hc]). congruence.
    + rewrite lookup_insert_ne by done. intros Hc.
      destruct (Hrec _ _ Hc) as (w & Hw & Hnw & Hrf & Hsc & Hcount).
      exists w. split; [apply elem_of_app; by left|]. repeat split; try done.
      rewrite entriesNamed_app.
      assert (entriesNamed name' [v] = []) as ->.
      { unfold entriesNamed. rewrite filter_cons_False; [done|congruence]. }
      by rewrite app_nil_r.
  - intros w [Hw| ->%list_elem_of_singleton]%elem_of_app.
    + destruct (Hall _ Hw) as (n & Hn & Hsome). exists n. split; [done|].
      destruct (decide (name = n)) as [->|]; [by rewrite lookup_insert_eq|].
      by rewrite lookup_insert_ne.
    + exists name. split; [done|]. by rewrite lookup_insert_eq.
Qed.

Lemma foldEach_nsConfStep_summarises M entries l M' :
  summarises M entries → foldEach nsConfStep M l = Ok M' → summarises M' (entries ++ l).
Proof.
  revert M entries. induction l as [|v l IH]; intros M entries Hsum; simpl.
  - intros [= <-]. by rewrite app_nil_r.
  - intros (M1 & Hstep & Hrest)%bind_Ok.
    rewrite (cons_middle v entries l), app_assoc. eapply IH; [|done].
    by eapply nsConfStep_summarises.
Qed.

Lemma nsConfRack_summarises M entries rack M' :
  summarises M entries → nsConfRack M rack = Ok M' →
  summarises M' (entries ++ nsEntries rack).
Proof.
  unfold nsConfRack, nsEntries, index. intros Hsum.
  destruct (conf (AerospikeConfig rack) !! "namespaces") as [[| | | |l|]|];
    simpl; try done.
  by apply foldEach_nsConfStep_summarises.
Qed.

Lemma foldEach_nsConfRack_summarises M entries racks M' :
  summarises M entries → foldEach nsConfRack M racks = Ok M' →
  summarises M' (entries ++ (racks ≫= nsEntries)).
Proof.
  revert M entries. induction racks as [|rack racks IH]; intros M entries Hsum.
  - intros [= <-]. by rewrite app_nil_r.
  - simpl. intros (M1 & Hstep & Hrest)%bind_Ok.
    change (list_bind Rack value nsEntries racks) with (racks ≫= nsEntries).
    rewrite app_assoc.
    eapply IH; [|done]. by eapply nsConfRack_summarises.
Qed.

Lemma getNsConfForNamespaces_summarises rackConfig M :
  getNsConfForNamespaces rackConfig = Ok M → summarises M (allEntries rackConfig).
Proof.
  intros H. apply (foldEach_nsConfRack_summarises ∅ []) in H; [done|].
  split; [by intros ?? ?%lookup_empty_Some|by intros ? ?%elem_of_nil].
Qed.

Lemma rfOf_namespaceRF v : 1 < rfOf v → namespaceRF v = Some (rfOf v).
Proof.
  destruct v as [| | | | |m]; simpl; try lia.
  unfold getNamespaceReplicationFactor.
  destruct (m !! "replication-factor") as [[| | | | |]|]; simpl; try lia; done.
Qed.

Lemma entriesNamed_NoDup name l :
  NoDup (omap nsName l) →
  (length (entriesNamed name l) ≤ if decide (name ∈ omap nsName l) then 1 else 0)%nat.
Proof.
  unfold entriesNamed. induction l as [|v l IH]; simpl;
    [repeat case_decide; simpl; lia|].
  intros Hnd. destruct (nsName v) as [n|] eqn:Hn.
  - apply NoDup_cons in Hnd as [Hfresh Hnd]. specialize (IH Hnd).
    destruct (decide (n = name)) as [->|Hne].
    + rewrite filter_cons_True by done. simpl.
      rewrite decide_True by by left.
      rewrite decide_False in IH by done. lia.
    + rewrite filter_cons_False by congruence.
      destruct (decide (name ∈ omap nsName l)).
      * rewrite decide_True by by right. done.
      * rewrite decide_False; [done|]. intros [->|?]%elem_of_cons; done.
  - rewrite filter_cons_False by congruence. by apply IH.
Qed.

Lemma entriesNamed_racks name racks :
  (∀ rack, rack ∈ racks → NoDup (rackNsNames rack)) →
  (length (entriesNamed name (racks ≫= nsEntries)) ≤
   length (filter (λ rack, name ∈ rackNsNames rack) racks))%nat.
Proof.
  induction racks as [|rack racks IH]; intros Hnd; [done|].
  rewrite bind_cons, entriesNamed_app, length_app.
  pose proof (entriesNamed_NoDup name (nsEntries rack) (Hnd rack ltac:(by left))) as Hrack.
  assert (length (entriesNamed name (racks ≫= nsEntries)) ≤
          length (filter (λ rack, name ∈ rackNsNames rack) racks))%nat as Hrest.
  { apply IH. intros r Hr. apply Hnd. by right. }
  fold (rackNsNames rack) in Hrack.
  destruct (decide (name ∈ rackNsNames rack)).
  - rewrite filter_cons_True by done. simpl. lia.
  - rewrite filter_cons_False by done. lia.
Qed.

Lemma validateRacksForBatchSize_Ok rollingUpdateBatch rackConfig :
  validateRacksForBatchSize rollingUpdateBatch rackConfig = Ok tt →
  (2 ≤ length (Racks rackConfig))%nat ∧
  ∃ M, summarises M (allEntries rackConfig) ∧
    ∀ name c, M !! name = Some c →
      name ∈ Namespaces rackConfig ∧ 1 < noOfRacksForNamespaces c ∧
      1 < replicationFactor c ∧ (rollingUpdateBatch = false → scEnabled c = false).
Proof.
  unfold validateRacksForBatchSize. case_decide; [done|].
  intros (M & HM & Hloop)%bind_Ok. split; [lia|].
  exists M. split; [by apply getNsConfForNamespaces_summarises|].
  intros name c Hc. eapply forEach_Ok_elem in Hloop; [|by apply elem_of_map_to_list].
  unfold checkNsForBatchSize, isNameExist in Hloop.
  case_bool_decide; [|done]. simpl in Hloop.
  repeat case_decide; try done.
  split; [done|]. split; [lia|]. split; [lia|].
  intros ->. by destruct (scEnabled c).
Qed.

Lemma validateRacksForBatchSize_safe rollingUpdateBatch rackConfig :
  validateRacksForBatchSize rollingUpdateBatch rackConfig = Ok tt →
  uniformNamespaces rackConfig → batchSafe rollingUpdateBatch rackConfig.
Proof.
  intros (Hlen & M & [Hrec Hall] & Hchk)%validateRacksForBatchSize_Ok [Hnd Huni].
  assert (∀ rack ns, rack ∈ Racks rackConfig → ns ∈ nsEntries rack →
            ns ∈ allEntries rackConfig) as Hin.
  { intros rack ns Hrack Hns. apply list_elem_of_bind. eauto. }
  assert (∀ rack ns, rack ∈ Racks rackConfig → ns ∈ nsEntries rack →
            ∃ name c v rack', nsName ns = Some name ∧ M !! name = Some c ∧
              rack' ∈ Racks rackConfig ∧ v ∈ nsEntries rack' ∧ nsName v = Some name ∧
              replicationFactor c = rfOf v ∧ scEnabled c = nsSCEnabled v) as Hsame.
  { intros rack ns Hrack Hns.
    destruct (Hall ns (Hin _ _ Hrack Hns)) as (name & Hname & [c Hc]).
    destruct (Hrec _ _ Hc) as (v & Hv & Hnv & Hrf & Hsc & _).
    apply list_elem_of_bind in Hv as (rack' & Hv & Hrack').
    exists name, c, v, rack'. naive_solver. }
  split.
  - done.
  - intros rack name Hrack (ns & Hns & Hname)%list_elem_of_omap.
    destruct (Hall ns (Hin _ _ Hrack Hns)) as (name' & Hname' & [c Hc]).
    simplify_eq. by apply (Hchk _ _ Hc).
  - intros rack name Hrack (ns & Hns & Hname)%list_elem_of_omap.
    destruct (Hall ns (Hin _ _ Hrack Hns)) as (name' & Hname' & [c Hc]).
    simplify_eq. destruct (Hchk _ _ Hc) as (_ & Hcount & _).
    destruct (Hrec _ _ Hc) as (_ & _ & _ & _ & _ & Heq).
    pose proof (entriesNamed_racks name _ Hnd) as Hle.
    unfold racksHolding. unfold allEntries in Heq. lia.
  - intros rack ns Hrack Hns.
    destruct (Hsame _ _ Hrack Hns) as (name & c & v & rack' & Hn & Hc & Hr' & Hv & Hnv & Hrf & _).
    destruct (Hchk _ _ Hc) as (_ & _ & Hrfc & _).
    destruct (Huni rack rack' ns v name) as [-> _]; try done.
    exists (rfOf v). rewrite <- Hrf. split; [|done].
    rewrite Hrf. apply rfOf_namespaceRF. by rewrite <- Hrf.
  - intros -> rack ns Hrack Hns.
    destruct (Hsame _ _ Hrack Hns) as (name & c & v & rack' & Hn & Hc & Hr' & Hv & Hnv & _ & Hsc).
    destruct (Hchk _ _ Hc) as (_ & _ & _ & Hscc).
    destruct (Huni rack rack' ns v name) as [_ ->]; try done.
    rewrite <- Hsc. by apply Hscc.
Qed.

Lemma validateRacksForBatchSize_few rollingUpdateBatch rackConfig :
  (length (Racks rackConfig) < 2)%nat →
  validateRacksForBatchSize rollingUpdateBatch rackConfig =
    Err (Errorf "can not use %s when number of racks is less than two"
           [AString (batchSizeFieldPath rollingUpdateBatch)]).
Proof. intros Hlen. unfold validateRacksForBatchSize. by rewrite decide_True. Qed.

Lemma validateIntOrStringField_no_panic value fieldPath :
  validateIntOrStringField value fieldPath ≠ Panic.
Proof.
  unfold validateIntOrStringField, GetScaledValueFromIntOrPercent.
  repeat (case_match; simpl; try done).
Qed.

(** C3, as the code has it. With a batch size set: fewer than two racks is
    always an error; and when [validateBatchSize] accepts, a rack topology
    whose namespaces are described consistently (a name once per rack, the
    same replication factor and strong-consistency flag in every rack) has
    at least two racks, all its namespaces listed in
    [rackConfig.namespaces], each present in more than one rack, with a
    replication factor above 1 and, for the scale-down batch size, without
    strong consistency. This holds of the specification and, when the
    status is not empty, of the status topology. *)
Theorem batch_size_conditions
    (c : AerospikeCluster) (batchSize : IntOrString) (rollingUpdateBatch : bool) :
  ((length (Racks (SpecRackConfig (Spec c))) < 2)%nat →
   rejected (validateBatchSize c (Some batchSize) rollingUpdateBatch)) ∧
  (validateBatchSize c (Some batchSize) rollingUpdateBatch = Ok tt →
   (uniformNamespaces (SpecRackConfig (Spec c)) →
    batchSafe rollingUpdateBatch (SpecRackConfig (Spec c))) ∧
   (is_Some (StatusAerospikeConfig (Status c)) →
    uniformNamespaces (StatusRackConfig (Status c)) →
    batchSafe rollingUpdateBatch (StatusRackConfig (Status c)))).
Proof.
  split.
  - intros Hlen. unfold validateBatchSize.
    pose proof (validateIntOrStringField_no_panic (Some batchSize)
                  (batchSizeFieldPath rollingUpdateBatch)) as Hnp.
    destruct (validateIntOrStringField _ _) as [[]|e|]; [|by exists e|done].
    simpl. rewrite (validateRacksForBatchSize_few _ (SpecRackConfig (Spec c))) by done.
    by eexists.
  - unfold validateBatchSize.
    intros ([] & _ & ([] & Hspec & Hstatus)%bind_Ok)%bind_Ok. split.
    + by apply validateRacksForBatchSize_safe.
    + intros [s Hs] Huni. rewrite Hs in Hstatus.
      apply validateRacksForBatchSize_safe; [|done].
      by destruct (validateRacksForBatchSize rollingUpdateBatch
                     (StatusRackConfig (Status c))) as [[]| |].
Qed.

End UpdateSafety.

(** * Properties of the remaining checks *)

Section MoreProperties.
Context `{collab : Collaborators}.

(** ** Numbers and percentages *)

Lemma trimPercentSuffix_cons a s :
  trimPercentSuffix (String a s) =
    if decide (a = "%"%char ∧ s = EmptyString) then Some EmptyString
    else String a <$> trimPercentSuffix s.
Proof.
  destruct s as [|b s].
  - destruct a as [[] [] [] [] [] [] [] []]; case_decide; naive_solver.
  - case_decide as H; [naive_solver|].
    destruct a as [[] [] [] [] [] [] [] []]; reflexivity.
Qed.

Lemma trimPercentSuffix_Some s digits :
  trimPercentSuffix s = Some digits ↔ s = digits +:+ "%".
Proof.
  revert digits. induction s as [|a s IH]; intros digits.
  - simpl. split; [done|]. destruct digits; done.
  - rewrite trimPercentSuffix_cons. case_decide as H.
    + destruct H as [-> ->]. split.
      * by intros [= <-].
      * destruct digits as [|b [|c digits]]; simpl; done.
    + rewrite fmap_Some. split.
      * intros (d & Hd & ->). apply IH in Hd as ->. done.
      * destruct digits as [|b digits]; simpl.
        -- intros [= -> ->]. naive_solver.
        -- intros [= -> ->]. exists digits. split; [by apply IH|done].
Qed.

Lemma percent_inj d1 d2 : d1 +:+ "%" = d2 +:+ "%" → d1 = d2.
Proof.
  intros H. apply (inj Some).
  rewrite <- (proj2 (trimPercentSuffix_Some (d1 +:+ "%") d1) eq_refl).
  by apply trimPercentSuffix_Some.
Qed.

(** X1. [validateIntOrStringField] accepts exactly a number that is not
    negative, however large, and a string made of a decimal integer
    between 0 and 100 followed by a percent sign. Everything else is
    turned down: a nil value, a string without the percent sign, a
    negative number or percentage, a percentage above 100. *)
Theorem validateIntOrStringField_accepts (value : option IntOrString) (fieldPath : string) :
  validateIntOrStringField value fieldPath = Ok tt ↔
    (∃ n, value = Some (IntVal n) ∧ 0 ≤ n) ∨
    (∃ digits n, value = Some (StrVal (digits +:+ "%")) ∧
                 strconv_Atoi digits = Some n ∧ 0 ≤ n ≤ 100).
Proof.
  unfold validateIntOrStringField, GetScaledValueFromIntOrPercent, isStringType.
  destruct value as [[n|s]|]; simpl.
  - case_decide; split; try done; try naive_solver lia.
  - destruct (trimPercentSuffix s) as [digits|] eqn:Htrim; simpl.
    + apply trimPercentSuffix_Some in Htrim as ->.
      destruct (strconv_Atoi digits) as [n|] eqn:Hn; simpl.
      * case_decide; [|case_bool_decide]; split; try done.
        -- intros [(? & ? & ?)|(d & m & [= Hd] & Hm & ?)]; [done|].
           apply percent_inj in Hd. simplify_eq. lia.
        -- intros [(? & ? & ?)|(d & m & [= Hd] & Hm & ?)]; [done|].
           apply percent_inj in Hd. simplify_eq. lia.
        -- intros _. right. exists digits, n. split_and!; [done|done|lia|lia].
      * split; [done|].
        intros [(? & ? & ?)|(d & m & [= Hd] & Hm & ?)]; [done|].
        apply percent_inj in Hd. simplify_eq.
    + split; [done|].
      intros [(? & ? & ?)|(d & m & [= Hd] & Hm & ?)]; [done|].
      subst s. by rewrite (proj2 (trimPercentSuffix_Some _ _) eq_refl) in Htrim.
  - split; [done|]. naive_solver.
Qed.

(** ** Logging and client names *)

Lemma index_is_string (m : gmap string value) key s :
  is_string (index m key) s = true ↔ m !! key = Some (VString s).
Proof.
  unfold is_string, index. rewrite bool_decide_eq_true.
  destruct (m !! key); simpl; naive_solver.
Qed.

(** X2. [validateLoggingConf] accepts a logging list exactly when each of
    its entries is a map that either is the entry named [syslog] or sets
    none of [facility], [path] and [tag]. *)
Theorem validateLoggingConf_accepts (loggingConfList : list value) :
  validateLoggingConf loggingConfList = Ok tt ↔ Forall loggingEntryOk loggingConfList.
Proof.
  unfold validateLoggingConf. rewrite forEach_Ok. apply Forall_iff. intros entry.
  unfold loggingEntryOk. destruct entry as [| | | | |logConf]; try by (split; [|intros (? & ? & ?)]).
  destruct (is_string (index logConf "name") "syslog") eqn:Hname; simpl.
  - apply index_is_string in Hname. split; [|done]. intros _. eauto.
  - assert (logConf !! "name" ≠ Some (VString "syslog")) as Hne.
    { intros H. apply index_is_string in H. congruence. }
    repeat case_decide; simpl; (split; [try done|]).
    all: try (intros (m & [= <-] & [?|(Hf & Hp & Ht)]); [done|];
              repeat match goal with H : is_Some _ |- _ => destruct H as [? H] end;
              congruence).
    intros _. exists logConf. split; [done|]. right.
    by rewrite !eq_None_not_Some.
Qed.

Lemma foldEach_Panic {A S} (body : S → A → result S) s l :
  (∀ s x, body s x ≠ Panic) → foldEach body s l ≠ Panic.
Proof.
  intros Hbody. revert s. induction l as [|x l IH]; intros s; simpl; [done|].
  destruct (body s x) eqn:Hx; simpl; [apply IH|done|by apply Hbody in Hx].
Qed.

Lemma dnsNames_fold config acc l r :
  foldEach (λ (dnsNames : list string) entry,
    match entry with
    | VString dnsName =>
        if negb (IsDNSName dnsName) then
          Err (Errorf "tls-authenticate-client contains invalid dns-name: %v"
                 [AString dnsName])
        else Ok (app dnsNames [dnsName])
    | _ =>
        Err (Errorf "tls-authenticate-client contains invalid type value: %v"
               [AValue config])
    end) acc l = Ok r ↔
  ∃ names, l = VString <$> names ∧ Forall (λ n, IsDNSName n = true) names ∧
           r = (acc ++ names)%list.
Proof.
  revert acc. induction l as [|x l IH]; intros acc; simpl.
  - split.
    + intros [= <-]. exists []. by rewrite app_nil_r.
    + intros (names & Hn & _ & ->). destruct names; [|done]. by rewrite app_nil_r.
  - destruct x as [| | |dnsName| |]; simpl;
      try (split; [done|]; by intros ([|??] & ? & _)).
    destruct (IsDNSName dnsName) eqn:Hdns; simpl.
    + rewrite IH. split.
      * intros (names & -> & ? & ->). exists (dnsName :: names).
        split_and!; [done|by constructor|by rewrite <- app_assoc].
      * intros ([|n names] & [= ] & Hall & ->); simplify_eq.
        apply Forall_cons in Hall as [_ Hall]. exists names.
        split_and!; [done|done|by rewrite <- app_assoc].
    + split; [done|]. intros ([|n names] & [= ] & Hall & ->); simplify_eq.
      apply Forall_cons in Hall as [? _]. congruence.
Qed.

(** X3. [ValidateTLSAuthenticateClient] never panics, whatever the value
    of [tls-authenticate-client]. It returns no name when the field is
    absent, ["any"], ["false"] or the boolean false; it returns the names
    of the field, in their order, when the field is a list of strings
    that are all DNS names; every other value is an error. *)
Theorem ValidateTLSAuthenticateClient_names (serviceConf : gmap string value) :
  ValidateTLSAuthenticateClient serviceConf ≠ Panic ∧
  ∀ names,
    ValidateTLSAuthenticateClient serviceConf = Ok names ↔
      (noClientNames (serviceConf !! "tls-authenticate-client") ∧ names = []) ∨
      (serviceConf !! "tls-authenticate-client" = Some (VList (VString <$> names)) ∧
       Forall (λ n, IsDNSName n = true) names).
Proof.
  unfold ValidateTLSAuthenticateClient, noClientNames.
  destruct (serviceConf !! "tls-authenticate-client") as [config|]; [|naive_solver].
  destruct config as [|b|z|s|l|m]; simpl.
  - naive_solver.
  - destruct b; naive_solver.
  - naive_solver.
  - repeat case_bool_decide; naive_solver.
  - split.
    + apply foldEach_Panic. intros s [| | |x| |]; try done. by destruct (IsDNSName x).
    + intros names. rewrite dnsNames_fold. split.
      * intros (ns & -> & ? & ->). by right.
      * intros [[? ?]|[[= Hl] ?]]; [naive_solver|]. exists names. done.
  - naive_solver.
Qed.

Lemma containsAnyName_true clientNames (namesToFind : gset string) :
  containsAnyName clientNames namesToFind = true ↔
    ∃ name, name ∈ clientNames ∧ name ∈ namesToFind.
Proof.
  unfold containsAnyName. rewrite existsb_exists. split.
  - intros (n & Hin & Hn). apply bool_decide_eq_true in Hn.
    exists n. split; [by apply list_elem_of_In|done].
  - intros (n & Hin & Hn). exists n. split; [by apply list_elem_of_In|].
    by apply bool_decide_eq_true.
Qed.

(** X4. [validateTLSClientNames] accepts a service section exactly when
    its [tls-authenticate-client] field is valid and either lists no name,
    or the certificate of the operator can be read and, if it carries any
    name, carries one of the listed names. *)
Theorem validateTLSClientNames_accepts (serviceConf : gmap string value)
    (clientCertSpec : option ClientCert.AerospikeOperatorClientCertSpec) :
  validateTLSClientNames serviceConf clientCertSpec = Ok tt ↔
    ∃ dnsnames, ValidateTLSAuthenticateClient serviceConf = Ok dnsnames ∧
      (dnsnames = [] ∨
       ∃ localCertNames,
         readNamesFromLocalCertificate clientCertSpec = Ok localCertNames ∧
         (localCertNames = ∅ ∨ ∃ name, name ∈ dnsnames ∧ name ∈ localCertNames)).
Proof.
  unfold validateTLSClientNames. rewrite bind_Ok.
  apply exist_proper. intros dnsnames. apply and_iff_compat_l.
  case_decide as Hlen.
  - apply nil_length_inv in Hlen. naive_solver.
  - assert (dnsnames ≠ []) by (by destruct dnsnames).
    rewrite bind_Ok. split.
    + intros (localCertNames & Hread & Hcheck). right. exists localCertNames.
      split; [done|].
      destruct (containsAnyName dnsnames localCertNames) eqn:Hany; simpl in Hcheck.
      * right. by apply containsAnyName_true.
      * case_bool_decide as Hsize; [done|]. left.
        apply leibniz_equiv, size_empty_iff. lia.
    + intros [?|(localCertNames & Hread & Hcheck)]; [done|].
      exists localCertNames. split; [done|].
      destruct Hcheck as [->|Hany].
      * rewrite size_empty. rewrite andb_false_r. done.
      * apply containsAnyName_true in Hany. by rewrite Hany.
Qed.

(** ** The network section *)

Lemma foldEach_tlsNameStep acc l names :
  foldEach tlsNameStep acc l = Ok names →
  (∀ n, n ∈ names ↔
     n ∈ acc ∨ ∃ entry, VMap entry ∈ l ∧ entry !! "name" = Some (VString n)) ∧
  (∀ v, v ∈ l → ∃ entry, v = VMap entry ∧
     ¬ (is_Some (entry !! "ca-path") ∧ is_Some (entry !! "ca-file"))).
Proof.
  revert acc. induction l as [|x l IH]; intros acc; simpl.
  - intros [= <-]. split.
    + intros n. split; [by left|]. intros [?|(? & ?%elem_of_nil & _)]; done.
    + by intros v ?%elem_of_nil.
  - intros (acc' & Hstep & Hrest)%bind_Ok.
    unfold tlsNameStep in Hstep.
    apply bind_Ok in Hstep as (tlsConf & Hmap & Hstep).
    destruct x as [| | | | |m]; try done. simpl in Hmap. simplify_eq.
    apply bind_Ok in Hstep as (acc'' & Hname & Hstep).
    case_decide as Hboth; [done|]. simplify_eq.
    apply IH in Hrest as [Hnames Hca]. split.
    + intros n. rewrite Hnames. split.
      * intros [Hacc|(entry & Hin & Hn)].
        -- destruct (tlsConf !! "name") as [tlsName|] eqn:Htn.
           ++ apply bind_Ok in Hname as (name & Hs & [= <-]).
              destruct tlsName; try done. simpl in Hs. simplify_eq.
              apply elem_of_union in Hacc as [->%elem_of_singleton|?]; [|by left].
              right. exists tlsConf. split; [left|done].
           ++ simplify_eq. by left.
        -- right. exists entry. split; [by right|done].
      * intros [Hacc|(entry & Hin & Hn)].
        -- left. destruct (tlsConf !! "name") as [tlsName|].
           ++ apply bind_Ok in Hname as (name & Hs & [= <-]). set_solver.
           ++ by simplify_eq.
        -- apply elem_of_cons in Hin as [[= <-]|Hin].
           ++ left. rewrite Hn in Hname. simpl in Hname. simplify_eq. set_solver.
           ++ right. by exists entry.
    + intros v [->|Hin]%elem_of_cons; [by exists tlsConf|by apply Hca].
Qed.

(** X5. In a network section that [validateNetworkConfig] accepts, the
    service section is present, each connection section that is present
    ([service], [heartbeat], [fabric]) is a map, a connection that names a
    TLS configuration also sets [tls-port] and names an entry of
    [network.tls], a connection that names none sets no [tls-] parameter,
    and no entry of [network.tls] sets both [ca-path] and [ca-file]. *)
Theorem validateNetworkConfig_tls (c : AerospikeCluster) (networkConf : gmap string value) :
  validateNetworkConfig c networkConf = Ok tt →
  is_Some (networkConf !! "service") ∧
  (∀ connectionType connectionConfig,
     connectionType ∈ networkConnectionTypes →
     networkConf !! connectionType = Some connectionConfig →
     ∃ section, connectionConfig = VMap section ∧
       match section !! "tls-name" with
       | Some tlsName =>
           ∃ name, tlsName = VString name ∧ is_Some (section !! "tls-port") ∧
                   tlsEntryNamed networkConf name
       | None => ∀ key, is_Some (section !! key) → strings_HasPrefix key "tls-" = false
       end) ∧
  (∀ tlsList v, networkConf !! "tls" = Some (VList tlsList) → v ∈ tlsList →
     ∃ entry, v = VMap entry ∧
       ¬ (is_Some (entry !! "ca-path") ∧ is_Some (entry !! "ca-file"))).
Proof.
  unfold validateNetworkConfig. intros Hok.
  destruct (networkConf !! "service") as [serviceConf|] eqn:Hservice; [|done].
  apply bind_Ok in Hok as (tlsNames & Htls & Hok).
  apply bind_Ok in Hok as (serviceConfMap & _ & Hok).
  apply bind_Ok in Hok as ([] & _ & Hok).
  assert ((∀ n, n ∈ tlsNames → tlsEntryNamed networkConf n) ∧
          (∀ tlsList v, networkConf !! "tls" = Some (VList tlsList) → v ∈ tlsList →
             ∃ entry, v = VMap entry ∧
               ¬ (is_Some (entry !! "ca-path") ∧ is_Some (entry !! "ca-file"))))
    as [Hnamed Hca].
  { destruct (networkConf !! "tls") as [tls|] eqn:Htlskey.
    - apply bind_Ok in Htls as (tlsConfList & Hl & Htls).
      destruct tls; try done. simpl in Hl. simplify_eq.
      apply foldEach_tlsNameStep in Htls as [Hnames Hca]. split.
      + intros n [?%elem_of_empty|(entry & ? & ?)]%Hnames; [done|].
        by exists tlsConfList, entry.
      + intros ? ? [= <-]. apply Hca.
    - simplify_eq. split; [by intros n ?%elem_of_empty|done]. }
  split_and!; [done| |done].
  intros connectionType connectionConfig Hct Hsection.
  eapply forEach_Ok_elem in Hok; [|done].
  unfold validateNetworkConnection in Hok. rewrite Hsection in Hok.
  apply bind_Ok in Hok as (section & Hmap & Hok).
  destruct connectionConfig; try done. simpl in Hmap. simplify_eq.
  exists section. split; [done|]. unfold confKeyTLSName in Hok.
  destruct (section !! "tls-name") as [tlsName|].
  - case_decide as Hport; [done|].
    apply bind_Ok in Hok as (name & Hname & Hok).
    destruct tlsName; try done. simpl in Hname. simplify_eq.
    case_decide; [|done]. exists name.
    split_and!; [done| |by apply Hnamed].
    by apply not_eq_None_Some.
  - intros key [v Hkey].
    eapply forEach_Ok_elem in Hok; [|by apply elem_of_map_to_list]. simpl in Hok.
    by destruct (strings_HasPrefix key "tls-").
Qed.

(** ** Devices and files belong to one namespace *)

Lemma extendedBy_nil claimed : extendedBy claimed claimed [].
Proof.
  split_and!; [constructor|by intros p ?%elem_of_nil|].
  intros p n. split; [by left|]. by intros [?|?%elem_of_nil].
Qed.

Lemma extendedBy_app C C1 C2 c1 c2 :
  extendedBy C C1 c1 → extendedBy C1 C2 c2 → extendedBy C C2 (c1 ++ c2).
Proof.
  intros (Hnd1 & Hnew1 & Hl1) (Hnd2 & Hnew2 & Hl2). split_and!.
  - rewrite fmap_app. apply NoDup_app. split_and!; [done| |done].
    intros p [[p' n] [-> Hin]]%list_elem_of_fmap Hp2. simpl in Hp2.
    apply Hnew2 in Hp2. assert (C1 !! p' = Some n) as Hc by (apply Hl1; by right).
    congruence.
  - intros p. rewrite fmap_app, elem_of_app. intros [Hp|Hp]; [by apply Hnew1|].
    apply Hnew2 in Hp. destruct (C !! p) as [n|] eqn:Hc; [|done].
    assert (C1 !! p = Some n) by (apply Hl1; by left). congruence.
  - intros p n. rewrite Hl2, Hl1, elem_of_app. tauto.
Qed.

Lemma extendedBy_unique C C1 C2 claims :
  extendedBy C C1 claims → extendedBy C C2 claims → C1 = C2.
Proof.
  intros (_ & _ & H1) (_ & _ & H2). apply map_eq. intros p.
  apply option_eq. intros n. by rewrite H1, H2.
Qed.

Lemma foldEach_claimStep kind namespace claimed l claimed' :
  foldEach (claimStep kind namespace) claimed l = Ok claimed' →
  ∃ paths, mapM pathOf l = Some paths ∧
           extendedBy claimed claimed' ((λ p, (p, namespace)) <$> paths).
Proof.
  revert claimed. induction l as [|d l IH]; intros claimed; simpl.
  - intros [= <-]. exists []. split; [done|apply extendedBy_nil].
  - intros (C1 & Hstep & Hrest)%bind_Ok. unfold claimStep in Hstep.
    apply bind_Ok in Hstep as (device & Hd & Hstep).
    destruct d; try done. simpl in Hd. simplify_eq.
    destruct (claimed !! device) eqn:Hfree; [done|]. simplify_eq.
    apply IH in Hrest as (paths & -> & Hext). exists (device :: paths).
    split; [done|]. change ((λ p, (p, namespace)) <$> device :: paths)
      with ([(device, namespace)] ++ ((λ p, (p, namespace)) <$> paths))%list.
    eapply extendedBy_app; [|done]. split_and!.
    + apply NoDup_singleton.
    + by intros p ->%list_elem_of_singleton.
    + intros p n. rewrite list_elem_of_singleton. split.
      * destruct (decide (p = device)) as [->|Hne].
        -- rewrite lookup_insert_eq. intros [= <-]. by right.
        -- rewrite lookup_insert_ne by done. by left.
      * intros [Hc|[= -> ->]]; [|by rewrite lookup_insert_eq].
        rewrite lookup_insert_ne; [done|]. intros ->. congruence.
Qed.

Lemma claimAll_Ok kind key namespace storage claimed claimed' :
  claimAll kind key namespace storage claimed = Ok claimed' →
  ∃ paths, pathsOf key storage = Some paths ∧
           extendedBy claimed claimed' ((λ p, (p, namespace)) <$> paths).
Proof.
  unfold claimAll, pathsOf. destruct (storage !! key) as [entries|].
  - intros (l & Hl & Hfold)%bind_Ok. destruct entries; try done.
    simpl in Hl. simplify_eq. by eapply foldEach_claimStep.
  - intros [= <-]. exists []. split; [done|apply extendedBy_nil].
Qed.

Lemma deviceListStep_Ok D F ns D' F' :
  deviceListStep (D, F) ns = Ok (D', F') →
  ∃ ds fs, claimsOf "devices" ns = Some ds ∧ claimsOf "files" ns = Some fs ∧
           extendedBy D D' ds ∧ extendedBy F F' fs.
Proof.
  unfold deviceListStep. intros (nsConf & Hns & H)%bind_Ok.
  destruct ns; try done. simpl in Hns. simplify_eq.
  apply bind_Ok in H as (namespace & Hname & H).
  apply bind_Ok in H as (storage & Hst & H).
  apply bind_Ok in H as (deviceList & Hd & H).
  apply bind_Ok in H as (fileList & Hf & H). simplify_eq. simpl in *.
  unfold index in Hname, Hst.
  destruct (nsConf !! "name") as [[]|] eqn:Hn; try done.
  destruct (nsConf !! "storage-engine") as [[]|] eqn:Hs; try done.
  simpl in Hname, Hst. simplify_eq.
  apply claimAll_Ok in Hd as (ds & Hds & ?), Hf as (fs & Hfs & ?).
  eexists _, _. rewrite Hds, Hfs. done.
Qed.

Lemma foldEach_deviceListStep D F l D' F' :
  foldEach deviceListStep (D, F) l = Ok (D', F') →
  ∃ ds fs, allClaims "devices" l = Some ds ∧ allClaims "files" l = Some fs ∧
           extendedBy D D' ds ∧ extendedBy F F' fs.
Proof.
  revert D F. induction l as [|ns l IH]; intros D F; simpl.
  - intros [= <- <-]. exists [], []. split_and!; try done; apply extendedBy_nil.
  - intros ([D1 F1] & Hstep & Hrest)%bind_Ok.
    apply deviceListStep_Ok in Hstep as (ds1 & fs1 & Hd1 & Hf1 & ? & ?).
    apply IH in Hrest as (ds2 & fs2 & Hd2 & Hf2 & ? & ?).
    exists (ds1 ++ ds2)%list, (fs1 ++ fs2)%list. unfold allClaims in *. simpl.
    rewrite Hd1, Hf1. simpl.
    destruct (mapM (claimsOf "devices") l); [|done].
    destruct (mapM (claimsOf "files") l); [|done]. simpl in *. simplify_eq.
    split_and!; try done; by eapply extendedBy_app.
Qed.

Lemma foldEach_claimStep_progress kind namespace claimed l paths :
  mapM pathOf l = Some paths → NoDup paths →
  (∀ p, p ∈ paths → claimed !! p = None) →
  ∃ claimed', foldEach (claimStep kind namespace) claimed l = Ok claimed'.
Proof.
  revert claimed paths. induction l as [|d l IH]; intros claimed paths; simpl.
  - eauto.
  - destruct d as [| | |device| |]; try done. simpl.
    destruct (mapM pathOf l) as [rest|] eqn:Hrest; [|done]. simpl.
    intros [= <-] [Hfresh Hnd]%NoDup_cons Hfree.
    assert (claimStep kind namespace claimed (VString device) =
            Ok (<[device:=namespace]> claimed)) as ->.
    { unfold claimStep. simpl. by rewrite Hfree by left. }
    simpl. eapply IH; [done|done|]. intros p Hp.
    rewrite lookup_insert_ne; [apply Hfree; by right|]. by intros ->.
Qed.

Lemma claimAll_progress kind key namespace storage claimed paths :
  pathsOf key storage = Some paths → NoDup paths →
  (∀ p, p ∈ paths → claimed !! p = None) →
  ∃ claimed', claimAll kind key namespace storage claimed = Ok claimed'.
Proof.
  unfold pathsOf, claimAll. destruct (storage !! key) as [[]|]; try done; [|eauto].
  simpl. apply foldEach_claimStep_progress.
Qed.

Lemma claimsOf_Some key ns claims :
  claimsOf key ns = Some claims →
  ∃ nsConf name storage paths,
    ns = VMap nsConf ∧ nsConf !! "name" = Some (VString name) ∧
    nsConf !! "storage-engine" = Some (VMap storage) ∧
    pathsOf key storage = Some paths ∧ claims = (λ p, (p, name)) <$> paths.
Proof.
  unfold claimsOf. destruct ns as [| | | | |nsConf]; try done.
  destruct (nsConf !! "name") as [[| | |name| |]|] eqn:Hn; try done.
  destruct (nsConf !! "storage-engine") as [[| | | | |storage]|] eqn:Hs; try done.
  destruct (pathsOf key storage) as [paths|] eqn:Hp; [|done].
  intros [= <-]. by exists nsConf, name, storage, paths.
Qed.

Lemma fst_claims (name : string) (paths : list string) :
  ((λ p, (p, name)) <$> paths).*1 = paths.
Proof. rewrite <- list_fmap_compose. apply list_fmap_id. Qed.

Lemma deviceListStep_progress D F ns ds fs :
  claimsOf "devices" ns = Some ds → claimsOf "files" ns = Some fs →
  NoDup ds.*1 → NoDup fs.*1 →
  (∀ p, p ∈ ds.*1 → D !! p = None) → (∀ p, p ∈ fs.*1 → F !! p = None) →
  ∃ lists, deviceListStep (D, F) ns = Ok lists.
Proof.
  intros (nsConf & name & storage & dpaths & -> & Hn & Hs & Hd & ->)%claimsOf_Some Hfs.
  apply claimsOf_Some in Hfs as (? & name' & storage' & fpaths & [= <-] & Hn' & Hs' & Hf & ->).
  rewrite Hn in Hn'. rewrite Hs in Hs'. injection Hn' as <-. injection Hs' as <-.
  rewrite !fst_claims. intros Hdnd Hfnd Hdfree Hffree.
  unfold deviceListStep, index. simpl. rewrite Hn, Hs. simpl.
  destruct (claimAll_progress "device" "devices" name storage D dpaths) as [D' ->];
    [done..|].
  destruct (claimAll_progress "file" "files" name storage F fpaths) as [F' ->];
    [done..|].
  simpl. eauto.
Qed.

Lemma allClaims_cons key ns l claims :
  allClaims key (ns :: l) = Some claims ↔
    ∃ c1 c2, claimsOf key ns = Some c1 ∧ allClaims key l = Some c2 ∧
             claims = (c1 ++ c2)%list.
Proof.
  unfold allClaims. simpl. destruct (claimsOf key ns) as [c1|]; simpl.
  - destruct (mapM (claimsOf key) l) as [cs|]; simpl; naive_solver.
  - naive_solver.
Qed.

Lemma foldEach_deviceListStep_progress D F l ds fs :
  allClaims "devices" l = Some ds → allClaims "files" l = Some fs →
  NoDup ds.*1 → NoDup fs.*1 →
  (∀ p, p ∈ ds.*1 → D !! p = None) → (∀ p, p ∈ fs.*1 → F !! p = None) →
  ∃ lists, foldEach deviceListStep (D, F) l = Ok lists.
Proof.
  revert D F ds fs. induction l as [|ns l IH]; intros D F ds fs; simpl; [eauto|].
  intros (d1 & d2 & Hd1 & Hd2 & ->)%allClaims_cons
         (f1 & f2 & Hf1 & Hf2 & ->)%allClaims_cons.
  rewrite !fmap_app. intros (Hd1nd & Hdsep & Hd2nd)%NoDup_app
    (Hf1nd & Hfsep & Hf2nd)%NoDup_app Hdfree Hffree.
  destruct (deviceListStep_progress D F ns d1 f1) as [[D1 F1] Hstep]; try done.
  { intros p Hp. apply Hdfree, elem_of_app. by left. }
  { intros p Hp. apply Hffree, elem_of_app. by left. }
  rewrite Hstep. simpl.
  apply deviceListStep_Ok in Hstep as (d1' & f1' & ? & ? & (_ & _ & HD1) & (_ & _ & HF1)).
  simplify_eq. eapply IH; try done.
  - intros p Hp. destruct (D1 !! p) as [n|] eqn:Hl; [|done].
    apply HD1 in Hl as [Hl|Hl].
    + rewrite Hdfree in Hl; [done|]. apply elem_of_app. by right.
    + exfalso. apply (Hdsep p); [|done]. apply list_elem_of_fmap. by exists (p, n).
  - intros p Hp. destruct (F1 !! p) as [n|] eqn:Hl; [|done].
    apply HF1 in Hl as [Hl|Hl].
    + rewrite Hffree in Hl; [done|]. apply elem_of_app. by right.
    + exfalso. apply (Hfsep p); [|done]. apply list_elem_of_fmap. by exists (p, n).
Qed.

(** X6. [validateStorageEngineDeviceList] succeeds exactly when every
    namespace is a map with a string name and a storage engine whose
    devices and files are lists of strings, and no device, and no file, is
    listed twice, be it by one namespace or by two. The two maps it returns
    then send each listed device and each listed file to the name of the
    namespace that lists it, and hold nothing else. *)
Theorem validateStorageEngineDeviceList_claims
    (nsConfList : list value) (deviceList fileList : gmap string string) :
  validateStorageEngineDeviceList nsConfList = Ok (deviceList, fileList) ↔
    ∃ devices files,
      allClaims "devices" nsConfList = Some devices ∧
      allClaims "files" nsConfList = Some files ∧
      NoDup devices.*1 ∧ NoDup files.*1 ∧
      (∀ device namespace,
         deviceList !! device = Some namespace ↔ (device, namespace) ∈ devices) ∧
      (∀ file namespace,
         fileList !! file = Some namespace ↔ (file, namespace) ∈ files).
Proof.
  unfold validateStorageEngineDeviceList. split.
  - intros (ds & fs & ? & ? & (? & _ & HD) & (? & _ & HF))%foldEach_deviceListStep.
    exists ds, fs. split_and!; try done.
    + intros p n. rewrite HD, lookup_empty. naive_solver.
    + intros p n. rewrite HF, lookup_empty. naive_solver.
  - intros (ds & fs & Hds & Hfs & Hdnd & Hfnd & HD & HF).
    destruct (foldEach_deviceListStep_progress ∅ ∅ nsConfList ds fs)
      as [[D' F'] Hok]; try done.
    rewrite Hok.
    apply foldEach_deviceListStep in Hok
      as (ds' & fs' & ? & ? & (_ & _ & HD') & (_ & _ & HF')).
    simplify_eq. f_equal. f_equal.
    + apply map_eq. intros p. apply option_eq. intros n.
      rewrite HD', HD, lookup_empty. naive_solver.
    + apply map_eq. intros p. apply option_eq. intros n.
      rewrite HF', HF, lookup_empty. naive_solver.
Qed.

Lemma reuseStep_Ok kind namespace claimed d :
  reuseStep kind namespace claimed d = Ok tt ↔
    ∃ path, pathOf d = Some path ∧
      ∀ current, claimed !! path = Some current → current = "" ∨ current = namespace.
Proof.
  unfold reuseStep. destruct d as [| | |path| |]; simpl;
    try (split; [done|by intros (? & ? & _)]).
  destruct (claimed !! path) as [current|] eqn:Hc; simpl.
  - destruct (decide (current = "")) as [H1|H1], (decide (current = namespace)) as [H2|H2].
    all: rewrite ?(bool_decide_eq_true_2 _ H1), ?(bool_decide_eq_false_2 _ H1),
           ?(bool_decide_eq_true_2 _ H2), ?(bool_decide_eq_false_2 _ H2); simpl.
    all: naive_solver.
  - naive_solver.
Qed.

Lemma forEach_reuseStep kind namespace claimed l :
  forEach (reuseStep kind namespace claimed) l = Ok tt ↔
    ∃ paths, mapM pathOf l = Some paths ∧
      reusable claimed ((λ p, (p, namespace)) <$> paths).
Proof.
  unfold reusable. induction l as [|d l IH]; simpl.
  - split; [|done]. intros _. exists []. split; [done|].
    by intros ? ? ? ?%elem_of_nil.
  - rewrite bind_Ok. split.
    + intros ([] & (path & Hd & Hpath)%reuseStep_Ok & (paths & Hl & Hpaths)%IH).
      exists (path :: paths). rewrite Hd, Hl. split; [done|].
      intros p old current [[= -> ->]|Hin]%elem_of_cons; [apply Hpath|].
      by apply Hpaths.
    + intros (paths & Hl & Hpaths).
      destruct (pathOf d) as [path|] eqn:Hd; [|done]. simpl in Hl.
      destruct (mapM pathOf l) as [rest|] eqn:Hrest; [|done]. simpl in Hl.
      injection Hl as <-. exists tt. split.
      * apply reuseStep_Ok. exists path. split; [done|]. intros current.
        apply Hpaths. rewrite fmap_cons. left.
      * apply IH. exists rest. split; [done|]. intros p old current Hin.
        apply Hpaths. rewrite fmap_cons. by right.
Qed.

Lemma reuseAll_Ok kind key namespace storage claimed :
  reuseAll kind key namespace storage claimed = Ok tt ↔
    ∃ paths, pathsOf key storage = Some paths ∧
      reusable claimed ((λ p, (p, namespace)) <$> paths).
Proof.
  unfold reuseAll, pathsOf. destruct (storage !! key) as [entries|].
  - destruct entries; simpl; try (split; [done|by intros (? & ? & _)]).
    apply forEach_reuseStep.
  - split; [|done]. intros _. exists []. split; [done|].
    by intros ? ? ? ?%elem_of_nil.
Qed.

Lemma reusable_app claimed c1 c2 :
  reusable claimed (c1 ++ c2) ↔ reusable claimed c1 ∧ reusable claimed c2.
Proof.
  unfold reusable. split.
  - intros H. split; intros p old cur Hin; apply H, elem_of_app; auto.
  - intros [H1 H2] p old cur [?|?]%elem_of_app; eauto.
Qed.

Lemma forEach_status deviceList fileList statusNsConfList :
  forEach (λ statusNsConfInterface,
    nsConf ← as_map statusNsConfInterface;
    namespace ← as_string (index nsConf "name");
    storage ← as_map (index nsConf "storage-engine");
    _ ← reuseAll "device" "devices" namespace storage deviceList;
    reuseAll "file" "files" namespace storage fileList) statusNsConfList = Ok tt ↔
  ∃ devices files,
    allClaims "devices" statusNsConfList = Some devices ∧
    allClaims "files" statusNsConfList = Some files ∧
    reusable deviceList devices ∧ reusable fileList files.
Proof.
  induction statusNsConfList as [|ns l IH].
  - simpl. split; [|done]. intros _. exists [], [].
    split_and!; try done; by intros ? ? ? ?%elem_of_nil.
  - cbn [forEach]. rewrite bind_Ok. split.
    + intros ([] & Hns & (ds & fs & Hds & Hfs & Hd & Hf)%IH).
      apply bind_Ok in Hns as (nsConf & Hmap & Hns).
      destruct ns; try done. simpl in Hmap. simplify_eq.
      apply bind_Ok in Hns as (namespace & Hname & Hns).
      apply bind_Ok in Hns as (storage & Hst & Hns).
      apply bind_Ok in Hns as ([] & (dp & Hdp & Hdr)%reuseAll_Ok
                                  & (fp & Hfp & Hfr)%reuseAll_Ok).
      unfold index in Hname, Hst.
      destruct (nsConf !! "name") as [[]|] eqn:Hn; try done.
      destruct (nsConf !! "storage-engine") as [[]|] eqn:Hs; try done.
      simpl in Hname, Hst. simplify_eq.
      eexists _, _. rewrite !allClaims_cons. split_and!.
      * eexists _, _. split_and!; [|done|done]. simpl. by rewrite Hn, Hs, Hdp.
      * eexists _, _. split_and!; [|done|done]. simpl. by rewrite Hn, Hs, Hfp.
      * by apply reusable_app.
      * by apply reusable_app.
    + intros (ds & fs & (d1 & d2 & Hd1 & Hd2 & ->)%allClaims_cons
                      & (f1 & f2 & Hf1 & Hf2 & ->)%allClaims_cons
                      & [Hdr1 Hdr2]%reusable_app & [Hfr1 Hfr2]%reusable_app).
      exists tt. split; [|apply IH; by exists d2, f2].
      apply claimsOf_Some in Hd1 as (nsConf & name & storage & dp & -> & Hn & Hs & Hdp & ->).
      apply claimsOf_Some in Hf1 as (? & name' & storage' & fp & [= <-] & Hn' & Hs' & Hfp & ->).
      rewrite Hn in Hn'. rewrite Hs in Hs'. injection Hn' as <-. injection Hs' as <-.
      unfold index. simpl. rewrite Hn, Hs. simpl.
      rewrite (proj2 (reuseAll_Ok "device" "devices" name storage deviceList)) by eauto.
      simpl. apply reuseAll_Ok. eauto.
Qed.

(** X7. [validateStorageEngineDeviceListUpdate] accepts exactly when the
    incoming namespaces pass [validateStorageEngineDeviceList], the
    namespaces of the status are well typed, and every device, and every
    file, that a namespace of the status lists is, in the incoming
    configuration, listed by no namespace, or by a namespace of the same
    name, or by a namespace whose name is the empty string. *)
Theorem validateStorageEngineDeviceListUpdate_accepts
    (nsConfList statusNsConfList : list value) :
  validateStorageEngineDeviceListUpdate nsConfList statusNsConfList = Ok tt ↔
    ∃ deviceList fileList statusDevices statusFiles,
      validateStorageEngineDeviceList nsConfList = Ok (deviceList, fileList) ∧
      allClaims "devices" statusNsConfList = Some statusDevices ∧
      allClaims "files" statusNsConfList = Some statusFiles ∧
      reusable deviceList statusDevices ∧ reusable fileList statusFiles.
Proof.
  unfold validateStorageEngineDeviceListUpdate. rewrite bind_Ok. split.
  - intros ([deviceList fileList] & Hlists & Hstatus).
    apply forEach_status in Hstatus as (sd & sf & ? & ? & ? & ?).
    by exists deviceList, fileList, sd, sf.
  - intros (deviceList & fileList & sd & sf & Hlists & ? & ? & ? & ?).
    exists (deviceList, fileList). split; [done|].
    apply forEach_status. by exists sd, sf.
Qed.

(** ** Namespaces of an accepted configuration *)

Lemma validateNamespaceConfig_Ok nsList storage clSize :
  validateNamespaceConfig nsList storage clSize = Ok tt →
  nsList ≠ [] ∧
  ∃ block files lists,
    getAerospikeStorageList storage true = Ok (block, files) ∧
    forEach (checkNamespace storage block files clSize) nsList = Ok tt ∧
    validateStorageEngineDeviceList nsList = Ok lists ∧
    forEach (checkIndexType storage files) nsList = Ok tt.
Proof.
  unfold validateNamespaceConfig. case_decide as Hlen; [done|]. intros H.
  split; [by intros ->|].
  apply bind_Ok in H as ([block files] & Hlists & H).
  apply bind_Ok in H as ([] & Hns & H).
  apply bind_Ok in H as (lists & Hdev & H).
  by exists block, files, lists.
Qed.

Lemma validateNamespaceReplicationFactor_Ok nsConf clSize :
  validateNamespaceReplicationFactor nsConf clSize = Ok tt →
  nsConf !! "strong-consistency" = Some (VBool true) →
  ∃ rf, getNamespaceReplicationFactor nsConf = Ok rf ∧ rf ≤ clSize.
Proof.
  unfold validateNamespaceReplicationFactor, IsNSSCEnabled.
  intros (rf & Hrf & H)%bind_Ok Hsc. rewrite Hsc in H. simpl in H.
  case_bool_decide; [done|]. exists rf. split; [done|lia].
Qed.

Lemma isMRTFieldSet_true nsConf :
  isMRTFieldSet nsConf = true ↔
    is_Some (nsConf !! "mrt-duration") ∨ is_Some (nsConf !! "disable-mrt-writes").
Proof.
  unfold isMRTFieldSet. simpl. rewrite orb_false_r, orb_true_iff.
  by rewrite !bool_decide_eq_true.
Qed.

Lemma validateMRTFields_Ok nsConf :
  validateMRTFields nsConf = Ok tt →
  is_Some (nsConf !! "mrt-duration") ∨ is_Some (nsConf !! "disable-mrt-writes") →
  nsConf !! "strong-consistency" = Some (VBool true).
Proof.
  unfold validateMRTFields, IsNSSCEnabled. intros H Hmrt%isMRTFieldSet_true.
  rewrite Hmrt in H. destruct (nsConf !! "strong-consistency") as [[|[]| | | |]|]; done.
Qed.

Lemma checkNamespace_Ok storage block files clSize ns :
  checkNamespace storage block files clSize ns = Ok tt →
  ∃ nsConf st,
    ns = VMap nsConf ∧
    validateNamespaceReplicationFactor nsConf clSize = Ok tt ∧
    validateMRTFields nsConf = Ok tt ∧
    nsConf !! "storage-engine" = Some (VMap st) ∧
    (st !! "type" = Some (VString "memory") ∨
     ((st !! "type" = Some (VString "device") ∨ st !! "type" = Some (VString "pmem")) ∧
      (∀ devices, st !! "devices" = Some devices →
         checkDevices storage block (VMap st) devices = Ok tt) ∧
      (∀ entries, st !! "files" = Some entries →
         checkFiles storage files (VMap st) entries = Ok tt))).
Proof.
  unfold checkNamespace. destruct ns as [| | | | |nsConf]; try done. intros H.
  apply bind_Ok in H as ([] & Hrf & H). apply bind_Ok in H as ([] & Hmrt & H).
  destruct (nsConf !! "storage-engine") as [nsStorage|] eqn:Hst; [|done].
  case_decide; [done|].
  apply bind_Ok in H as (inMemory & Hmem & H).
  unfold isInMemoryNamespace in Hmem. rewrite Hst in Hmem.
  apply bind_Ok in Hmem as (st & Hmap & Hmem).
  destruct nsStorage; try done. simpl in Hmap. simplify_eq.
  exists nsConf, st. split_and!; try done.
  destruct (st !! "type") as [typeStr|] eqn:Hty; simpl in H.
  - destruct (is_string typeStr "memory") eqn:Hm.
    + left. unfold is_string in Hm. apply bool_decide_eq_true in Hm. by subst.
    + right. apply bind_Ok in H as (deviceOrPmem & Hdp & H).
      unfold isDeviceOrPmemNamespace in Hdp. rewrite Hst in Hdp. simpl in Hdp.
      rewrite Hty in Hdp. simplify_eq.
      destruct (is_string typeStr "device" || is_string typeStr "pmem") eqn:Hk; [|done].
      simpl in H. apply bind_Ok in H as ([] & Hd & Hf). split_and!.
      * unfold is_string in Hk. apply orb_true_iff in Hk as [Hk|Hk];
          apply bool_decide_eq_true in Hk; subst; auto.
      * intros devices Hdev. by rewrite Hdev in Hd.
      * intros entries Hfiles. by rewrite Hfiles in Hf.
  - apply bind_Ok in H as (deviceOrPmem & Hdp & H).
    unfold isDeviceOrPmemNamespace in Hdp. rewrite Hst in Hdp. simpl in Hdp.
    rewrite Hty in Hdp. by simplify_eq.
Qed.

(** X8. In a list of namespaces that [validateNamespaceConfig] accepts, a
    namespace with [strong-consistency] true has a replication factor that
    does not exceed the cluster size, and a namespace that sets
    [mrt-duration] or [disable-mrt-writes] has [strong-consistency]
    true. *)
Theorem validateNamespaceConfig_strong_consistency
    (nsConfInterfaceList : list value) (storage : AerospikeStorageSpec) (clSize : Z)
    (nsConf : gmap string value) :
  validateNamespaceConfig nsConfInterfaceList storage clSize = Ok tt →
  VMap nsConf ∈ nsConfInterfaceList →
  (nsConf !! "strong-consistency" = Some (VBool true) →
     ∃ rf, getNamespaceReplicationFactor nsConf = Ok rf ∧ rf ≤ clSize) ∧
  (is_Some (nsConf !! "mrt-duration") ∨ is_Some (nsConf !! "disable-mrt-writes") →
     nsConf !! "strong-consistency" = Some (VBool true)).
Proof.
  intros (_ & block & files & lists & _ & Hns & _)%validateNamespaceConfig_Ok Hin.
  eapply forEach_Ok_elem in Hns; [|done].
  apply checkNamespace_Ok in Hns as (? & st & [= <-] & Hrf & Hmrt & _).
  split.
  - by apply validateNamespaceReplicationFactor_Ok.
  - by apply validateMRTFields_Ok.
Qed.

Lemma allClaims_elem key l claims ns :
  allClaims key l = Some claims → ns ∈ l → ∃ c, claimsOf key ns = Some c.
Proof.
  revert claims. induction l as [|x l IH]; intros claims; [by intros _ ?%elem_of_nil|].
  intros (c1 & c2 & Hc1 & Hc2 & ->)%allClaims_cons [->|Hin]%elem_of_cons; eauto.
Qed.

(** X9. A list of namespaces that [validateNamespaceConfig] accepts is not
    empty, and each of its namespaces is a map with a string name and a
    storage engine that is a map of type [memory], [device] or [pmem]. *)
Theorem validateNamespaceConfig_shape
    (nsConfInterfaceList : list value) (storage : AerospikeStorageSpec) (clSize : Z) :
  validateNamespaceConfig nsConfInterfaceList storage clSize = Ok tt →
  nsConfInterfaceList ≠ [] ∧
  ∀ ns, ns ∈ nsConfInterfaceList →
    ∃ nsConf name storageConf kind,
      ns = VMap nsConf ∧ nsConf !! "name" = Some (VString name) ∧
      nsConf !! "storage-engine" = Some (VMap storageConf) ∧
      storageConf !! "type" = Some (VString kind) ∧ kind ∈ storageEngineKinds.
Proof.
  intros (Hne & block & files & [D F] & _ & Hns & Hdev & _)%validateNamespaceConfig_Ok.
  split; [done|]. intros ns Hin.
  eapply forEach_Ok_elem in Hns; [|done].
  apply checkNamespace_Ok in Hns as (nsConf & st & -> & _ & _ & Hst & Hkind).
  apply foldEach_deviceListStep in Hdev as (ds & _ & Hds & _).
  destruct (allClaims_elem _ _ _ _ Hds Hin) as [c Hc].
  apply claimsOf_Some in Hc as (? & name & ? & _ & [= <-] & Hname & _).
  unfold storageEngineKinds.
  destruct Hkind as [?|[[?|?] _]].
  - exists nsConf, name, st, "memory". split_and!; try done. set_solver.
  - exists nsConf, name, st, "device". split_and!; try done. set_solver.
  - exists nsConf, name, st, "pmem". split_and!; try done. set_solver.
Qed.

Lemma checkDevices_Ok storage block nsStorage devices :
  checkDevices storage block nsStorage devices = Ok tt →
  pathLinesOk (ContainsString block) devices.
Proof.
  unfold checkDevices, pathLinesOk. destruct devices as [| | | |l|]; try done.
  case_decide as Hlen; [done|]. intros Hall. exists l.
  split_and!; [done|by intros ->|]. intros e He.
  eapply forEach_Ok_elem in Hall; [|done]. unfold checkDevice in Hall.
  destruct e as [| | |s| |]; try done. case_decide; [done|].
  exists s. split_and!; [done|lia|]. intros path Hpath.
  eapply forEach_Ok_elem in Hall; [|done]. simpl in Hall.
  by destruct (ContainsString block path).
Qed.

Lemma checkFiles_Ok storage files nsStorage entries :
  checkFiles storage files nsStorage entries = Ok tt →
  pathLinesOk (λ f, isFileStorageConfiguredForDir files (filepath_Dir f)) entries.
Proof.
  unfold checkFiles, pathLinesOk. destruct entries as [| | | |l|]; try done.
  case_decide as Hlen; [done|]. intros Hall. exists l.
  split_and!; [done|by intros ->|]. intros e He.
  eapply forEach_Ok_elem in Hall; [|done]. unfold checkFile in Hall.
  destruct e as [| | |s| |]; try done. case_decide; [done|].
  exists s. split_and!; [done|lia|]. intros path Hpath.
  eapply forEach_Ok_elem in Hall; [|done]. simpl in Hall.
  by destruct (isFileStorageConfiguredForDir files (filepath_Dir path)).
Qed.

(** X10. In a list of namespaces that [validateNamespaceConfig] accepts,
    the storage of a namespace lies on declared volumes. For a storage
    engine that is not of type [memory]: a [devices] or [files] entry is a
    list, not empty, of strings of at most two paths; every device path is
    one of the device paths of the storage specification, and the
    directory of every file path is covered by one of its mount paths. For
    an index that is not of type [shmem]: [mounts], when set, is a list,
    not empty, of mount paths of the storage specification. *)
Theorem validateNamespaceConfig_paths_declared
    (nsConfInterfaceList : list value) (storage : AerospikeStorageSpec) (clSize : Z)
    (blockStorageDeviceList fileStorageList : list string)
    (nsConf : gmap string value) :
  validateNamespaceConfig nsConfInterfaceList storage clSize = Ok tt →
  getAerospikeStorageList storage true = Ok (blockStorageDeviceList, fileStorageList) →
  VMap nsConf ∈ nsConfInterfaceList →
  (∀ storageConf entries,
     nsConf !! "storage-engine" = Some (VMap storageConf) →
     storageConf !! "type" ≠ Some (VString "memory") →
     (storageConf !! "devices" = Some entries →
        pathLinesOk (ContainsString blockStorageDeviceList) entries) ∧
     (storageConf !! "files" = Some entries →
        pathLinesOk (λ f, isFileStorageConfiguredForDir fileStorageList (filepath_Dir f))
                    entries)) ∧
  (∀ indexConf mounts,
     nsConf !! "index-type" = Some (VMap indexConf) →
     indexConf !! "type" ≠ Some (VString "shmem") →
     indexConf !! "mounts" = Some mounts →
     ∃ l, mounts = VList l ∧ l ≠ [] ∧
          ∀ mount, mount ∈ l → ∃ s, mount = VString s ∧ s ∈ fileStorageList).
Proof.
  intros (_ & block & files & lists & Hl & Hns & _ & Hidx)%validateNamespaceConfig_Ok
    Hlists Hin.
  rewrite Hl in Hlists. injection Hlists as <- <-.
  eapply forEach_Ok_elem in Hns; [|done]. eapply forEach_Ok_elem in Hidx; [|done].
  split.
  - intros storageConf entries Hst Hty.
    apply checkNamespace_Ok in Hns as (? & st & [= <-] & _ & _ & Hst' & Hkind).
    rewrite Hst in Hst'. injection Hst' as <-.
    destruct Hkind as [?|(_ & Hd & Hf)]; [done|]. split.
    + intros Hdev. eapply checkDevices_Ok. by apply Hd.
    + intros Hfiles. eapply checkFiles_Ok. by apply Hf.
  - intros indexConf mounts Hit Hty Hm. unfold checkIndexType in Hidx.
    unfold isShMemIndexTypeNamespace in Hidx. rewrite Hit in Hidx. simpl in Hidx.
    destruct (indexConf !! "type") as [typeStr|] eqn:Htype.
    + destruct (is_string typeStr "shmem") eqn:Hs.
      { unfold is_string in Hs. apply bool_decide_eq_true in Hs. by subst. }
      simpl in Hidx. rewrite Hm in Hidx.
      destruct mounts as [| | | |l|]; try done. case_decide as Hlen; [done|].
      exists l. split_and!; [done|by intros ->|]. intros mount Hmount.
      eapply forEach_Ok_elem in Hidx; [|done].
      destruct mount as [| | |s| |]; try done. exists s. split; [done|].
      unfold ContainsString in Hidx. by case_bool_decide.
    + simpl in Hidx. rewrite Hm in Hidx.
      destruct mounts as [| | | |l|]; try done. case_decide as Hlen; [done|].
      exists l. split_and!; [done|by intros ->|]. intros mount Hmount.
      eapply forEach_Ok_elem in Hidx; [|done].
      destruct mount as [| | |s| |]; try done. exists s. split; [done|].
      unfold ContainsString in Hidx. by case_bool_decide.
Qed.

(** ** Racks *)

Lemma foldEach_checkRack c ids delays racks ids' delays' :
  foldEach (checkRack c) (ids, delays) racks = Ok (ids', delays') →
  NoDup (ID <$> racks) ∧
  (∀ rack, rack ∈ racks → ID rack ∉ ids) ∧
  ids ⊆ ids' ∧ delays ⊆ delays' ∧
  ∀ rack, rack ∈ racks →
    ID rack ∈ ids' ∧ ID rack ≤ MaxRackID ∧
    (∀ input, InputAerospikeConfig rack = Some input →
       conf input !! "network" = None ∧ conf input !! "security" = None) ∧
    ∃ delay, GetMigrateFillDelay (AerospikeConfig rack) = Ok delay ∧ delay ∈ delays'.
Proof.
  revert ids delays. induction racks as [|rack racks IH]; intros ids delays;
    cbn [foldEach].
  - intros [= <- <-].
    split_and!; [constructor|by intros ? ?%elem_of_nil|done|done|
                 by intros ? ?%elem_of_nil].
  - intros ([ids1 delays1] & Hstep & Hrest)%bind_Ok.
    apply IH in Hrest as (Hnd & Hfresh & Hids & Hdelays & Hracks).
    unfold checkRack in Hstep.
    case_decide as Hdup; [done|]. case_decide as Hmax; [done|].
    apply bind_Ok in Hstep as ([] & Hinput & Hstep).
    apply bind_Ok in Hstep as (delay & Hdelay & Hstep). simplify_eq.
    split_and!.
    + rewrite fmap_cons. apply NoDup_cons. split; [|done].
      intros [r [Hid Hr]]%list_elem_of_fmap. apply (Hfresh r Hr). rewrite <- Hid. set_solver.
    + intros r [->|Hr]%elem_of_cons; [done|]. specialize (Hfresh r Hr). set_solver.
    + set_solver.
    + set_solver.
    + intros r [->|Hr]%elem_of_cons; [|by apply Hracks]. split_and!.
      * set_solver.
      * lia.
      * intros input Hin. rewrite Hin in Hinput. case_decide as Hset; [done|].
        rewrite !eq_None_not_Some. tauto.
      * exists delay. split; [done|]. set_solver.
Qed.

(** X11. In a descriptor that [validateRackConfig] accepts, no
    rack-enabled namespace name holds a space, no two racks have the same
    ID, no rack ID exceeds [MaxRackID], no rack gives a [network] or
    [security] section in its own configuration, and all racks have the
    same migrate-fill-delay. *)
Theorem validateRackConfig_racks (c : AerospikeCluster) :
  validateRackConfig c = Ok tt →
  let rackConfig := SpecRackConfig (Spec c) in
  (∀ nsName, nsName ∈ Namespaces rackConfig → strings_Contains nsName " " = false) ∧
  NoDup (ID <$> Racks rackConfig) ∧
  (∀ rack, rack ∈ Racks rackConfig →
     ID rack ≤ MaxRackID ∧
     ∀ input, InputAerospikeConfig rack = Some input →
       conf input !! "network" = None ∧ conf input !! "security" = None) ∧
  (∀ rack rack', rack ∈ Racks rackConfig → rack' ∈ Racks rackConfig →
     ∃ delay, GetMigrateFillDelay (AerospikeConfig rack) = Ok delay ∧
              GetMigrateFillDelay (AerospikeConfig rack') = Ok delay).
Proof.
  unfold validateRackConfig. intros H. simpl.
  apply bind_Ok in H as ([] & Hnames & H).
  apply bind_Ok in H as ([ids delays] & Hracks & H).
  case_decide as Hsize; [done|]. clear H. simpl in Hsize.
  apply foldEach_checkRack in Hracks as (Hnd & _ & _ & _ & Hracks).
  split_and!; [|done| |].
  - intros nsName Hin. eapply forEach_Ok_elem in Hnames; [|done]. simpl in Hnames.
    by destruct (strings_Contains nsName " ").
  - intros rack Hin. destruct (Hracks rack Hin) as (_ & ? & ? & _). done.
  - intros rack rack' Hin Hin'.
    destruct (Hracks rack Hin) as (_ & _ & _ & d & Hd & Hdin).
    destruct (Hracks rack' Hin') as (_ & _ & _ & d' & Hd' & Hdin').
    exists d. split; [done|]. rewrite Hd'. f_equal.
    destruct (decide (d = d')) as [|Hne]; [done|]. exfalso. apply Hsize.
    assert ({[d; d']} ⊆ delays) as Hsub by set_solver.
    apply subseteq_size in Hsub. rewrite size_union in Hsub by set_solver.
    rewrite !size_singleton in Hsub. lia.
Qed.

(** ** What acceptance of a descriptor entails *)

Lemma validate_Ok_parts c warnings :
  validate c = (warnings, Ok tt) →
  preliminaryChecksPass c ∧
  validateMaxUnavailable c = (warnings, Ok tt) ∧
  validateAfterMaxUnavailable c = Ok tt.
Proof.
  unfold validate, preliminaryChecksPass. intros H.
  case_decide; [done|].
  destruct (strings_Contains (Name c) " ") eqn:?; [done|].
  case_decide; [done|].
  destruct (strings_Contains (Namespace c) " ") eqn:?; [done|].
  destruct (isEnterprise (Image (Spec c))) eqn:?; [|done]. simpl in H.
  case_decide; [done|].
  destruct (validateMaxUnavailable c) as [warns [[]| |]]; simplify_eq; done.
Qed.

Lemma validateAfterMaxUnavailable_Ok c :
  validateAfterMaxUnavailable c = Ok tt →
  validateClusterSize (Size (Spec c)) = Ok tt ∧
  validateRackConfig c = Ok tt ∧
  validateSCNamespaces c = Ok tt.
Proof.
  unfold validateAfterMaxUnavailable. intros H.
  apply bind_Ok in H as (version & _ & H).
  apply bind_Ok in H as ([] & Hsize & H).
  do 5 (apply bind_Ok in H as ([] & _ & H)).
  apply bind_Ok in H as ([] & Hrc & H).
  do 3 (apply bind_Ok in H as ([] & _ & H)).
  done.
Qed.

(** X12. A descriptor that [validate] accepts has a name and a namespace
    that are not empty and hold no space, an image whose name, put in
    lower case by [strings.ToLower], contains [enterprise], and a size
    that is not 0 and not above 256. The warnings returned with the acceptance are the single
    warning about [spec.maxUnavailable] when [spec.disablePDB] is true,
    and none otherwise. *)
Theorem validate_accepted (c : AerospikeCluster) (warnings : list string) :
  validate c = (warnings, Ok tt) →
  Name c ≠ "" ∧ strings_Contains (Name c) " " = false ∧
  Namespace c ≠ "" ∧ strings_Contains (Namespace c) " " = false ∧
  strings_Contains (strings_ToLower (Image (Spec c))) "enterprise" = true ∧
  Size (Spec c) ≠ 0 ∧ Size (Spec c) ≤ 256 ∧
  warnings = (if GetBool (DisablePDB (Spec c)) then [pdbDisabledWarning] else []).
Proof.
  intros ((? & ? & ? & ? & ? & ?) & Hmu & Hafter)%validate_Ok_parts.
  apply validateAfterMaxUnavailable_Ok in Hafter as (Hsize & _).
  unfold validateClusterSize, maxEnterpriseClusterSize in Hsize.
  case_decide; [done|].
  split_and!; try done.
  unfold validateMaxUnavailable in Hmu.
  destruct (GetBool (DisablePDB (Spec c))); by injection Hmu as <-.
Qed.

Lemma NoDup_fmap_inj {A B} (f : A → B) (l : list A) x y :
  NoDup (f <$> l) → x ∈ l → y ∈ l → f x = f y → x = y.
Proof.
  induction l as [|a l IH]; [by intros _ ?%elem_of_nil|].
  rewrite fmap_cons. intros [Hfresh Hnd]%NoDup_cons [->|Hx]%elem_of_cons
    [->|Hy]%elem_of_cons Heq; try done.
  - exfalso. apply Hfresh. rewrite Heq. by apply list_elem_of_fmap_2.
  - exfalso. apply Hfresh. rewrite <- Heq. by apply list_elem_of_fmap_2.
  - by apply IH.
Qed.

Lemma find_Some_elem {A} (p : A → bool) (l : list A) x :
  List.find p l = Some x → x ∈ l ∧ p x = true.
Proof.
  intros [Hin Hp]%List.find_some. split; [by apply list_elem_of_In|done].
Qed.

Lemma find_None_elem {A} (p : A → bool) (l : list A) x :
  List.find p l = None → x ∈ l → p x = false.
Proof.
  intros Hnone Hin. apply list_elem_of_In in Hin.
  by apply (List.find_none _ _ Hnone).
Qed.

Lemma validateRackUpdate_identity c old oldRack newRack :
  validateRackUpdate c old = Ok tt →
  NoDup (ID <$> Racks (SpecRackConfig (Spec c))) →
  oldRack ∈ Racks (SpecRackConfig (Spec old)) →
  newRack ∈ Racks (SpecRackConfig (Spec c)) →
  ID oldRack = ID newRack →
  NodeName oldRack = NodeName newRack ∧ RackLabel oldRack = RackLabel newRack ∧
  Region oldRack = Region newRack ∧ Zone oldRack = Zone newRack.
Proof.
  unfold validateRackUpdate, DeepEqual. intros H Hnd Hold Hnew Hid.
  case_bool_decide as Heq.
  - rewrite <- Heq in Hold.
    by rewrite (NoDup_fmap_inj ID _ oldRack newRack Hnd Hold Hnew Hid).
  - eapply forEach_Ok_elem in H; [|done]. simpl in H.
    destruct (find _ _) as [r|] eqn:Hfind.
    + apply find_Some_elem in Hfind as [Hr Hrid].
      apply bool_decide_eq_true in Hrid.
      assert (r = newRack) as ->.
      { apply (NoDup_fmap_inj ID _ r newRack Hnd Hr Hnew). congruence. }
      unfold checkRackPair, DeepEqual in H.
      repeat case_bool_decide; simpl in H; done.
    + eapply find_None_elem in Hfind; [|done].
      by apply bool_decide_eq_false in Hfind.
Qed.

(** X13. An update that [ValidateUpdate] accepts leaves the identity of
    every rack untouched: a rack of the old descriptor and a rack of the
    new one that have the same ID have the same node name, rack label,
    region and zone. *)
Theorem rack_identity_immutable (oldObj newObj : AerospikeCluster)
    (warnings : list string) (oldRack newRack : Rack) :
  ValidateUpdate oldObj newObj = (warnings, Ok tt) →
  oldRack ∈ Racks (SpecRackConfig (Spec oldObj)) →
  newRack ∈ Racks (SpecRackConfig (Spec newObj)) →
  ID oldRack = ID newRack →
  NodeName oldRack = NodeName newRack ∧ RackLabel oldRack = RackLabel newRack ∧
  Region oldRack = Region newRack ∧ Zone oldRack = Zone newRack.
Proof.
  unfold ValidateUpdate. intros H.
  destruct (validate newObj) as [warns [[]| |]] eqn:Hvalidate; try done.
  injection H as -> H.
  apply validate_Ok_parts in Hvalidate as (_ & _ & Hafter).
  apply validateAfterMaxUnavailable_Ok in Hafter as (_ & Hrc & _).
  unfold validateRackConfig in Hrc.
  apply bind_Ok in Hrc as ([] & _ & Hrc).
  apply bind_Ok in Hrc as ([ids delays] & Hracks & _).
  apply foldEach_checkRack in Hracks as (Hnd & _).
  unfold validateAgainstOld in H.
  do 7 (apply bind_Ok in H as ([] & _ & H)).
  by apply validateRackUpdate_identity.
Qed.

(** X14. An update that [ValidateUpdate] accepts is a descriptor that
    [ValidateCreate] accepts with the same warnings, and it changes
    neither the multi-pod-per-host setting nor the fabric and TLS fabric
    network types, nor the custom network names of a fabric (or TLS
    fabric) whose type is [customInterface]. *)
Theorem ValidateUpdate_accepted (oldObj newObj : AerospikeCluster)
    (warnings : list string) :
  ValidateUpdate oldObj newObj = (warnings, Ok tt) →
  let oldSpec := Spec oldObj in
  let newSpec := Spec newObj in
  let oldPolicy := SpecNetworkPolicy oldSpec in
  let newPolicy := SpecNetworkPolicy newSpec in
  ValidateCreate newObj = (warnings, Ok tt) ∧
  GetBool (MultiPodPerHost (PodSpec newSpec)) = GetBool (MultiPodPerHost (PodSpec oldSpec)) ∧
  FabricType newPolicy = FabricType oldPolicy ∧
  TLSFabricType newPolicy = TLSFabricType oldPolicy ∧
  (FabricType newPolicy = NetworkTypeCustomInterface →
     CustomFabricNetworkNames newPolicy = CustomFabricNetworkNames oldPolicy) ∧
  (TLSFabricType newPolicy = NetworkTypeCustomInterface →
     CustomTLSFabricNetworkNames newPolicy = CustomTLSFabricNetworkNames oldPolicy).
Proof.
  unfold ValidateUpdate, ValidateCreate. intros H. simpl.
  destruct (validate newObj) as [warns [[]| |]] eqn:Hvalidate; try done.
  injection H as -> H. split; [done|].
  unfold validateAgainstOld in H.
  do 3 (apply bind_Ok in H as ([] & _ & H)).
  apply bind_Ok in H as ([] & Hmulti & H).
  apply bind_Ok in H as ([] & Hpolicy & _).
  unfold multiPodPerHostUpdate in Hmulti.
  unfold validateNetworkPolicyUpdate, DeepEqual in Hpolicy.
  split.
  { destruct (GetBool _), (GetBool _); done. }
  repeat case_bool_decide; simpl in Hpolicy; try done; split_and!; try done; congruence.
Qed.

(** ** Updates of a network connection *)

Lemma validateNetworkPortUpdate_Ok old new port :
  ¬ fieldChanged old new port → ¬ fieldChanged old new ("tls-" ++ port) →
  ¬ ((fieldRemoved old new port ∨ fieldRemoved old new ("tls-" ++ port)) ∧
     ¬ (is_Some (old !! port) ∧ is_Some (old !! ("tls-" ++ port)))) →
  validateNetworkPortUpdate old new port = Ok tt.
Proof.
  unfold validateNetworkPortUpdate, DeepEqual, fieldChanged, fieldRemoved.
  intros Hport Htls Hrem.
  destruct (old !! port) as [op|] eqn:Hop, (new !! port) as [np|] eqn:Hnp,
    (old !! ("tls-" ++ port)) as [ot|] eqn:Hot,
    (new !! ("tls-" ++ port)) as [nt|] eqn:Hnt; simpl;
    repeat case_bool_decide; simpl; try done;
    try (exfalso; apply Hport; by eauto);
    try (exfalso; apply Htls; by eauto);
    exfalso; apply Hrem; (split; [eauto|]); intros [[? ?] [? ?]]; done.
Qed.

#[local] Opaque networkPorts.

(** X15. Between two configurations whose network sections hold a map for
    the connection type, [validateNetworkConnectionUpdate] accepts the
    update exactly when it is none of the forbidden ones: a [tls-name]
    changed, a port or tls port changed, or a port or tls port removed
    from a connection that did not have both. Adding a field, and removing
    one of the two ports of a connection that had both, are accepted. *)
Theorem network_connection_update_accepted
    (newConf oldConf : gmap string value) (connectionType : string)
    (oldNet newNet oldCC newCC : gmap string value) :
  oldConf !! "network" = Some (VMap oldNet) →
  oldNet !! connectionType = Some (VMap oldCC) →
  newConf !! "network" = Some (VMap newNet) →
  newNet !! connectionType = Some (VMap newCC) →
  validateNetworkConnectionUpdate newConf oldConf connectionType = Ok tt ↔
    ¬ connectionUpdateForbidden oldCC newCC.
Proof.
  intros Hon Hoc Hnn Hnc. split.
  - intros Hok Hforb.
    destruct (validateNetworkConnectionUpdate_forbidden _ _ _ _ _ _ _
                Hon Hoc Hnn Hnc Hforb) as [e He]. congruence.
  - intros Hallowed. unfold validateNetworkConnectionUpdate, index.
    rewrite Hon; simpl. rewrite Hoc; simpl. rewrite Hnn; simpl. rewrite Hnc; simpl.
    assert (forEach (validateNetworkPortUpdate oldCC newCC) networkPorts = Ok tt) as ->.
    { apply forEach_Ok, Forall_forall. intros port Hport.
      apply validateNetworkPortUpdate_Ok.
      - intros Hch. apply Hallowed. right. left. exists port. split; [|done].
        unfold portFields. apply elem_of_app. by left.
      - intros Hch. apply Hallowed. right. left. exists ("tls-" ++ port). split; [|done].
        unfold portFields. apply elem_of_app. right. by apply list_elem_of_fmap_2.
      - intros [Hrem Hboth]. apply Hallowed. right. right. by exists port. }
    destruct (oldCC !! "tls-name") as [a|] eqn:Ha, (newCC !! "tls-name") as [b|] eqn:Hb;
      simpl; try done.
    unfold DeepEqual. case_bool_decide; [done|].
    exfalso. apply Hallowed. left. by exists a, b.
Qed.

#[local] Transparent networkPorts.

(** ** The summary of the namespaces of the racks *)

Lemma nsConfStep_summaryOf M entries v M' :
  (∀ name, M !! name = summaryOf name entries) → nsConfStep M v = Ok M' →
  ∀ name, M' !! name = summaryOf name (entries ++ [v]).
Proof.
  intros HM (n & Hn & ->)%nsConfStep_Ok name. unfold summaryOf.
  rewrite entriesNamed_app. destruct (decide (name = n)) as [->|Hne].
  - rewrite lookup_insert_eq.
    assert (entriesNamed n [v] = [v]) as ->.
    { unfold entriesNamed. by rewrite filter_cons_True. }
    rewrite last_snoc, length_app. simpl. do 2 f_equal.
    rewrite HM. unfold summaryOf.
    destruct (entriesNamed n entries) as [|w l] using rev_ind; simpl; [done|].
    rewrite last_snoc. simpl. rewrite length_app. simpl. lia.
  - rewrite lookup_insert_ne by done.
    assert (entriesNamed name [v] = []) as ->.
    { unfold entriesNamed. rewrite filter_cons_False; [done|congruence]. }
    rewrite app_nil_r. apply HM.
Qed.

Lemma foldEach_nsConfStep_summaryOf M entries l M' :
  (∀ name, M !! name = summaryOf name entries) → foldEach nsConfStep M l = Ok M' →
  ∀ name, M' !! name = summaryOf name (entries ++ l).
Proof.
  revert M entries. induction l as [|v l IH]; intros M entries HM; simpl.
  - intros [= <-]. by rewrite app_nil_r.
  - intros (M1 & Hstep & Hrest)%bind_Ok.
    rewrite (cons_middle v entries l), app_assoc. eapply IH; [|done].
    by eapply nsConfStep_summaryOf.
Qed.

Lemma foldEach_nsConfRack_summaryOf M entries racks M' :
  (∀ name, M !! name = summaryOf name entries) → foldEach nsConfRack M racks = Ok M' →
  ∀ name, M' !! name = summaryOf name (entries ++ (racks ≫= nsEntries)).
Proof.
  revert M entries. induction racks as [|rack racks IH]; intros M entries HM.
  - intros [= <-]. by rewrite app_nil_r.
  - cbn [foldEach]. intros (M1 & Hstep & Hrest)%bind_Ok.
    rewrite bind_cons, app_assoc. eapply IH; [|done].
    unfold nsConfRack, index in Hstep. unfold nsEntries.
    destruct (conf (AerospikeConfig rack) !! "namespaces") as [[| | | |l|]|];
      simpl in Hstep; try done.
    by eapply foldEach_nsConfStep_summaryOf.
Qed.

(** X16. The summary that [getNsConfForNamespaces] builds holds, for a
    name, the number of the namespace entries of that name over all racks
    (an entry that a rack lists twice counts twice) with the replication
    factor and the strong-consistency flag of the last of these entries,
    and it holds nothing for a name that no entry carries. *)
Theorem getNsConfForNamespaces_summary (rackConfig : RackConfig)
    (nsConfs : gmap string nsConf) (name : string) :
  getNsConfForNamespaces rackConfig = Ok nsConfs →
  nsConfs !! name = summaryOf name (allEntries rackConfig).
Proof.
  intros H. by apply (foldEach_nsConfRack_summaryOf ∅ [] _ _ (λ _, lookup_empty _)).
Qed.

(** ** Strong consistency and memory *)

Lemma foldEach_scNamespaceStep_memory tmp nsList s nsConf :
  foldEach scNamespaceStep tmp nsList = Ok s →
  VMap nsConf ∈ nsList →
  nsConf !! "strong-consistency" = Some (VBool true) →
  is_string (index nsConf "name") (default "" (scEnabledName (VMap nsConf))) = true ∧
  isInMemoryNamespace nsConf = Ok false.
Proof.
  revert tmp. induction nsList as [|ns nsList IH]; intros tmp; simpl.
  - by intros _ ?%elem_of_nil.
  - intros (tmp' & Hstep & Hrest)%bind_Ok [<-|Hin]%elem_of_cons Hsc; [|by eapply IH].
    unfold scNamespaceStep, IsNSSCEnabled, index in Hstep. simpl in Hstep.
    rewrite Hsc in Hstep. simpl in Hstep.
    apply bind_Ok in Hstep as (name & Hname & Hstep).
    apply bind_Ok in Hstep as (inMemory & Hmem & Hstep).
    destruct inMemory; [done|]. split; [|done].
    unfold index. rewrite Hsc.
    destruct (nsConf !! "name") as [[| | |n| |]|]; try done. simpl.
    unfold is_string. by apply bool_decide_eq_true.
Qed.

Lemma validateSCNamespaces_from_racks idx sc racks rack :
  validateSCNamespaces_from idx sc racks = Ok tt → rack ∈ racks →
  ∃ s, rackSCNamespaceSet rack = Ok s.
Proof.
  revert idx sc. induction racks as [|r rest IH]; intros idx sc; simpl.
  - by intros _ ?%elem_of_nil.
  - intros (tmp & Htmp & H)%bind_Ok [->|Hin]%elem_of_cons; [eauto|].
    repeat case_decide; try done; by eapply IH.
Qed.

(** X17. In a descriptor that [validateSCNamespaces] accepts, a namespace
    of a rack that has [strong-consistency] true has a string name and a
    storage engine that is not of type [memory]. *)
Theorem validateSCNamespaces_not_in_memory (c : AerospikeCluster) (rack : Rack)
    (nsList : list value) (nsConf : gmap string value) :
  validateSCNamespaces c = Ok tt →
  rack ∈ Racks (SpecRackConfig (Spec c)) →
  conf (AerospikeConfig rack) !! "namespaces" = Some (VList nsList) →
  VMap nsConf ∈ nsList →
  nsConf !! "strong-consistency" = Some (VBool true) →
  (∃ name, nsConf !! "name" = Some (VString name)) ∧
  isInMemoryNamespace nsConf = Ok false.
Proof.
  intros Hok Hrack Hns Hin Hsc.
  destruct (validateSCNamespaces_from_racks _ _ _ _ Hok Hrack) as [s Hs].
  unfold rackSCNamespaceSet, index in Hs. rewrite Hns in Hs. simpl in Hs.
  destruct (foldEach_scNamespaceStep_memory _ _ _ _ Hs Hin Hsc) as [Hname Hmem].
  split; [|done]. apply index_is_string in Hname. eauto.
Qed.

(** ** The CA of a TLS configuration in use *)

Lemma foldEach_usedTLSStep network used types used' name :
  foldEach (usedTLSStep network) used types = Ok used' →
  (name ∈ used ∨
   ∃ connectionType section, connectionType ∈ types ∧
     network !! connectionType = Some (VMap section) ∧
     section !! "tls-name" = Some (VString name)) →
  name ∈ used'.
Proof.
  revert used. induction types as [|ct types IH]; intros used; simpl.
  - intros [= <-] [?|(? & ? & ?%elem_of_nil & _)]; done.
  - intros (used1 & Hstep & Hrest)%bind_Ok Hname. eapply IH; [done|].
    unfold usedTLSStep, confKeyTLSName in Hstep.
    destruct Hname as [Hin|(ct' & section & [->|Hct]%elem_of_cons & Hsec & Htls)].
    + left. destruct (network !! ct) as [connectionConfig|]; [|by simplify_eq].
      apply bind_Ok in Hstep as (m & _ & Hstep).
      destruct (m !! "tls-name"); [|by simplify_eq].
      apply bind_Ok in Hstep as (n & _ & [= <-]). set_solver.
    + left. rewrite Hsec in Hstep. simpl in Hstep. rewrite Htls in Hstep.
      simpl in Hstep. simplify_eq. set_solver.
    + right. by exists ct', section.
Qed.

Lemma foldEach_oldTLSStep used files paths l files' paths' name :
  foldEach (oldTLSStep used) (files, paths) l = Ok (files', paths') →
  (∀ f, files' !! name = Some f →
     files !! name = Some f ∨
     ∃ entry, tlsEntry l name entry ∧ entry !! "ca-file" = Some (VString f)) ∧
  ((is_Some (files !! name) ∨
    (name ∈ used ∧ ∃ entry, tlsEntry l name entry ∧ is_Some (entry !! "ca-file"))) →
   is_Some (files' !! name)).
Proof.
  unfold tlsEntry. revert files paths.
  induction l as [|tls l IH]; intros files paths; cbn [foldEach].
  - intros [= <- <-]. split; [by left|].
    intros [?|(_ & ? & [?%elem_of_nil _] & _)]; done.
  - intros ([files1 paths1] & Hstep & Hrest)%bind_Ok.
    apply IH in Hrest as [Hfrom Hto].
    unfold oldTLSStep in Hstep.
    apply bind_Ok in Hstep as (tlsMap & Hmap & Hstep).
    destruct tls as [| | | | |m]; try done. simpl in Hmap. simplify_eq.
    apply bind_Ok in Hstep as (n & Hn & Hstep).
    assert (tlsMap !! "name" = Some (VString n)) as Hname.
    { unfold index in Hn. destruct (tlsMap !! "name") as [[]|]; simpl in Hn; by simplify_eq. }
    split.
    + intros f [Hf|(entry & [Hin ?] & ?)]%Hfrom.
      * case_decide as Hused; [|simplify_eq; by left].
        apply bind_Ok in Hstep as (caFileMap & Hfile & Hstep).
        apply bind_Ok in Hstep as (caPathMap & _ & Hstep). simplify_eq.
        destruct (tlsMap !! "ca-file") as [oldCAFile|] eqn:Hca; [|simplify_eq; by left].
        apply bind_Ok in Hfile as (file & Hfile & [= <-]).
        destruct oldCAFile; try done. simpl in Hfile. simplify_eq.
        destruct (decide (name = n)) as [->|Hne].
        -- rewrite lookup_insert_eq in Hf. simplify_eq. right. exists tlsMap.
           split_and!; [left|done|done].
        -- rewrite lookup_insert_ne in Hf by done. by left.
      * right. exists entry. split_and!; [by right|done|done].
    + intros Hsome. apply Hto.
      destruct Hsome as [Hsome|(Hused & entry & [[[= <-]|Hin]%elem_of_cons Hen] & Hca)].
      * left. case_decide; [|by simplify_eq].
        apply bind_Ok in Hstep as (caFileMap & Hfile & Hstep).
        apply bind_Ok in Hstep as (caPathMap & _ & Hstep). simplify_eq.
        destruct (tlsMap !! "ca-file"); [|by simplify_eq].
        apply bind_Ok in Hfile as (file & _ & [= <-]).
        destruct (decide (name = n)) as [->|]; [by rewrite lookup_insert_eq|].
        by rewrite lookup_insert_ne.
      * left. rewrite Hname in Hen. injection Hen as <-.
        rewrite decide_True in Hstep by done.
        apply bind_Ok in Hstep as (caFileMap & Hfile & Hstep).
        apply bind_Ok in Hstep as (caPathMap & _ & Hstep). simplify_eq.
        destruct Hca as [v Hca]. rewrite Hca in Hfile.
        apply bind_Ok in Hfile as (file & _ & [= <-]). by rewrite lookup_insert_eq.
      * right. split; [done|]. by exists entry.
Qed.

(** X18. When the [network.tls] list of an update differs from the
    previous one, a TLS configuration that a connection names on both
    sides keeps its CA: [validateTLSUpdate] does not accept the update if
    an entry of that name, one of whose previous entries had a [ca-file],
    now has neither [ca-file] nor [ca-path], or has a [ca-file] that none
    of the previous entries of that name had. *)
Theorem validateTLSUpdate_keeps_ca (oldConf newConf oldNetwork newNetwork : gmap string value)
    (oldList newList : list value) (name : string) (oldEntry newEntry : gmap string value) :
  oldConf !! "network" = Some (VMap oldNetwork) →
  newConf !! "network" = Some (VMap newNetwork) →
  oldNetwork !! "tls" = Some (VList oldList) →
  newNetwork !! "tls" = Some (VList newList) →
  oldList ≠ newList →
  usesTLS oldNetwork name → usesTLS newNetwork name →
  tlsEntry oldList name oldEntry → is_Some (oldEntry !! "ca-file") →
  tlsEntry newList name newEntry →
  (newEntry !! "ca-file" = None ∧ newEntry !! "ca-path" = None) ∨
  (∃ newFile, newEntry !! "ca-file" = Some (VString newFile) ∧
     ∀ entry, tlsEntry oldList name entry →
       entry !! "ca-file" ≠ Some (VString newFile)) →
  validateTLSUpdate oldConf newConf ≠ Ok tt.
Proof.
  intros Hon Hnn Hot Hnt Hne Huo Hun Hoe Hoca [Hin Hname] Hnew Hok.
  unfold validateTLSUpdate, index in Hok. rewrite Hon, Hnn in Hok. simpl in Hok.
  rewrite Hot, Hnt in Hok. unfold DeepEqual in Hok.
  rewrite bool_decide_eq_false_2 in Hok by congruence. simpl in Hok.
  apply bind_Ok in Hok as (newUsedTLS & Hnu & Hok).
  apply bind_Ok in Hok as (oldUsedTLS & Hou & Hok).
  apply bind_Ok in Hok as ([files paths] & Hmaps & Hok).
  eapply forEach_Ok_elem in Hok; [|done].
  assert (name ∈ newUsedTLS) as Hnused.
  { apply (foldEach_usedTLSStep newNetwork ∅ networkConnectionTypes _ _ Hnu).
    right. destruct Hun as (ct & sec & ?). eauto. }
  assert (name ∈ oldUsedTLS) as Housed.
  { apply (foldEach_usedTLSStep oldNetwork ∅ networkConnectionTypes _ _ Hou).
    right. destruct Huo as (ct & sec & ?). eauto. }
  apply (foldEach_oldTLSStep _ _ _ _ _ _ name) in Hmaps as [Hfrom Hto].
  destruct Hto as [oldFile HoldFile]; [right; split; [done|]; by exists oldEntry|].
  unfold newTLSCheck, index in Hok. simpl in Hok. rewrite Hname in Hok. simpl in Hok.
  rewrite decide_True in Hok by done. rewrite HoldFile in Hok.
  rewrite (bool_decide_eq_true_2 (is_Some (Some oldFile))) in Hok by eauto.
  simpl in Hok.
  destruct Hnew as [[Hnf Hnp]|(newFile & Hnf & Hfresh)].
  - rewrite Hnf, Hnp in Hok.
    rewrite !(bool_decide_eq_false_2 (is_Some None)) in Hok by (by intros [? ?]).
    done.
  - rewrite Hnf in Hok.
    rewrite (bool_decide_eq_true_2 (is_Some (Some (VString newFile)))) in Hok by eauto.
    rewrite orb_true_r in Hok. simpl in Hok. case_decide as Hsame; [done|].
    subst oldFile.
    apply Hfrom in HoldFile as [?|(entry & Hentry & Hca)]; [done|].
    by apply (Hfresh entry).
Qed.

(** ** The client certificate of the operator *)

(** X19. The client certificate specification of the operator passes its
    [validate] exactly when it gives one of its two sources and not the
    other, the source it gives names both the client certificate and the
    client key, and a secret source does not give both a file name and a
    source for the CA certificates. *)
Theorem client_cert_spec_accepted (c : ClientCert.AerospikeOperatorClientCertSpec) :
  ClientCert.validate c = Ok tt ↔
    (∃ source,
       ClientCert.SecretCertSource c = Some source ∧
       ClientCert.CertPathInOperator c = None ∧
       ClientCert.ClientCertFilename source ≠ "" ∧
       ClientCert.ClientKeyFilename source ≠ "" ∧
       (ClientCert.CaCertsFilename source = "" ∨ ClientCert.CaCertsSource source = None)) ∨
    (∃ source,
       ClientCert.CertPathInOperator c = Some source ∧
       ClientCert.SecretCertSource c = None ∧
       ClientCert.ClientCertPath source ≠ "" ∧
       ClientCert.ClientKeyPath source ≠ "").
Proof.
  unfold ClientCert.validate, ClientCert.IsClientCertConfigured.
  destruct c as [tlsName [secret|] [path|]]; simpl.
  - split; [done|]. intros [(? & ? & ? & _)|(? & ? & ? & _)]; done.
  - destruct secret as [[ca|] caFile cert key]; simpl;
      repeat case_bool_decide; simpl; split; try done;
      try (intros [(? & [= <-] & _ & ? & ? & Hca)|(? & ? & _)]; simpl in *;
           try done; by destruct Hca);
      intros _; left; eexists; split_and!; try done; simpl; auto.
  - destruct path as [cert key]; simpl;
      repeat case_bool_decide; simpl; split; try done;
      try (intros [(? & ? & _)|(? & [= <-] & _ & ? & ?)]; simpl in *; done);
      intros _; right; eexists; split_and!; done.
  - split; [done|]. intros [(? & ? & _)|(? & ? & _)]; done.
Qed.

(** X20. When the service section of the network configuration sets
    [tls-authenticate-client] to anything but the string ["false"],
    [validateClientCertSpec] accepts exactly when a client certificate
    specification is given that passes its [validate] and, unless the value
    is the string ["any"], has a TLS client name. The boolean false is not
    the string ["false"]: it asks for a certificate with a TLS client name,
    as a list of names does. *)
Theorem client_cert_required
    (clientCertSpec : option ClientCert.AerospikeOperatorClientCertSpec)
    (configSpec : AerospikeConfigSpec) (networkConf serviceConf : gmap string value)
    (tlsAuthenticateClientConfig : value) :
  conf configSpec !! "network" = Some (VMap networkConf) →
  networkConf !! "service" = Some (VMap serviceConf) →
  serviceConf !! "tls-authenticate-client" = Some tlsAuthenticateClientConfig →
  tlsAuthenticateClientConfig ≠ VString "false" →
  ClientCert.validateClientCertSpec clientCertSpec configSpec = Ok tt ↔
    ∃ spec, clientCertSpec = Some spec ∧ ClientCert.validate spec = Ok tt ∧
      (tlsAuthenticateClientConfig = VString "any" ∨ ClientCert.TLSClientName spec ≠ "").
Proof.
  intros Hnet Hsvc Htls Hfalse.
  unfold ClientCert.validateClientCertSpec, ClientCert.confKeyNetwork,
    ClientCert.confKeyNetworkService, DeepEqual.
  rewrite Hnet. simpl. rewrite Hsvc. simpl. rewrite Htls.
  rewrite bool_decide_eq_false_2 by congruence.
  case_bool_decide as Hany.
  - destruct clientCertSpec as [spec|]; [|naive_solver]. split.
    + intros Hok. exists spec. split_and!; [done|done|]. by left.
    + by intros (? & [= <-] & ? & _).
  - destruct clientCertSpec as [spec|]; [|naive_solver].
    case_decide as Hname.
    + split; [done|]. intros (? & [= <-] & _ & [?|?]); congruence.
    + split.
      * intros Hok. exists spec. split_and!; [done|done|]. by right.
      * by intros (? & [= <-] & ? & _).
Qed.

(** X28. [validateAerospikeConfig] accepts a configuration exactly when it
    holds a [service] map that sets [cluster-name] and does not set
    [advertise-ipv6] to true, a [network] map that [validateNetworkConfig]
    accepts, a [namespaces] list that [validateNamespaceConfig] accepts for
    the storage and the cluster size, and a [logging] list that
    [validateLoggingConf] accepts. *)
Theorem validateAerospikeConfig_accepts (c : AerospikeCluster)
    (configSpec : AerospikeConfigSpec) (storage : AerospikeStorageSpec) (clSize : Z) :
  validateAerospikeConfig c configSpec storage clSize = Ok tt ↔
  ∃ config serviceConf networkConf nsList loggingConfList,
    Value configSpec = Some config ∧
    config !! "service" = Some (VMap serviceConf) ∧
    (serviceConf !! "advertise-ipv6" = None ∨
     serviceConf !! "advertise-ipv6" = Some (VBool false)) ∧
    is_Some (serviceConf !! "cluster-name") ∧
    config !! "network" = Some (VMap networkConf) ∧
    validateNetworkConfig c networkConf = Ok tt ∧
    config !! "namespaces" = Some (VList nsList) ∧
    validateNamespaceConfig nsList storage clSize = Ok tt ∧
    config !! "logging" = Some (VList loggingConfList) ∧
    validateLoggingConf loggingConfList = Ok tt.
Proof.
  unfold validateAerospikeConfig, index. split.
  - intros H. destruct (Value configSpec) as [config|]; [|done].
    destruct (config !! "service") as [[| | | | |serviceConf]|] eqn:Hs; simpl in H; try done.
    apply bind_Ok in H as (advertise & Hadv & H).
    destruct advertise; [done|]. case_decide as Hcn; [done|].
    destruct (config !! "network") as [[| | | | |networkConf]|] eqn:Hn; simpl in H; try done.
    apply bind_Ok in H as ([] & Hnet & H).
    destruct (config !! "namespaces") as [[| | | |nsList|]|] eqn:Hns; try done.
    apply bind_Ok in H as ([] & Hnsok & H).
    destruct (config !! "logging") as [[| | | |logging|]|] eqn:Hl; simpl in H; try done.
    exists config, serviceConf, networkConf, nsList, logging.
    split_and!; try done.
    + destruct (serviceConf !! "advertise-ipv6") as [[]|]; simpl in Hadv; naive_solver.
    + by apply not_eq_None_Some.
  - intros (config & serviceConf & networkConf & nsList & logging & -> & -> & Hadv & Hcn &
            -> & Hnet & -> & Hns & -> & Hlog).
    simpl. rewrite Hnet, Hns. simpl.
    assert (match serviceConf !! "advertise-ipv6" with
            | Some val => as_bool val
            | None => Ok false
            end = Ok false) as -> by (destruct Hadv as [-> | ->]; done).
    simpl. case_decide as Hnone; [|done].
    rewrite Hnone in Hcn. by destruct Hcn.
Qed.

End MoreProperties.

(** * Properties of the checks on the pod, the network policy and the
      operations *)

Section DescriptorProperties.
Context `{collab : Collaborators}.

(** ** The pod specification *)

Lemma containerStep_Ok containerNames container containerNames' :
  containerStep containerNames container = Ok containerNames' ↔
    ContainerName container ≠ AerospikeServerContainerName ∧
    ContainerName container ≠ AerospikeInitContainerName ∧
    containerNames !! ContainerName container = None ∧
    containerNames' = <[ContainerName container := 1]> containerNames.
Proof.
  unfold containerStep. repeat case_bool_decide; simpl; try (split; [done|tauto]).
  case_decide as Hdup.
  - split; [done|]. intros (_ & _ & Hfree & _). rewrite Hfree in Hdup. by destruct Hdup.
  - apply eq_None_not_Some in Hdup. split; [by intros [= <-]|by intros (_ & _ & _ & ->)].
Qed.

Lemma foldEach_containerStep containerNames containers :
  (∃ containerNames', foldEach containerStep containerNames containers = Ok containerNames') ↔
    NoDup (ContainerName <$> containers) ∧
    ∀ container, container ∈ containers →
      containerNames !! ContainerName container = None ∧
      ContainerName container ≠ AerospikeServerContainerName ∧
      ContainerName container ≠ AerospikeInitContainerName.
Proof.
  revert containerNames. induction containers as [|x l IH]; intros M; cbn [foldEach].
  - split; [|eauto]. intros _. split; [constructor|by intros ? ?%elem_of_nil].
  - rewrite fmap_cons, NoDup_cons. split.
    + intros [M' (M1 & (Hs & Hi & Hfree & ->)%containerStep_Ok & Hrest)%bind_Ok].
      destruct (proj1 (IH _) (ex_intro _ M' Hrest)) as [Hnd H]. split_and!.
      * intros [y [Hy Hin]]%list_elem_of_fmap. destruct (H y Hin) as [Hf _].
        rewrite <- Hy in Hf. by rewrite lookup_insert_eq in Hf.
      * done.
      * intros y [->|Hin]%elem_of_cons; [done|].
        destruct (H y Hin) as (Hf & ? & ?). split_and!; [|done|done].
        destruct (decide (ContainerName x = ContainerName y)) as [Heq|Hne].
        -- rewrite Heq in Hf. by rewrite lookup_insert_eq in Hf.
        -- by rewrite lookup_insert_ne in Hf.
    + intros [[Hfresh Hnd] H].
      destruct (H x) as (Hfree & Hs & Hi); [left|].
      destruct (proj2 (IH (<[ContainerName x := 1]> M))) as [M' HM'].
      { split; [done|]. intros y Hin.
        destruct (H y) as (Hf & ? & ?); [by right|]. split_and!; [|done|done].
        rewrite lookup_insert_ne; [done|]. intros Heq. apply Hfresh.
        rewrite Heq. by apply list_elem_of_fmap_2. }
      exists M'. apply bind_Ok. exists (<[ContainerName x := 1]> M).
      split; [by apply containerStep_Ok|done].
Qed.

Lemma validatePodSpecContainer_Ok containers :
  validatePodSpecContainer containers = Ok tt ↔
    NoDup (ContainerName <$> containers) ∧
    ∀ container, container ∈ containers →
      ContainerName container ≠ AerospikeServerContainerName ∧
      ContainerName container ≠ AerospikeInitContainerName.
Proof.
  unfold validatePodSpecContainer. rewrite bind_Ok. split.
  - intros (M & HM & _).
    destruct (proj1 (foldEach_containerStep ∅ _) (ex_intro _ M HM)) as [? H].
    split; [done|]. intros y Hy. by destruct (H y Hy) as (_ & ? & ?).
  - intros [Hnd H]. destruct (proj2 (foldEach_containerStep ∅ containers)) as [M HM].
    + split; [done|]. intros y Hy. split; [apply lookup_empty|by apply H].
    + by exists M.
Qed.

Lemma validateDNS_Ok dnsPolicy dnsConfig :
  validateDNS dnsPolicy dnsConfig = Ok tt ↔
    dnsPolicy ≠ "Default" ∧ (dnsPolicy = "None" → is_Some dnsConfig).
Proof.
  unfold validateDNS, DNSDefault, DNSNone. case_decide; [naive_solver|].
  case_bool_decide; destruct dnsConfig; simpl; split; try done; naive_solver.
Qed.

Lemma ValidateAerospikeObjectMeta_Ok aerospikeObjectMeta :
  ValidateAerospikeObjectMeta aerospikeObjectMeta = Ok tt ↔
    ∀ label, is_Some (Labels aerospikeObjectMeta !! label) →
      label ≠ AerospikeAppLabel ∧ label ≠ AerospikeRackIDLabel ∧
      label ≠ AerospikeCustomResourceLabel.
Proof.
  unfold ValidateAerospikeObjectMeta. rewrite forEach_Ok, Forall_forall. split.
  - intros H label [v Hv%elem_of_map_to_list]. specialize (H _ Hv). simpl in H.
    repeat case_bool_decide; simpl in H; done.
  - intros H [label v] Hv%elem_of_map_to_list. simpl.
    destruct (H label) as (? & ? & ?); [by eexists|].
    by rewrite !bool_decide_eq_false_2 by done.
Qed.

(** X21. [validatePodSpec] accepts a pod specification exactly when host
    networking is not combined with several pods per host, the DNS policy
    is not [Default], a DNS policy [None] comes with a DNS configuration,
    no label of the pod is one that the operator defines itself, and the
    sidecars and init containers, taken together, have names that differ
    from one another and from the two container names of the operator. *)
Theorem validatePodSpec_accepts (c : AerospikeCluster) :
  validatePodSpec c = Ok tt ↔
    let podSpec := PodSpec (Spec c) in
    let containers := (Sidecars podSpec ++ InitContainers podSpec)%list in
    ¬ (HostNetwork podSpec = true ∧ GetBool (MultiPodPerHost podSpec) = true) ∧
    DNSPolicy podSpec ≠ "Default" ∧
    (DNSPolicy podSpec = "None" → is_Some (DNSConfig podSpec)) ∧
    (∀ label, is_Some (Labels (PodAerospikeObjectMeta podSpec) !! label) →
       label ≠ AerospikeAppLabel ∧ label ≠ AerospikeRackIDLabel ∧
       label ≠ AerospikeCustomResourceLabel) ∧
    NoDup (ContainerName <$> containers) ∧
    (∀ container, container ∈ containers →
       ContainerName container ≠ AerospikeServerContainerName ∧
       ContainerName container ≠ AerospikeInitContainerName).
Proof.
  unfold validatePodSpec. cbv zeta.
  set (podSpec := PodSpec (Spec c)).
  destruct (HostNetwork podSpec) eqn:Hhost, (GetBool (MultiPodPerHost podSpec)) eqn:Hmulti;
    simpl; [split; [done|]; intros [H _]; by destruct H|..].
  all: rewrite bind_Ok; setoid_rewrite bind_Ok.
  all: split;
    [intros ([] & [? ?]%validateDNS_Ok & [] & Hm & [? ?]%validatePodSpecContainer_Ok);
     pose proof (proj1 (ValidateAerospikeObjectMeta_Ok _) Hm);
     split_and!; try done; by intros [? ?]
    |intros (_ & ? & ? & ? & ? & ?); exists tt; split; [by apply validateDNS_Ok|];
     exists tt; split; [by apply ValidateAerospikeObjectMeta_Ok|];
     by apply validatePodSpecContainer_Ok].
Qed.

(** ** Resources and limits *)

Lemma limitsCoverRequests_Some limits requests :
  limitsCoverRequests (Some {| Limits := limits; Requests := requests |}) ↔
    match limits, requests with
    | Some l, Some q => Cpu q ≤ Cpu l ∧ Memory q ≤ Memory l
    | _, _ => True
    end.
Proof.
  unfold limitsCoverRequests. split.
  - intros H. destruct limits as [l|], requests as [q|]; try done.
    by apply (H _ l q eq_refl).
  - intros H r l q [= <-]. simpl. intros -> ->. done.
Qed.

Lemma hasLimits_Some limits requests :
  hasLimits (Some {| Limits := limits; Requests := requests |}) ↔ is_Some limits.
Proof.
  unfold hasLimits. split.
  - intros (r & l & [= <-] & Hl). simpl in Hl. by rewrite Hl.
  - intros [l ->]. by eexists _, l.
Qed.

Lemma validateResourceAndLimits_Ok resources checkResourcesLimits :
  validateResourceAndLimits resources checkResourcesLimits = Ok tt ↔
    limitsCoverRequests resources ∧ (checkResourcesLimits = true → hasLimits resources).
Proof.
  unfold validateResourceAndLimits.
  destruct resources as [[limits requests]|]; simpl.
  - rewrite limitsCoverRequests_Some, hasLimits_Some.
    destruct checkResourcesLimits, limits as [l|], requests as [q|]; simpl;
      repeat case_bool_decide; simpl; split.
    all: first [done | intros [? ?]; lia | intros [_ H]; by destruct H
               | intros _; split; first [done|lia|by eauto] ].
  - unfold limitsCoverRequests, hasLimits. destruct checkResourcesLimits; split; try done.
    intros [_ H]. by destruct H as (? & ? & ? & _).
Qed.

(** X22. [validatePodSpecResourceAndLimits] accepts exactly when the
    limits of the Aerospike container cover its requests for CPU and for
    memory whenever it gives both limits and requests (a resource that a
    list leaves out counting as zero), and either there is no init
    container specification and every rack has the single cleanup thread,
    or the init container specification also has limits that cover its
    requests and, as soon as one rack has another number of cleanup
    threads, gives limits. *)
Theorem validatePodSpecResourceAndLimits_accepts (c : AerospikeCluster) :
  validatePodSpecResourceAndLimits c = Ok tt ↔
    limitsCoverRequests (Resources (PodAerospikeContainerSpec (PodSpec (Spec c)))) ∧
    match PodAerospikeInitContainerSpec (PodSpec (Spec c)) with
    | None =>
        ∀ rack, rack ∈ Racks (SpecRackConfig (Spec c)) →
          CleanupThreads (Storage rack) = AerospikeVolumeSingleCleanupThread
    | Some initContainerSpec =>
        limitsCoverRequests (InitResources initContainerSpec) ∧
        ((∃ rack, rack ∈ Racks (SpecRackConfig (Spec c)) ∧
            CleanupThreads (Storage rack) ≠ AerospikeVolumeSingleCleanupThread) →
         hasLimits (InitResources initContainerSpec))
    end.
Proof.
  unfold validatePodSpecResourceAndLimits. rewrite bind_Ok.
  set (check := existsb _ _).
  assert (check = true ↔
          ∃ rack, rack ∈ Racks (SpecRackConfig (Spec c)) ∧
            CleanupThreads (Storage rack) ≠ AerospikeVolumeSingleCleanupThread) as Hcheck.
  { unfold check. rewrite existsb_exists. split.
    - intros (rack & Hin%list_elem_of_In & Hne). exists rack. split; [done|].
      by case_bool_decide.
    - intros (rack & Hin%list_elem_of_In & Hne). exists rack. split; [done|].
      by rewrite bool_decide_eq_false_2. }
  split.
  - intros ([] & [Hc _]%validateResourceAndLimits_Ok & H). split; [done|].
    destruct (PodAerospikeInitContainerSpec (PodSpec (Spec c))) as [init|].
    + apply validateResourceAndLimits_Ok in H as [? H]. split; [done|].
      intros Hex. by apply H, Hcheck.
    + destruct check eqn:Hc'; [done|]. intros rack Hin.
      destruct (decide (CleanupThreads (Storage rack) = AerospikeVolumeSingleCleanupThread))
        as [|Hne]; [done|].
      assert (false = true) by (apply Hcheck; eauto). done.
  - intros [Hc H]. exists tt. split.
    { apply validateResourceAndLimits_Ok. split; [done|]. done. }
    destruct (PodAerospikeInitContainerSpec (PodSpec (Spec c))) as [init|].
    + destruct H as [? H]. apply validateResourceAndLimits_Ok. split; [done|].
      intros Ht. by apply H, Hcheck.
    + destruct check eqn:Hc'; [|done].
      destruct (proj1 Hcheck eq_refl) as (rack & Hin & Hne). by specialize (H rack Hin).
Qed.

(** ** The network policy *)

Lemma validateNetworkList_Ok c namespace netList addressType listName :
  validateNetworkList c (networkSetOf c namespace) netList addressType listName = Ok tt ↔
    customNetworksOk c namespace NetworkTypeCustomInterface netList.
Proof.
  unfold validateNetworkList, customNetworksOk. destruct netList as [names|].
  - destruct (HostNetwork (PodSpec (Spec c))) eqn:Hhost.
    + split; [done|]. intros H. by destruct (H eq_refl) as (? & _ & ? & _).
    + case_bool_decide as Hall; simpl.
      * split; [|done]. intros _ _. exists names. split_and!; [done|done|].
        by apply Forall_forall.
      * split; [done|]. intros H. destruct (H eq_refl) as (l & [= <-] & _ & Hl).
        exfalso. apply Hall. by apply Forall_forall.
  - split; [done|]. intros H. by destruct (H eq_refl) as (? & ? & _).
Qed.

Lemma networkCheck_Ok c namespace type netList addressType listName :
  (if decide (type = NetworkTypeCustomInterface) then
     validateNetworkList c (networkSetOf c namespace) netList addressType listName
   else Ok tt) = Ok tt ↔ customNetworksOk c namespace type netList.
Proof.
  case_decide as Htype.
  - subst type. apply validateNetworkList_Ok.
  - split; [|done]. by intros _ ?.
Qed.

(** X23. [validateNetworkPolicy] accepts exactly when each of the six
    network types (access, alternate access, TLS access, TLS alternate
    access, fabric, TLS fabric) that is [customInterface] comes with a
    list of network names that is set, host networking is then off, and
    every name of the list is among the networks that the pod annotation
    [k8s.v1.cni.cncf.io/networks] gives once completed by
    [setNamespaceDefault]. *)
Theorem validateNetworkPolicy_accepts (c : AerospikeCluster) (namespace : string) :
  validateNetworkPolicy c namespace = Ok tt ↔
    let networkPolicy := SpecNetworkPolicy (Spec c) in
    customNetworksOk c namespace (AccessType networkPolicy)
      (CustomAccessNetworkNames networkPolicy) ∧
    customNetworksOk c namespace (AlternateAccessType networkPolicy)
      (CustomAlternateAccessNetworkNames networkPolicy) ∧
    customNetworksOk c namespace (TLSAccessType networkPolicy)
      (CustomTLSAccessNetworkNames networkPolicy) ∧
    customNetworksOk c namespace (TLSAlternateAccessType networkPolicy)
      (CustomTLSAlternateAccessNetworkNames networkPolicy) ∧
    customNetworksOk c namespace (FabricType networkPolicy)
      (CustomFabricNetworkNames networkPolicy) ∧
    customNetworksOk c namespace (TLSFabricType networkPolicy)
      (CustomTLSFabricNetworkNames networkPolicy).
Proof.
  unfold validateNetworkPolicy. cbv zeta.
  rewrite bind_Ok. repeat setoid_rewrite bind_Ok. split.
  - intros ([] & H1%networkCheck_Ok & [] & H2%networkCheck_Ok & [] & H3%networkCheck_Ok
            & [] & H4%networkCheck_Ok & [] & H5%networkCheck_Ok & H6%networkCheck_Ok).
    done.
  - intros (H1 & H2 & H3 & H4 & H5 & H6).
    repeat (exists tt; split; [by apply networkCheck_Ok|]). by apply networkCheck_Ok.
Qed.

(** ** On-demand operations *)

(** X24. [validateOperationUpdate] looks at the first operation of the new
    specification only, and accepts when there is none. When there is one,
    it accepts exactly when the first operation of the old specification,
    if it has the same ID, is the same operation; the pods of the
    operation are all among the pods of the status; and, unless the
    operations of the new specification are those of the status, the size
    does not exceed that of the status, the number of racks is that of the
    status and of the old specification, and the image is that of the
    status and of the old specification. *)
Theorem validateOperationUpdate_accepts (oldSpec newSpec : AerospikeClusterSpec)
    (status : AerospikeClusterStatus) :
  validateOperationUpdate oldSpec newSpec status = Ok tt ↔
    ∀ newOp, head (Operations newSpec) = Some newOp →
      (∀ oldOp, head (Operations oldSpec) = Some oldOp →
         OperationID oldOp = OperationID newOp → oldOp = newOp) ∧
      podSet newOp ⊆ GetAllPodNames (Pods status) ∧
      (Operations newSpec ≠ StatusOperations status →
         Size newSpec ≤ StatusSize status ∧
         length (Racks (SpecRackConfig newSpec)) = length (Racks (StatusRackConfig status)) ∧
         length (Racks (SpecRackConfig newSpec)) = length (Racks (SpecRackConfig oldSpec)) ∧
         Image newSpec = StatusImage status ∧ Image newSpec = Image oldSpec).
Proof.
  unfold validateOperationUpdate, DeepEqual.
  destruct (Operations newSpec) as [|newOp rest] eqn:Hops; simpl; [done|].
  split.
  - intros H ? [= <-].
    assert ((∀ oldOp, head (Operations oldSpec) = Some oldOp →
               OperationID oldOp = OperationID newOp → oldOp = newOp) ∧
            match head (Operations oldSpec) with
            | Some oldOp =>
                bool_decide (OperationID oldOp = OperationID newOp) &&
                negb (bool_decide (oldOp = newOp))
            | None => false
            end = false) as [Hold Hfalse].
    { destruct (head (Operations oldSpec)) as [oldOp|]; [|by split].
      destruct (bool_decide (OperationID oldOp = OperationID newOp)) eqn:Hid; simpl in *.
      - case_bool_decide; [|done]. split; [|done]. by intros ? [= <-] _.
      - split; [|done]. intros ? [= <-] Heq. apply bool_decide_eq_false in Hid. done. }
    rewrite Hfalse in H. split; [done|].
    case_bool_decide as Hpods; [|done]. simpl in H. split; [done|].
    intros Hchange. rewrite bool_decide_eq_false_2 in H by done. simpl in H.
    repeat case_decide; try done.
    split_and!; [lia|..];
      match goal with
      | |- ?a = ?b => destruct (decide (a = b)); [done|exfalso; tauto]
      end.
  - intros H. destruct (H newOp eq_refl) as (Hold & Hpods & Hchange).
    assert (match head (Operations oldSpec) with
            | Some oldOp =>
                bool_decide (OperationID oldOp = OperationID newOp) &&
                negb (bool_decide (oldOp = newOp))
            | None => false
            end = false) as ->.
    { destruct (head (Operations oldSpec)) as [oldOp|]; [|done].
      case_bool_decide as Hid; [|done]. simpl.
      by rewrite (bool_decide_eq_true_2 _ (Hold oldOp eq_refl Hid)). }
    rewrite (bool_decide_eq_true_2 _ Hpods). simpl.
    case_bool_decide as Hsame; [done|]. simpl.
    destruct (Hchange Hsame) as (? & ? & ? & ? & ?).
    repeat case_decide; try done; try lia; tauto.
Qed.

End DescriptorProperties.

(** * Properties of the image version and of the required file storage *)

Section ImageAndFileProperties.
Context `{collab : Collaborators}.

(** ** The version of an image *)

Lemma foldl_longestStep (matches : list string) n :
  let longest := foldl (longestStep matches) 0%nat (seq 0 (S n)) in
  (longest ≤ n)%nat ∧
  (∀ j, (j ≤ n)%nat →
     (String.length (matches !!! j) ≤ String.length (matches !!! longest))%nat) ∧
  (∀ j, (longest < j ≤ n)%nat →
     (String.length (matches !!! j) < String.length (matches !!! longest))%nat).
Proof.
  induction n as [|n IH].
  - simpl. unfold longestStep. case_decide; [|lia].
    split_and!; [lia| |lia]. intros j Hj. by replace j with 0%nat by lia.
  - rewrite seq_S, foldl_app. simpl. simpl in IH.
    set (longest := foldl (longestStep matches) _ _) in *.
    destruct IH as (Hle & Hmax & Hlast). unfold longestStep. case_decide as Hcmp.
    + split_and!; [lia| |lia]. intros j Hj.
      destruct (decide (j = S n)) as [->|]; [done|].
      etrans; [apply Hmax; lia|done].
    + split_and!; [lia| |].
      * intros j Hj. destruct (decide (j = S n)) as [->|]; [lia|]. apply Hmax. lia.
      * intros j Hj. destruct (decide (j = S n)) as [->|]; [lia|]. apply Hlast. lia.
Qed.

(** X25. [GetImageVersion] returns a version exactly when the tag of the
    image is neither empty nor equal to [latest] under case folding and the
    regular expression has a match in the tag; the version is then the longest of
    the matches and, among matches of that length, the last one. *)
Theorem GetImageVersion_longest_match (imageStr version : string) :
  GetImageVersion imageStr = Ok version ↔
    let tag := (ParseDockerImageTag imageStr).2 in
    let matches := versionRegex_FindAllString tag in
    tag ≠ "" ∧ strings_EqualFold tag "latest" = false ∧
    ∃ i, matches !! i = Some version ∧
      (∀ j m, matches !! j = Some m → (String.length m ≤ String.length version)%nat) ∧
      (∀ j m, matches !! j = Some m → (i < j)%nat →
         (String.length m < String.length version)%nat).
Proof.
  unfold GetImageVersion.
  destruct (ParseDockerImageTag imageStr) as [[registry name] tag]. cbv zeta. simpl.
  case_bool_decide as Hempty; simpl; [naive_solver|].
  destruct (strings_EqualFold tag "latest") eqn:Hlatest; simpl; [naive_solver|].
  set (matches := versionRegex_FindAllString tag).
  case_decide as Hlen.
  { split; [done|]. intros (_ & _ & i & Hi%lookup_lt_Some & _). lia. }
  destruct (length matches) as [|n] eqn:Hn; [lia|].
  pose proof (foldl_longestStep matches n) as Hlongest. simpl in Hlongest.
  set (longest := foldl (longestStep matches) _ _) in *.
  destruct Hlongest as (Hle & Hmax & Hlast).
  assert (∀ j m, matches !! j = Some m → (j ≤ n)%nat ∧ matches !!! j = m) as Hlook.
  { intros j m Hj. split; [apply lookup_lt_Some in Hj; lia|].
    by apply list_lookup_total_correct. }
  split.
  - intros [= <-]. split_and!; [done|done|]. exists longest. split_and!.
    + apply list_lookup_lookup_total_lt. lia.
    + intros j m [? <-]%Hlook. by apply Hmax.
    + intros j m [? <-]%Hlook ?. apply Hlast. lia.
  - intros (_ & _ & i & Hi & Himax & Hilast). f_equal.
    destruct (Hlook _ _ Hi) as [Hin <-].
    assert (matches !! longest = Some (matches !!! longest)) as Hl.
    { apply list_lookup_lookup_total_lt. lia. }
    destruct (decide (i = longest)) as [->|Hne]; [done|]. exfalso.
    destruct (decide (i < longest)%nat).
    + specialize (Hilast _ _ Hl). specialize (Hmax i Hin). lia.
    + specialize (Himax _ _ Hl). specialize (Hlast i). lia.
Qed.

Lemma app_empty_r (s : string) : s +:+ "" = s.
Proof.
  induction s as [|a s IH]; [done|].
  change (String a (s +:+ "") = String a s). by rewrite IH.
Qed.

Lemma app_assoc_string (s t u : string) : (s +:+ t) +:+ u = s +:+ (t +:+ u).
Proof.
  induction s as [|a s IH]; [done|].
  change (String a ((s +:+ t) +:+ u) = String a (s +:+ (t +:+ u))). by rewrite IH.
Qed.

Lemma allDigits_app s t : allDigits (s +:+ t) = allDigits s && allDigits t.
Proof.
  induction s as [|a s IH]; [done|].
  change (isDigit a && allDigits (s +:+ t) = isDigit a && allDigits s && allDigits t).
  rewrite IH. by destruct (isDigit a).
Qed.

Lemma digits_one a : isDigit a = true → digits (String a "").
Proof. intros Ha. split; [done|]. simpl. by rewrite Ha. Qed.

Lemma digits_snoc s a : digits s → isDigit a = true → digits (s +:+ String a "").
Proof.
  intros [Hne Hs] Ha. split; [by destruct s|].
  rewrite allDigits_app, Hs. simpl. by rewrite Ha.
Qed.

Lemma groups_snoc (groups : list string) (group : string) :
  foldr (λ group rest, "." +:+ group +:+ rest) "" (groups ++ [group]) =
  foldr (λ group rest, "." +:+ group +:+ rest) "" groups +:+ "." +:+ group.
Proof.
  induction groups as [|g groups IH]; simpl.
  - by rewrite app_empty_r.
  - rewrite IH. by rewrite !app_assoc_string.
Qed.

Lemma dottedNumber_first s a :
  digits s → isDigit a = true → dottedNumber (s +:+ String "." (String a "")).
Proof.
  intros Hs Ha. exists s, [String a ""]. split_and!; [done|done| |].
  - constructor; [by apply digits_one|constructor].
  - simpl. by rewrite app_empty_r.
Qed.

Lemma dottedNumber_group s a :
  dottedNumber s → isDigit a = true → dottedNumber (s +:+ String "." (String a "")).
Proof.
  intros (first & groups & Hfirst & Hne & Hgroups & ->) Ha.
  exists first, (groups ++ [String a ""])%list. split_and!; [done|by destruct groups| |].
  - apply Forall_app. split; [done|]. constructor; [by apply digits_one|constructor].
  - rewrite groups_snoc. by rewrite !app_assoc_string.
Qed.

Lemma dottedNumber_snoc s a :
  dottedNumber s → isDigit a = true → dottedNumber (s +:+ String a "").
Proof.
  intros (first & groups & Hfirst & Hne & Hgroups & ->) Ha.
  destruct (exists_last Hne) as (groups' & group & ->).
  apply Forall_app in Hgroups as [Hgroups' [Hgroup _]%Forall_cons].
  exists first, (groups' ++ [group +:+ String a ""])%list.
  split_and!; [done|by destruct groups'| |].
  - apply Forall_app. split; [done|]. constructor; [by apply digits_snoc|constructor].
  - rewrite !groups_snoc. by rewrite !app_assoc_string.
Qed.

Lemma scanVersions_dottedNumber s :
  ∀ st, scanStateOk st → ∀ m, m ∈ scanVersions st s → dottedNumber m.
Proof.
  induction s as [|a s IH]; intros st Hst m Hm.
  - destruct st as [|acc|acc []|acc]; simpl in Hm; try by apply elem_of_nil in Hm.
    + by apply list_elem_of_singleton in Hm as ->.
    + by apply list_elem_of_singleton in Hm as ->.
  - destruct st as [|acc|acc complete|acc]; simpl in Hm, Hst.
    + destruct (isDigit a) eqn:Ha; (eapply IH; [|done]); [by apply digits_one|done].
    + destruct (isDigit a) eqn:Ha; [eapply IH; [|done]; by apply digits_snoc|].
      destruct (Ascii.eqb a "."); (eapply IH; [|done]); done.
    + destruct (isDigit a) eqn:Ha.
      { eapply IH; [|done]. simpl.
        destruct complete; [by apply dottedNumber_group|by apply dottedNumber_first]. }
      destruct complete; [|exact (IH Outside I m Hm)].
      apply elem_of_cons in Hm as [->|Hm]; [done|exact (IH Outside I m Hm)].
    + destruct (isDigit a) eqn:Ha; [eapply IH; [|done]; by apply dottedNumber_snoc|].
      destruct (Ascii.eqb a "."); [exact (IH (AfterDot acc true) Hst m Hm)|].
      apply elem_of_cons in Hm as [->|Hm]; [done|exact (IH Outside I m Hm)].
Qed.

(** X29. A version that [GetImageVersion] returns is a dotted number: a
    run of digits followed by one or more groups of a dot and a run of
    digits. Whatever precedes or follows it in the tag of the image is
    left out. *)
Theorem GetImageVersion_dotted_number (imageStr version : string) :
  GetImageVersion imageStr = Ok version → dottedNumber version.
Proof.
  unfold GetImageVersion.
  destruct (ParseDockerImageTag imageStr) as [[registry name] tag].
  destruct (_ || _); [done|]. cbv zeta.
  set (matches := versionRegex_FindAllString tag).
  case_decide as Hlen; [done|]. intros [= <-].
  destruct (length matches) as [|n] eqn:Hn; [lia|].
  pose proof (foldl_longestStep matches n) as (Hle & _). simpl in Hle.
  apply (scanVersions_dottedNumber tag Outside I).
  fold (versionRegex_FindAllString tag). fold matches.
  apply list_elem_of_lookup. eexists.
  apply list_lookup_lookup_total_lt. rewrite Hn.
  apply Nat.lt_succ_r, Hle.
Qed.

(** ** File storage that a configuration requires *)

Lemma checkPathMounted_Ok storage defaultPassFilePath path :
  checkPathMounted storage defaultPassFilePath path = Ok tt ↔
    mounted storage path ∧
    (defaultPassFilePath = Some path → mountedFromSecret storage path).
Proof.
  unfold checkPathMounted, mounted, mountedFromSecret.
  destruct (GetVolumeForAerospikePath storage (filepath_Dir path)) as [volume|].
  - destruct defaultPassFilePath as [p|].
    + destruct (decide (path = p)) as [->|Hne].
      * rewrite bool_decide_eq_true_2 by done. case_bool_decide; simpl.
        -- split; [|done]. intros _. split; [done|]. intros _. by exists volume.
        -- split; [done|]. intros [_ Hs]. destruct (Hs eq_refl) as (? & [= <-] & ?). done.
      * rewrite bool_decide_eq_false_2 by done. simpl. split; [|done].
        intros _. split; [done|]. intros [= ->]. done.
    + split; [|done]. intros _. split; [done|]. done.
  - split; [done|]. intros [H _]. by destruct H.
Qed.

Lemma elem_of_filtered_paths (P : string → Prop) `{∀ x, Decision (P x)}
    (l1 l2 : list string) path :
  path ∈ (filter P l1 ++ filter P l2)%list ↔ path ∈ (l1 ++ l2)%list ∧ P path.
Proof. rewrite <- filter_app, list_elem_of_filter. tauto. Qed.

(** X26. [validateRequiredFileStorageForAerospikeConfig] accepts exactly
    when the paths of the configuration can be read, every feature-key
    file and every certificate or key file of a TLS entry that is not a
    Secret Manager path lies in the directory of a volume, every CA file
    and CA path does so whatever its prefix, and the default password
    file, when the configuration has one, is not a Secret Manager path and
    lies in the directory of a volume whose source is a secret. *)
Theorem required_file_storage (configSpec : AerospikeConfigSpec)
    (storage : AerospikeStorageSpec) :
  validateRequiredFileStorageForAerospikeConfig configSpec storage = Ok tt ↔
    ∃ featureKeyFilePaths nonCAPaths caPaths,
      getFeatureKeyFilePaths configSpec = Ok featureKeyFilePaths ∧
      getTLSFilePaths configSpec = Ok (nonCAPaths, caPaths) ∧
      (∀ path, path ∈ (featureKeyFilePaths ++ nonCAPaths)%list →
         isSecretManagerPath path = false → mounted storage path) ∧
      (∀ path, path ∈ caPaths → mounted storage path) ∧
      (∀ path, GetDefaultPasswordFilePath configSpec = Some path →
         isSecretManagerPath path = false ∧ mountedFromSecret storage path).
Proof.
  unfold validateRequiredFileStorageForAerospikeConfig. rewrite bind_Ok. split.
  - intros (featureKeyFilePaths & Hfk & H).
    apply bind_Ok in H as ([nonCAPaths caPaths] & Htls & H).
    exists featureKeyFilePaths, nonCAPaths, caPaths.
    split; [done|]. split; [done|].
    apply bind_Ok in H as (allPaths & Hall & H).
    rewrite forEach_Ok, Forall_forall in H.
    setoid_rewrite checkPathMounted_Ok in H.
    destruct (GetDefaultPasswordFilePath configSpec) as [p|].
    + destruct (isSecretManagerPath p) eqn:Hsm; [done|]. simpl in Hall.
      injection Hall as <-. split_and!.
      * intros path Hin Hpath. apply H.
        apply elem_of_app. left. apply elem_of_app. left.
        by apply elem_of_filtered_paths.
      * intros path Hin. apply H. apply elem_of_app. by right.
      * intros ? [= <-]. split; [done|]. apply H; [|done].
        apply elem_of_app. left. apply elem_of_app. right. left.
    + injection Hall as <-. split_and!; [| |done].
      * intros path Hin Hpath. apply H. apply elem_of_app. left.
        by apply elem_of_filtered_paths.
      * intros path Hin. apply H. apply elem_of_app. by right.
  - intros (featureKeyFilePaths & nonCAPaths & caPaths & Hfk & Htls & Hpaths & Hca
            & Hdefault).
    exists featureKeyFilePaths. split; [done|].
    apply bind_Ok. exists (nonCAPaths, caPaths). split; [done|].
    destruct (GetDefaultPasswordFilePath configSpec) as [p|] eqn:Hp.
    + destruct (Hdefault p eq_refl) as [Hsm Hsecret]. rewrite Hsm. simpl.
      rewrite forEach_Ok, Forall_forall. intros path Hin.
      apply checkPathMounted_Ok.
      apply elem_of_app in Hin as [Hin|Hin]; [apply elem_of_app in Hin as [Hin|Hin]|].
      * apply elem_of_filtered_paths in Hin as [Hin Hpath]. split; [by apply Hpaths|].
        by intros [= ->].
      * apply list_elem_of_singleton in Hin as ->. split; [|done].
        destruct Hsecret as (volume & Hv & _). unfold mounted. by rewrite Hv.
      * split; [by apply Hca|]. by intros [= ->].
    + simpl. rewrite forEach_Ok, Forall_forall. intros path Hin.
      apply checkPathMounted_Ok. split; [|done].
      apply elem_of_app in Hin as [Hin|Hin]; [|by apply Hca].
      apply elem_of_filtered_paths in Hin as [Hin Hpath]. by apply Hpaths.
Qed.

(** X27. With a validation policy that does not skip the work directory,
    [validateRequiredFileStorageForMetadata] accepts exactly when the work
    directory of the configuration is absolute and covered by a mount path
    of a persistent filesystem volume. With a policy that skips it, the
    check accepts when no work directory is configured, and otherwise
    exactly when the configured one is absolute and covered by a mount
    path of any filesystem volume. Without a policy the check panics as
    soon as the storage lists can be read. *)
Theorem required_work_directory (configSpec : AerospikeConfigSpec)
    (storage : AerospikeStorageSpec) (validationPolicy : option ValidationPolicySpec)
    (pvLists : list string * list string) :
  getAerospikeStorageList storage true = Ok pvLists →
  match validationPolicy with
  | None => validateRequiredFileStorageForMetadata configSpec storage None = Panic
  | Some policy =>
      validateRequiredFileStorageForMetadata configSpec storage (Some policy) = Ok tt ↔
        if SkipWorkDirValidate policy then
          GetConfiguredWorkDirectory configSpec = "" ∨
          ∃ allLists, getAerospikeStorageList storage false = Ok allLists ∧
                      workDirOk (GetConfiguredWorkDirectory configSpec) allLists.2
        else workDirOk (GetWorkDirectory configSpec) pvLists.2
  end.
Proof.
  intros Hpv. unfold validateRequiredFileStorageForMetadata. rewrite Hpv. simpl.
  destruct validationPolicy as [policy|]; [|done].
  assert (∀ path files, validateWorkDir path files = Ok tt ↔ workDirOk path files) as Hwd.
  { intros path files. unfold validateWorkDir, workDirOk.
    destruct (filepath_IsAbs path); simpl; [|naive_solver].
    destruct (isFileStorageConfiguredForDir files path); simpl; naive_solver. }
  destruct (SkipWorkDirValidate policy); simpl; [|apply Hwd].
  case_bool_decide as Hconf; simpl; [naive_solver|].
  rewrite bind_Ok. setoid_rewrite Hwd. naive_solver.
Qed.

End ImageAndFileProperties.

(** * When the update check of a configuration returns *)

Section Totality.
Context `{collab : Collaborators}.

#[local] Opaque networkConnectionTypes networkPorts.

Lemma returns_not_Panic {A} (r : result A) : returns r ↔ r ≠ Panic.
Proof. unfold returns. destruct r; naive_solver. Qed.

Lemma bind_returns {A B} (m : result A) (f : A → result B) :
  returns m → (∀ a, m = Ok a → returns (f a)) → returns (m ≫= f).
Proof.
  intros [[a ->]|[e ->]] Hf; simpl; [by apply Hf|]. right. by exists e.
Qed.

Lemma forEach_returns {A} (body : A → result unit) l :
  (∀ x, x ∈ l → returns (body x)) → returns (forEach body l).
Proof.
  induction l as [|x l IH]; intros Hbody; simpl.
  - left. by exists tt.
  - apply bind_returns; [apply Hbody; by left|].
    intros _ _. apply IH. intros y Hy. apply Hbody. by right.
Qed.

Lemma foldEach_returns {A S} (body : S → A → result S) s l :
  (∀ s x, x ∈ l → returns (body s x)) → returns (foldEach body s l).
Proof.
  revert s. induction l as [|x l IH]; intros s Hbody; simpl.
  - left. by exists s.
  - apply bind_returns; [apply Hbody; by left|].
    intros s' _. apply IH. intros s'' y Hy. apply Hbody. by right.
Qed.

Ltac returns_now :=
  first [ left; eexists; reflexivity | right; eexists; reflexivity ].

(** ** The security check *)

Lemma validateSecurityConfigUpdate_returns newSpec oldSpec currentStatus :
  returns (IsSecurityEnabled newSpec) → returns (IsSecurityEnabled oldSpec) →
  (∀ status, currentStatus = Some status → returns (IsSecurityEnabled status)) →
  returns (validateSecurityConfigUpdate newSpec oldSpec currentStatus).
Proof.
  intros Hnew Hold Hstatus. unfold validateSecurityConfigUpdate, validateSecurityContext.
  apply bind_returns.
  - destruct currentStatus as [status|]; [|returns_now].
    apply bind_returns; [by apply Hstatus|]. intros cur _.
    apply bind_returns; [done|]. intros des _.
    destruct (cur && negb des); returns_now.
  - intros _ _. apply bind_returns.
    { destruct Hold as [[b ->]|[e ->]]; returns_now. }
    intros ov _. apply bind_returns.
    { destruct Hnew as [[b ->]|[e ->]]; returns_now. }
    intros iv _. destruct (negb iv && ov); returns_now.
Qed.

(** ** The TLS check *)

Lemma usedTLSStep_returns network used connectionType :
  (∀ section, network !! connectionType = Some section → connectionTyped section) →
  returns (usedTLSStep network used connectionType).
Proof.
  intros Htyped. unfold usedTLSStep.
  destruct (network !! connectionType) as [section|]; [|returns_now].
  destruct (Htyped section eq_refl) as (connectionConfig & -> & Hname). simpl.
  unfold confKeyTLSName.
  destruct (connectionConfig !! "tls-name") as [v|] eqn:Hv; [|returns_now].
  destruct (Hname v eq_refl) as [name ->]. simpl. returns_now.
Qed.

Lemma oldTLSStep_returns oldUsedTLS maps tls :
  tlsEntryTyped tls → returns (oldTLSStep oldUsedTLS maps tls).
Proof.
  intros (tlsMap & name & -> & Hname & Hfile & Hpath). unfold oldTLSStep, index. simpl.
  rewrite Hname. simpl. case_decide; [|returns_now].
  apply bind_returns.
  { destruct (tlsMap !! "ca-file") as [v|]; [|returns_now].
    destruct (Hfile v eq_refl) as [f ->]. simpl. returns_now. }
  intros caFileMap _. apply bind_returns; [|intros; returns_now].
  destruct (tlsMap !! "ca-path") as [v|]; [|returns_now].
  destruct (Hpath v eq_refl) as [f ->]. simpl. returns_now.
Qed.

Lemma newTLSCheck_returns newUsedTLS oldTLSCAFileMap oldTLSCAPathMap tls :
  tlsEntryTyped tls →
  returns (newTLSCheck newUsedTLS oldTLSCAFileMap oldTLSCAPathMap tls).
Proof.
  intros (tlsMap & name & -> & Hname & Hfile & Hpath). unfold newTLSCheck, index. simpl.
  rewrite Hname. simpl. case_decide; [|returns_now].
  destruct (_ && _); [returns_now|].
  destruct (oldTLSCAFileMap !! name) as [oldCAFile|]; [|returns_now].
  destruct (tlsMap !! "ca-file") as [v|]; [|returns_now].
  destruct (Hfile v eq_refl) as [f ->]. simpl. case_decide; returns_now.
Qed.

Lemma validateTLSUpdate_returns oldConf newConf :
  networkTyped oldConf → networkTyped newConf →
  returns (validateTLSUpdate oldConf newConf).
Proof.
  intros (oldNetwork & Hold & Holdc & Holdt) (newNetwork & Hnew & Hnewc & Hnewt).
  unfold validateTLSUpdate, index. rewrite Hold, Hnew. simpl.
  destruct (oldNetwork !! "tls") as [oldTLS|] eqn:Ho; [|returns_now].
  destruct (newNetwork !! "tls") as [newTLS|] eqn:Hn; [|returns_now].
  destruct (negb (DeepEqual oldTLS newTLS)); [|returns_now].
  destruct (Holdt oldTLS eq_refl) as (oldList & -> & Holdl).
  destruct (Hnewt newTLS eq_refl) as (newList & -> & Hnewl).
  apply bind_returns.
  { apply foldEach_returns. intros used ct Hct. apply usedTLSStep_returns.
    intros section Hsection. destruct (Hnewc ct Hct) as (section' & Hs' & Htyped).
    by simplify_eq. }
  intros newUsedTLS _. apply bind_returns.
  { apply foldEach_returns. intros used ct Hct. apply usedTLSStep_returns.
    intros section Hsection. destruct (Holdc ct Hct) as (section' & Hs' & Htyped).
    by simplify_eq. }
  intros oldUsedTLS _. simpl. apply bind_returns.
  { apply foldEach_returns. intros maps tls Htls. apply oldTLSStep_returns.
    by eapply Forall_forall in Holdl. }
  intros maps _. apply forEach_returns. intros tls Htls. apply newTLSCheck_returns.
  by eapply Forall_forall in Hnewl.
Qed.

(** ** The connection checks *)

Lemma validateNetworkPortUpdate_returns old new port :
  returns (validateNetworkPortUpdate old new port).
Proof. apply returns_not_Panic, validateNetworkPortUpdate_no_panic. Qed.

Lemma validateNetworkConnectionUpdate_returns newConf oldConf connectionType :
  networkTyped oldConf → networkTyped newConf →
  connectionType ∈ networkConnectionTypes →
  returns (validateNetworkConnectionUpdate newConf oldConf connectionType).
Proof.
  intros (oldNetwork & Hold & Holdc & _) (newNetwork & Hnew & Hnewc & _) Hct.
  destruct (Holdc _ Hct) as (? & Hos & oldCC & -> & _).
  destruct (Hnewc _ Hct) as (? & Hns & newCC & -> & _).
  unfold validateNetworkConnectionUpdate, index. rewrite Hold, Hnew. simpl.
  rewrite Hos, Hns. simpl. apply bind_returns.
  - destruct (oldCC !! "tls-name"), (newCC !! "tls-name"); try returns_now.
    destruct (negb _); returns_now.
  - intros _ _. apply forEach_returns. intros port _.
    apply validateNetworkPortUpdate_returns.
Qed.

(** ** The namespace checks *)

Lemma namespaceTyped_shape ns :
  namespaceTyped ns →
  ∃ nsConf name storage devices files,
    ns = VMap nsConf ∧ nsConf !! "name" = Some (VString name) ∧
    nsConf !! "storage-engine" = Some (VMap storage) ∧
    pathsOf "devices" storage = Some devices ∧ pathsOf "files" storage = Some files.
Proof.
  intros [[ds Hds] [fs Hfs]].
  apply claimsOf_Some in Hds as (nsConf & name & storage & devices & -> & Hn & Hs & Hd & _).
  apply claimsOf_Some in Hfs as (? & ? & ? & files & [= <-] & Hn' & Hs' & Hf & _).
  rewrite Hs in Hs'. injection Hs' as <-. by exists nsConf, name, storage, devices, files.
Qed.

Lemma mapM_pathOf_elem l paths d :
  mapM pathOf l = Some paths → d ∈ l → ∃ s, d = VString s.
Proof.
  revert paths. induction l as [|x l IH]; intros paths Hm Hd.
  { by apply elem_of_nil in Hd. }
  simpl in Hm. destruct (pathOf x) as [p|] eqn:Hx; [|done]. simpl in Hm.
  destruct (mapM pathOf l) as [rest|] eqn:Hrest; [|done].
  apply elem_of_cons in Hd as [->|Hd]; [|by eapply IH].
  destruct x; try done. by eexists.
Qed.

Lemma claimAll_returns kind key namespace storage claimed paths :
  pathsOf key storage = Some paths →
  returns (claimAll kind key namespace storage claimed).
Proof.
  unfold pathsOf, claimAll. destruct (storage !! key) as [[| | | |l|]|]; try done;
    [|intros; returns_now].
  intros Hl. simpl. apply foldEach_returns. intros s d Hd.
  destruct (mapM_pathOf_elem _ _ _ Hl Hd) as [device ->]. unfold claimStep. simpl.
  destruct (s !! device); returns_now.
Qed.

Lemma reuseAll_returns kind key namespace storage claimed paths :
  pathsOf key storage = Some paths →
  returns (reuseAll kind key namespace storage claimed).
Proof.
  unfold pathsOf, reuseAll. destruct (storage !! key) as [[| | | |l|]|]; try done;
    [|intros; returns_now].
  intros Hl. simpl. apply forEach_returns. intros d Hd.
  destruct (mapM_pathOf_elem _ _ _ Hl Hd) as [device ->]. unfold reuseStep. simpl.
  destruct (_ && _); returns_now.
Qed.

Lemma validateStorageEngineDeviceList_returns nsList :
  Forall namespaceTyped nsList → returns (validateStorageEngineDeviceList nsList).
Proof.
  intros Htyped. unfold validateStorageEngineDeviceList. apply foldEach_returns.
  intros lists ns Hns. eapply Forall_forall in Htyped; [|done].
  apply namespaceTyped_shape in Htyped
    as (nsConf & name & storage & devices & files & -> & Hn & Hs & Hd & Hf).
  unfold deviceListStep, index. simpl. rewrite Hn, Hs. simpl.
  apply bind_returns; [by eapply claimAll_returns|]. intros deviceList _.
  apply bind_returns; [by eapply claimAll_returns|]. intros; returns_now.
Qed.

Lemma validateStorageEngineDeviceListUpdate_returns nsConfList statusNsConfList :
  Forall namespaceTyped nsConfList → Forall namespaceTyped statusNsConfList →
  returns (validateStorageEngineDeviceListUpdate nsConfList statusNsConfList).
Proof.
  intros Hnew Hstatus. unfold validateStorageEngineDeviceListUpdate.
  apply bind_returns; [by apply validateStorageEngineDeviceList_returns|].
  intros [deviceList fileList] _. apply forEach_returns. intros ns Hns.
  eapply Forall_forall in Hstatus; [|done].
  apply namespaceTyped_shape in Hstatus
    as (nsConf & name & storage & devices & files & -> & Hn & Hs & Hd & Hf).
  unfold index. simpl. rewrite Hn, Hs. simpl.
  apply bind_returns; [by eapply reuseAll_returns|]. intros _ _.
  by eapply reuseAll_returns.
Qed.

Lemma checkNsUpdate_returns oldNsConfList ns :
  Forall namespaceTyped oldNsConfList → namespaceTyped ns →
  returns (checkNsUpdate oldNsConfList ns).
Proof.
  intros Hold (nsConf & name & _ & _ & _ & -> & Hn & _)%namespaceTyped_shape.
  simpl. apply forEach_returns. intros old Ho.
  eapply Forall_forall in Hold; [|done].
  apply namespaceTyped_shape in Hold as (oldConf & oldName & _ & _ & _ & -> & Hon & _).
  unfold checkNsPair, index. rewrite Hn, Hon. simpl.
  case_bool_decide; [|returns_now].
  destruct (isValueUpdated _ _ "replication-factor"); [returns_now|].
  destruct (isValueUpdated _ _ "strong-consistency"); returns_now.
Qed.

Lemma validateNsConfUpdate_returns newConfSpec oldConfSpec currentStatus :
  namespacesTyped (conf newConfSpec) → namespacesTyped (conf oldConfSpec) →
  (∀ status, currentStatus = Some status →
     conf status = ∅ ∨ namespacesTyped (conf status)) →
  returns (validateNsConfUpdate newConfSpec oldConfSpec currentStatus).
Proof.
  intros (newNs & Hnew & Hnewt) (oldNs & Hold & Holdt) Hstatus.
  unfold validateNsConfUpdate, index. rewrite Hnew, Hold.
  assert (∃ statusNs,
            match currentStatus with
            | Some currentStatus =>
                if decide (size (conf currentStatus) ≠ 0%nat)
                then as_list (default VNil (conf currentStatus !! "namespaces"))
                else Ok []
            | None => Ok []
            end = Ok statusNs ∧ Forall namespaceTyped statusNs) as (statusNs & -> & Hst).
  { destruct currentStatus as [status|]; [|by exists []].
    case_decide as Hsize; [|by exists []].
    destruct (Hstatus status eq_refl) as [Hempty|(statusNs & Hs & Htyped)].
    { rewrite Hempty in Hsize. by rewrite map_size_empty in Hsize. }
    rewrite Hs. by exists statusNs. }
  simpl. apply bind_returns.
  - apply forEach_returns. intros ns Hns. apply checkNsUpdate_returns; [done|].
    by eapply Forall_forall in Hnewt.
  - intros _ _. by apply validateStorageEngineDeviceListUpdate_returns.
Qed.

(** ** What the structural validation gives *)

Lemma forEach_validateNetworkConnection_typed networkConf tlsNames connectionType section :
  forEach (validateNetworkConnection networkConf tlsNames) networkConnectionTypes = Ok tt →
  connectionType ∈ networkConnectionTypes →
  networkConf !! connectionType = Some section → connectionTyped section.
Proof.
  intros Hok Hct Hsection. eapply forEach_Ok_elem in Hok; [|done].
  unfold validateNetworkConnection in Hok. rewrite Hsection in Hok.
  destruct section as [| | | | |connectionConfig]; try done. simpl in Hok.
  exists connectionConfig. split; [done|]. intros v Hv.
  unfold confKeyTLSName in Hok. rewrite Hv in Hok. case_decide; [done|].
  destruct v; try done. by eexists.
Qed.

Lemma validateAerospikeConfig_namespacesTyped c configSpec storage clSize :
  validateAerospikeConfig c configSpec storage clSize = Ok tt →
  namespacesTyped (conf configSpec).
Proof.
  intros Hok. unfold validateAerospikeConfig, conf in *.
  destruct (Value configSpec) as [config|]; [|done]. simpl in *.
  destruct (index config "service") as [| | | | |serviceConf]; try done.
  apply bind_Ok in Hok as (advertise & _ & Hok).
  destruct advertise; [done|]. case_decide; [done|].
  destruct (index config "network") as [| | | | |network]; try done.
  apply bind_Ok in Hok as ([] & _ & Hok).
  destruct (config !! "namespaces") as [[| | | |nsList|]|] eqn:Hns; try done.
  apply bind_Ok in Hok as ([] & Hnsok & _).
  exists nsList. split; [done|].
  apply validateNamespaceConfig_Ok in Hnsok as (_ & block & files & lists & _ & _ & Hl & _).
  destruct lists as [D F]. apply foldEach_deviceListStep in Hl
    as (ds & fs & Hds & Hfs & _).
  apply Forall_forall. intros ns Hns'. split; by eapply allClaims_elem.
Qed.

Lemma validateAerospikeConfig_typed c configSpec storage clSize :
  validateAerospikeConfig c configSpec storage clSize = Ok tt →
  connectionSectionsPresent (conf configSpec) → tlsEntriesTyped (conf configSpec) →
  networkTyped (conf configSpec) ∧ namespacesTyped (conf configSpec).
Proof.
  intros Hok (network & Hnetwork & Hpresent) Htls.
  split; [|by eapply validateAerospikeConfig_namespacesTyped].
  unfold validateAerospikeConfig, conf in *.
  destruct (Value configSpec) as [config|]; [|done]. simpl in *.
  destruct (index config "service") as [| | | | |serviceConf]; try done.
  apply bind_Ok in Hok as (advertise & _ & Hok).
  destruct advertise; [done|]. case_decide; [done|].
  unfold index in Hok. rewrite Hnetwork in Hok. simpl in Hok.
  apply bind_Ok in Hok as ([] & Hnet & Hok).
  - exists network. split; [done|]. split.
    + intros ct Hct. destruct (Hpresent ct Hct) as [section Hsection].
      exists section. split; [done|].
      unfold validateNetworkConfig in Hnet.
      destruct (network !! "service"); [|done].
      apply bind_Ok in Hnet as (tlsNames & _ & Hnet).
      apply bind_Ok in Hnet as (serviceConfMap & _ & Hnet).
      apply bind_Ok in Hnet as ([] & _ & Hnet).
      by eapply forEach_validateNetworkConnection_typed.
    + intros tls Htlsv. unfold validateNetworkConfig in Hnet.
      destruct (network !! "service"); [|done]. rewrite Htlsv in Hnet.
      apply bind_Ok in Hnet as (tlsNames & Hnames & _).
      destruct tls as [| | | |tlsList|]; try done.
      exists tlsList. split; [done|]. by apply (Htls network).
Qed.

(** C10, as the code has it. [validateAerospikeConfigUpdate] returns, with
    success or with an error and without a failing type assertion, on
    every incoming and outgoing configuration that pass
    [validateAerospikeConfig], hold the heartbeat and fabric sections of
    the network besides the service section, and whose [network.tls]
    entries each carry a name and give [ca-file] and [ca-path] as strings,
    with a status that is absent, empty or passes
    [validateAerospikeConfig] as well; the security lookup of the
    collaborators is taken to return. *)
Theorem validateAerospikeConfigUpdate_returns
    (c c' : AerospikeCluster) (incomingSpec outgoingSpec : AerospikeConfigSpec)
    (currentStatus : option AerospikeConfigSpec)
    (storage storage' : AerospikeStorageSpec) (clSize clSize' : Z) :
  validateAerospikeConfig c incomingSpec storage clSize = Ok tt →
  validateAerospikeConfig c' outgoingSpec storage' clSize' = Ok tt →
  connectionSectionsPresent (conf incomingSpec) →
  connectionSectionsPresent (conf outgoingSpec) →
  tlsEntriesTyped (conf incomingSpec) → tlsEntriesTyped (conf outgoingSpec) →
  (∀ status, currentStatus = Some status →
     (conf status = ∅ ∨
      ∃ c'' storage'' clSize'',
        validateAerospikeConfig c'' status storage'' clSize'' = Ok tt) ∧
     returns (IsSecurityEnabled status)) →
  returns (IsSecurityEnabled incomingSpec) → returns (IsSecurityEnabled outgoingSpec) →
  returns (validateAerospikeConfigUpdate incomingSpec outgoingSpec currentStatus).
Proof.
  intros Hin Hout Hinp Houtp Hint Houtt Hstatus Hsin Hsout.
  destruct (validateAerospikeConfig_typed _ _ _ _ Hin Hinp Hint) as [Hinn Hinns].
  destruct (validateAerospikeConfig_typed _ _ _ _ Hout Houtp Houtt) as [Houtn Houtns].
  unfold validateAerospikeConfigUpdate.
  apply bind_returns.
  { apply validateSecurityConfigUpdate_returns; [done|done|].
    intros status Hs. by destruct (Hstatus status Hs) as [_ ?]. }
  intros _ _. apply bind_returns; [by apply validateTLSUpdate_returns|].
  intros _ _. apply bind_returns.
  { apply forEach_returns. intros ct Hct.
    by apply validateNetworkConnectionUpdate_returns. }
  intros _ _. apply validateNsConfUpdate_returns; [done|done|].
  intros status Hs.
  destruct (Hstatus status Hs) as [[Hempty|(c'' & storage'' & clSize'' & Hok)] _];
    [by left|right].
  by eapply validateAerospikeConfig_namespacesTyped.
Qed.

#[local] Transparent networkConnectionTypes networkPorts.

End Totality.

(** * The theorems at work on the example descriptors *)

#[local] Existing Instance demoCollaborators.

Ltac by_compute :=
  match goal with |- ?P => apply (@bool_decide_unpack P _); vm_compute; exact I end.

Lemma validateSCNamespaces_same_sets_witness :
  validateSCNamespaces scCluster = Ok tt ∧
  scEnabledNames (scRack 1) = scEnabledNames (scRack 2).
Proof.
  assert (validateSCNamespaces scCluster = Ok tt) as Hok by (vm_compute; reflexivity).
  split; [exact Hok|].
  apply (validateSCNamespaces_same_sets scCluster (scRack 1) (scRack 2));
    [by_compute | by_compute | exact Hok].
Defined.

Lemma validateMaxUnavailable_bound_witness :
  validateMaxUnavailable (rf32Cluster (IntVal 1)) = ([], Ok tt) ∧
  validateMaxUnavailable (rf32Cluster (IntVal 2)) =
    ([], Err (Errorf ("maxUnavailable %s cannot be greater than or equal to %v as it may " ++
                      "result in data loss. Set it to a lower value")
                [AIntOrString (Some (IntVal 2)); AInt 2])).
Proof.
  split.
  - rewrite (validateMaxUnavailable_bound (rf32Cluster (IntVal 1)) 1 [3; 2]);
      [reflexivity | reflexivity | reflexivity | lia | simpl; lia | reflexivity
      | repeat constructor; lia].
  - rewrite (validateMaxUnavailable_bound (rf32Cluster (IntVal 2)) 2 [3; 2]);
      [reflexivity | reflexivity | reflexivity | lia | simpl; lia | reflexivity
      | repeat constructor; lia].
Defined.

(** C2 does not hold of a percentage. [validateIntOrStringField] lets the
    percentage through, and the comparison with the bound then reads it
    with [IntValue], which is 0 for every percentage: with size 5 and
    replication factors 3 and 2 the bound is 2, and [100%], all five
    nodes, is accepted, while the count 5 is rejected. *)
Lemma validateMaxUnavailable_percentage :
  validateIntOrStringField (Some (StrVal "100%")) "spec.maxUnavailable" = Ok tt ∧
  GetScaledValueFromIntOrPercent (Some (StrVal "100%")) = Ok 100 ∧
  IntValue (StrVal "100%") = 0 ∧
  clusterRFs (rf32Cluster (StrVal "100%")) = Some [3; 2] ∧
  minimumOver (Size (Spec (rf32Cluster (StrVal "100%")))) [3; 2] = 2 ∧
  validateMaxUnavailable (rf32Cluster (StrVal "100%")) = ([], Ok tt) ∧
  validateMaxUnavailable (rf32Cluster (IntVal 5)) =
    ([], Err (Errorf ("maxUnavailable %s cannot be greater than or equal to %v as it may " ++
                      "result in data loss. Set it to a lower value")
                [AIntOrString (Some (IntVal 5)); AInt 2])).
Proof. repeat split; vm_compute; reflexivity. Qed.

Lemma validateMaxUnavailable_disabledPDB_witness :
  validateMaxUnavailable noPDBCluster = ([pdbDisabledWarning], Ok tt) ∧
  ValidateCreate noPDBCluster = ([pdbDisabledWarning], Ok tt).
Proof.
  destruct (validateMaxUnavailable_disabledPDB noPDBCluster eq_refl) as [Hmu Hcreate].
  split; [exact Hmu|].
  destruct Hcreate as [_ ->]; [|reflexivity].
  repeat split; vm_compute; congruence.
Defined.

Lemma security_never_disabled_witness :
  validateAerospikeConfigUpdate rf32Config rf32Config (Some securedStatus) =
    Err (Errorf "cannot disable cluster security in running cluster" []) ∧
  ValidateUpdate securedCluster securedCluster ≠ ([], Ok tt).
Proof.
  destruct (security_never_disabled rf32Config rf32Config securedStatus)
    as [Hcfg Hupd]; [vm_compute; reflexivity | vm_compute; reflexivity |].
  split; [exact Hcfg|]. by apply Hupd.
Defined.

Lemma network_connection_update_rejected_witness :
  rejected (validateNetworkConnectionUpdate (conf movedPortConfig) (conf rf32Config) "service") ∧
  validateAerospikeConfigUpdate movedPortConfig rf32Config None ≠ Ok tt.
Proof.
  apply (network_connection_update_rejected movedPortConfig rf32Config None "service"
           {[ "service" := VMap {[ "port" := VInt 3000 ]};
              "heartbeat" := VMap {[ "port" := VInt 3002 ]};
              "fabric" := VMap {[ "port" := VInt 3001 ]} ]}
           {[ "service" := VMap {[ "port" := VInt 3001 ]};
              "heartbeat" := VMap {[ "port" := VInt 3002 ]};
              "fabric" := VMap {[ "port" := VInt 3001 ]} ]}
           {[ "port" := VInt 3000 ]} {[ "port" := VInt 3001 ]});
    [by_compute | reflexivity | reflexivity | reflexivity | reflexivity |].
  right; left. exists "port". split; [by_compute|].
  exists (VInt 3000), (VInt 3001). repeat split; congruence.
Defined.

Lemma namespace_rf_sc_immutable_witness :
  validateNsConfUpdate rf42Config rf32Config None ≠ Ok tt ∧
  validateAerospikeConfigUpdate rf42Config rf32Config None ≠ Ok tt ∧
  rejected (validateNsConfUpdate rf42Config rf32Config None).
Proof.
  destruct (namespace_rf_sc_immutable rf42Config rf32Config None
              [namespaceOf "test" 4 memoryEngine; namespaceOf "bar" 2 memoryEngine]
              [namespaceOf "test" 3 memoryEngine; namespaceOf "bar" 2 memoryEngine]
              {[ "name" := VString "test"; "replication-factor" := VInt 4;
                 "storage-engine" := memoryEngine ]}
              {[ "name" := VString "test"; "replication-factor" := VInt 3;
                 "storage-engine" := memoryEngine ]}
              "test" "replication-factor")
    as (H1 & H2 & H3);
    [reflexivity | reflexivity | by_compute | by_compute | reflexivity | reflexivity
    | by_compute | vm_compute; congruence |].
  split; [exact H1|]. split; [exact H2|].
  apply H3; [exact I | reflexivity | reflexivity].
Defined.

Lemma undeclared_device_rejected_witness :
  validateNamespaceConfig [strayDeviceNamespace] oneDiskStorage 2 =
    Err (devicePathNotFound "/dev/sdb" oneDiskStorage).
Proof.
  destruct (undeclared_device_rejected scCluster strayDeviceConfig ∅
              [strayDeviceNamespace] oneDiskStorage 2 ["/dev/sda"] []
              {[ "name" := VString "test"; "replication-factor" := VInt 2;
                 "storage-engine" := deviceEngine ["/dev/sdb"] ]}
              {[ "type" := VString "device"; "devices" := VList [VString "/dev/sdb"] ]}
              [VString "/dev/sdb"] "/dev/sdb" "/dev/sdb")
    as (_ & _ & H);
    [reflexivity | by_compute | repeat split; by left | by_compute | by_compute
    | by_compute |].
  apply (H [] [] [] [] [] []);
    [reflexivity | reflexivity | reflexivity | reflexivity | reflexivity | reflexivity
    | reflexivity | simpl; lia | constructor].
Defined.

(** The claim C7 read literally fails on the message: it carries the
    device path and the storage specification, and the name of the
    namespace, [test], occurs in none of its texts. *)
Lemma undeclared_device_message_counterexample :
  nsName strayDeviceNamespace = Some "test" ∧
  validateNamespaceConfig [strayDeviceNamespace] oneDiskStorage 2 =
    Err (devicePathNotFound "/dev/sdb" oneDiskStorage) ∧
  mentions (devicePathNotFound "/dev/sdb" oneDiskStorage) "/dev/sdb" = true ∧
  mentions (devicePathNotFound "/dev/sdb" oneDiskStorage) "test" = false.
Proof. repeat split; vm_compute; reflexivity. Qed.

(** The claim C10 read literally fails. A configuration whose network
    holds the service section only passes [validateAerospikeConfig], and
    [validateAerospikeConfigUpdate] of it against itself fails the type
    assertion of [validateNetworkConnectionUpdate] on the missing
    heartbeat section. With the three sections in place the same happens
    on a [network.tls] entry that has no name, on a TLS configuration in
    use whose [ca-file] or [ca-path] is not a string, and on a status that
    holds no list of namespaces. *)
Lemma config_update_panics_on_missing_section :
  (validateNetworkConfig serviceOnlyCluster {[ "service" := VMap {[ "port" := VInt 3000 ]} ]} =
     Ok tt ∧
   validateAerospikeConfig serviceOnlyCluster serviceOnlyConfig noStorage 3 = Ok tt ∧
   validateNetworkConnectionUpdate (conf serviceOnlyConfig) (conf serviceOnlyConfig)
     "heartbeat" = Panic ∧
   validateAerospikeConfigUpdate serviceOnlyConfig serviceOnlyConfig None = Panic) ∧
  (validateAerospikeConfig serviceOnlyCluster (namelessTLSConfig "a.pem") noStorage 3 = Ok tt ∧
   validateAerospikeConfig serviceOnlyCluster (namelessTLSConfig "b.pem") noStorage 3 = Ok tt ∧
   validateAerospikeConfigUpdate (namelessTLSConfig "b.pem") (namelessTLSConfig "a.pem") None =
     Panic) ∧
  (validateAerospikeConfig serviceOnlyCluster (numberedCAConfig "ca-file" 1) noStorage 3 =
     Ok tt ∧
   validateAerospikeConfig serviceOnlyCluster (numberedCAConfig "ca-file" 2) noStorage 3 =
     Ok tt ∧
   validateAerospikeConfigUpdate (numberedCAConfig "ca-file" 2) (numberedCAConfig "ca-file" 1)
     None = Panic) ∧
  (validateAerospikeConfig serviceOnlyCluster (numberedCAConfig "ca-path" 1) noStorage 3 =
     Ok tt ∧
   validateAerospikeConfig serviceOnlyCluster (numberedCAConfig "ca-path" 2) noStorage 3 =
     Ok tt ∧
   validateAerospikeConfigUpdate (numberedCAConfig "ca-path" 2) (numberedCAConfig "ca-path" 1)
     None = Panic) ∧
  (validateAerospikeConfig serviceOnlyCluster plainConfig noStorage 3 = Ok tt ∧
   validateAerospikeConfigUpdate plainConfig plainConfig (Some bareStatus) = Panic).
Proof. repeat split; vm_compute; reflexivity. Qed.

Lemma batchCluster_uniform rf :
  uniformNamespaces (SpecRackConfig (Spec (batchCluster rf rf))).
Proof.
  assert (∀ rack, rack ∈ Racks (SpecRackConfig (Spec (batchCluster rf rf))) →
            nsEntries rack = [namespaceOf "test" rf memoryEngine]) as Hentries.
  { intros rack Hrack. simpl in Hrack.
    apply elem_of_cons in Hrack as [->|Hrack]; [reflexivity|].
    apply list_elem_of_singleton in Hrack as ->. reflexivity. }
  split.
  - intros rack Hrack. unfold rackNsNames. rewrite (Hentries _ Hrack).
    vm_compute. apply NoDup_singleton.
  - intros rack rack' ns ns' name Hrack Hrack' Hns Hns' _ _.
    rewrite (Hentries _ Hrack) in Hns. rewrite (Hentries _ Hrack') in Hns'.
    apply list_elem_of_singleton in Hns as ->.
    by apply list_elem_of_singleton in Hns' as ->.
Qed.

Lemma batch_size_conditions_witness :
  validateBatchSize (batchCluster 2 2) (Some (IntVal 1)) true = Ok tt ∧
  batchSafe true (SpecRackConfig (Spec (batchCluster 2 2))).
Proof.
  assert (validateBatchSize (batchCluster 2 2) (Some (IntVal 1)) true = Ok tt) as Hok
    by (vm_compute; reflexivity).
  split; [exact Hok|].
  destruct (batch_size_conditions (batchCluster 2 2) (IntVal 1) true) as [_ Hsafe].
  destruct (Hsafe Hok) as [Hspec _]. apply Hspec, batchCluster_uniform.
Defined.

(** The claim C3 read literally fails when the racks disagree on a
    namespace: [test] has replication factor 1 in the first rack and 2 in
    the second, the summary keeps the factor met last, and the
    rolling-update batch size is accepted. *)
Lemma batch_size_last_rack_counterexample :
  batchRack 1 1 ∈ Racks (SpecRackConfig (Spec (batchCluster 1 2))) ∧
  namespaceOf "test" 1 memoryEngine ∈ nsEntries (batchRack 1 1) ∧
  namespaceRF (namespaceOf "test" 1 memoryEngine) = Some 1 ∧
  validateBatchSize (batchCluster 1 2) (Some (IntVal 1)) true = Ok tt ∧
  ValidateCreate (batchCluster 1 2) = ([], Ok tt).
Proof.
  split; [by_compute|]. split; [by_compute|]. repeat split; vm_compute; reflexivity.
Qed.



(** * The further properties at work on the example descriptors *)

Lemma validateNetworkConfig_tls_witness :
  tlsEntryNamed (tlsNetworkConf [tlsEntryOf "aerospike-a" caFileEntry]) "aerospike-a".
Proof.
  destruct (validateNetworkConfig_tls scCluster
              (tlsNetworkConf [tlsEntryOf "aerospike-a" caFileEntry]))
    as (_ & H & _); [vm_compute; reflexivity|].
  destruct (H "service"
              (VMap {[ "port" := VInt 3000; "tls-name" := VString "aerospike-a";
                       "tls-port" := VInt 4333 ]}))
    as (section & Hsection & Htls); [by_compute | by_compute |].
  injection Hsection as <-.
  assert (({[ "port" := VInt 3000; "tls-name" := VString "aerospike-a";
              "tls-port" := VInt 4333 ]} : gmap string value) !! "tls-name" =
          Some (VString "aerospike-a")) as Hname by by_compute.
  rewrite Hname in Htls. destruct Htls as (name & Heq & _ & Hentry).
  injection Heq as <-. exact Hentry.
Defined.

Lemma validateNamespaceConfig_strong_consistency_witness :
  ∃ rf, getNamespaceReplicationFactor scNamespaceConf = Ok rf ∧ rf ≤ 4.
Proof.
  destruct (validateNamespaceConfig_strong_consistency
              [VMap scNamespaceConf] oneDiskStorage 4 scNamespaceConf) as [H _];
    [vm_compute; reflexivity | by_compute |].
  apply H. by_compute.
Defined.

Lemma validateNamespaceConfig_shape_witness :
  ∃ nsConf name storageConf kind,
    VMap scNamespaceConf = VMap nsConf ∧ nsConf !! "name" = Some (VString name) ∧
    nsConf !! "storage-engine" = Some (VMap storageConf) ∧
    storageConf !! "type" = Some (VString kind) ∧ kind ∈ storageEngineKinds.
Proof.
  destruct (validateNamespaceConfig_shape [VMap scNamespaceConf] oneDiskStorage 4)
    as [_ H]; [vm_compute; reflexivity|].
  apply H. by_compute.
Defined.

Lemma validateNamespaceConfig_paths_declared_witness :
  pathLinesOk (ContainsString ["/dev/sda"]) (VList [VString "/dev/sda"]).
Proof.
  destruct (validateNamespaceConfig_paths_declared
              [VMap scNamespaceConf] oneDiskStorage 4 ["/dev/sda"] [] scNamespaceConf)
    as [H _]; [vm_compute; reflexivity | vm_compute; reflexivity | by_compute |].
  destruct (H {[ "type" := VString "device"; "devices" := VList [VString "/dev/sda"] ]}
              (VList [VString "/dev/sda"])) as [Hdevices _];
    [by_compute | by_compute |].
  apply Hdevices. by_compute.
Defined.

Lemma validateRackConfig_racks_witness :
  NoDup (ID <$> Racks (SpecRackConfig (Spec scCluster))) ∧
  ∀ rack, rack ∈ Racks (SpecRackConfig (Spec scCluster)) → ID rack ≤ MaxRackID.
Proof.
  destruct (validateRackConfig_racks scCluster) as (_ & Hids & Hracks & _);
    [vm_compute; reflexivity|].
  split; [exact Hids|]. intros rack Hrack. by destruct (Hracks rack Hrack).
Defined.

Lemma validate_accepted_witness :
  Name scCluster ≠ "" ∧ strings_Contains (Name scCluster) " " = false ∧
  Namespace scCluster ≠ "" ∧ strings_Contains (Namespace scCluster) " " = false ∧
  strings_Contains (strings_ToLower (Image (Spec scCluster))) "enterprise" = true ∧
  Size (Spec scCluster) ≠ 0 ∧ Size (Spec scCluster) ≤ 256 ∧
  ([] : list string) = (if GetBool (DisablePDB (Spec scCluster)) then [pdbDisabledWarning] else []).
Proof.
  apply (validate_accepted scCluster []). vm_compute; reflexivity.
Defined.

Lemma rack_identity_immutable_witness :
  (NodeName (zonedRack "a") = NodeName (zonedRack "a") ∧
   RackLabel (zonedRack "a") = RackLabel (zonedRack "a") ∧
   Region (zonedRack "a") = Region (zonedRack "a") ∧
   Zone (zonedRack "a") = Zone (zonedRack "a")) ∧
  ValidateUpdate (zonedCluster "a") (zonedCluster "b") ≠ ([], Ok tt).
Proof.
  split.
  - apply (rack_identity_immutable (zonedCluster "a") (zonedCluster "a") []);
      [vm_compute; reflexivity | by_compute | by_compute | reflexivity].
  - intros Hmoved.
    destruct (rack_identity_immutable (zonedCluster "a") (zonedCluster "b") []
                (zonedRack "a") (zonedRack "b")) as (_ & _ & _ & Hzone);
      [exact Hmoved | by_compute | by_compute | reflexivity |].
    discriminate Hzone.
Defined.

Lemma ValidateUpdate_accepted_witness :
  ValidateCreate (resizedCluster 5) = ([], Ok tt) ∧
  FabricType (SpecNetworkPolicy (Spec (resizedCluster 5))) =
    FabricType (SpecNetworkPolicy (Spec scCluster)).
Proof.
  destruct (ValidateUpdate_accepted scCluster (resizedCluster 5) [])
    as (Hcreate & _ & Hfabric & _); [vm_compute; reflexivity|].
  split; [exact Hcreate | exact Hfabric].
Defined.

Lemma network_connection_update_accepted_witness :
  validateNetworkConnectionUpdate (conf movedPortConfig) (conf rf32Config) "service" ≠ Ok tt.
Proof.
  rewrite (network_connection_update_accepted (conf movedPortConfig) (conf rf32Config)
             "service"
             {[ "service" := VMap {[ "port" := VInt 3000 ]};
                "heartbeat" := VMap {[ "port" := VInt 3002 ]};
                "fabric" := VMap {[ "port" := VInt 3001 ]} ]}
             {[ "service" := VMap {[ "port" := VInt 3001 ]};
                "heartbeat" := VMap {[ "port" := VInt 3002 ]};
                "fabric" := VMap {[ "port" := VInt 3001 ]} ]}
             {[ "port" := VInt 3000 ]} {[ "port" := VInt 3001 ]});
    [| by_compute | by_compute | by_compute | by_compute].
  intros Hallowed. apply Hallowed. right; left. exists "port". split; [by_compute|].
  exists (VInt 3000), (VInt 3001). repeat split; congruence.
Defined.

Lemma getNsConfForNamespaces_summary_witness :
  ∃ nsConfs, getNsConfForNamespaces (SpecRackConfig (Spec scCluster)) = Ok nsConfs ∧
    nsConfs !! "test" = Some {| noOfRacksForNamespaces := 2; replicationFactor := 2;
                                scEnabled := true |}.
Proof.
  eexists. split; [vm_compute; reflexivity|].
  rewrite (getNsConfForNamespaces_summary (SpecRackConfig (Spec scCluster)) _ "test");
    [vm_compute; reflexivity | vm_compute; reflexivity].
Defined.

Lemma validateSCNamespaces_not_in_memory_witness :
  isInMemoryNamespace scNamespaceConf = Ok false.
Proof.
  apply (validateSCNamespaces_not_in_memory scCluster (scRack 1)
           [VMap scNamespaceConf] scNamespaceConf);
    [vm_compute; reflexivity | by_compute | by_compute | by_compute | by_compute].
Defined.

Lemma validateTLSUpdate_keeps_ca_witness :
  validateTLSUpdate (conf (tlsConfigOf [tlsEntryOf "aerospike-a" caFileEntry]))
                    (conf (tlsConfigOf [tlsEntryOf "aerospike-a" ∅])) ≠ Ok tt.
Proof.
  apply (validateTLSUpdate_keeps_ca _ _
           (tlsNetworkConf [tlsEntryOf "aerospike-a" caFileEntry])
           (tlsNetworkConf [tlsEntryOf "aerospike-a" ∅])
           [tlsEntryOf "aerospike-a" caFileEntry] [tlsEntryOf "aerospike-a" ∅]
           "aerospike-a"
           (<[ "name" := VString "aerospike-a" ]> caFileEntry)
           (<[ "name" := VString "aerospike-a" ]> ∅));
    [by_compute | by_compute | by_compute | by_compute | by_compute | | | | | |].
  - exists "service", {[ "port" := VInt 3000; "tls-name" := VString "aerospike-a";
                         "tls-port" := VInt 4333 ]}.
    split_and!; by_compute.
  - exists "service", {[ "port" := VInt 3000; "tls-name" := VString "aerospike-a";
                         "tls-port" := VInt 4333 ]}.
    split_and!; by_compute.
  - split; by_compute.
  - by_compute.
  - split; by_compute.
  - left. split; by_compute.
Defined.

Lemma client_cert_required_witness :
  ClientCert.validateClientCertSpec (Some (secretClientCert "operator"))
    (authenticatedConfig (VBool false)) = Ok tt ∧
  ClientCert.validateClientCertSpec (Some (secretClientCert ""))
    (authenticatedConfig (VBool false)) ≠ Ok tt.
Proof.
  pose proof (λ spec,
    client_cert_required spec (authenticatedConfig (VBool false))
      {[ "service" := VMap {[ "port" := VInt 3000;
                              "tls-authenticate-client" := VBool false ]};
         "heartbeat" := VMap {[ "port" := VInt 3002 ]};
         "fabric" := VMap {[ "port" := VInt 3001 ]} ]}
      {[ "port" := VInt 3000; "tls-authenticate-client" := VBool false ]}
      (VBool false) ltac:(by_compute) ltac:(by_compute) ltac:(by_compute)
      ltac:(discriminate)) as Hrequired.
  split.
  - apply Hrequired. eexists. split; [reflexivity|]. split; [reflexivity|]. by right.
  - rewrite Hrequired. intros (spec & [= <-] & _ & [Hany | Hname]); [discriminate|].
    by apply Hname.
Defined.

Lemma GetImageVersion_dotted_number_witness : dottedNumber "8.0.0.2".
Proof.
  apply (GetImageVersion_dotted_number "aerospike/aerospike-server-enterprise:8.0.0.2").
  vm_compute; reflexivity.
Defined.

Lemma required_work_directory_witness :
  validateRequiredFileStorageForMetadata rf32Config workDirStorage
    (Some {| SkipWorkDirValidate := false |}) = Ok tt ∧
  validateRequiredFileStorageForMetadata rf32Config noStorage
    (Some {| SkipWorkDirValidate := false |}) ≠ Ok tt.
Proof.
  split.
  - apply (required_work_directory rf32Config workDirStorage
             (Some {| SkipWorkDirValidate := false |}) ([], ["/opt/aerospike"]));
      [vm_compute; reflexivity|].
    split; vm_compute; reflexivity.
  - rewrite (required_work_directory rf32Config noStorage
               (Some {| SkipWorkDirValidate := false |}) ([], []));
      [|vm_compute; reflexivity].
    intros [_ Hcovered]. discriminate Hcovered.
Defined.

Lemma validateAerospikeConfigUpdate_returns_witness :
  returns (validateAerospikeConfigUpdate movedPortConfig rf32Config (Some securedStatus)) ∧
  returns (validateAerospikeConfigUpdate (tlsConfigOf [tlsEntryOf "aerospike-a" ∅])
             (tlsConfigOf [tlsEntryOf "aerospike-a" caFileEntry]) None).
Proof.
  assert (∀ configSpec network,
            conf configSpec !! "network" = Some (VMap network) →
            is_Some (network !! "service") → is_Some (network !! "heartbeat") →
            is_Some (network !! "fabric") →
            connectionSectionsPresent (conf configSpec)) as Hpresent.
  { intros configSpec network Hnetwork Hs Hh Hf. exists network. split; [exact Hnetwork|].
    intros ct Hct. unfold networkConnectionTypes in Hct.
    repeat (apply elem_of_cons in Hct as [->|Hct]; [assumption|]).
    by apply elem_of_nil in Hct. }
  assert (∀ configSpec network,
            conf configSpec !! "network" = Some (VMap network) → network !! "tls" = None →
            tlsEntriesTyped (conf configSpec)) as Hnotls.
  { intros configSpec network Hnetwork Hnone network' tlsList Hnetwork' Htls.
    rewrite Hnetwork in Hnetwork'. injection Hnetwork' as <-.
    rewrite Hnone in Htls. discriminate Htls. }
  assert (∀ ca file,
            (∀ v, <[ "name" := VString "aerospike-a" ]> ca !! "ca-file" = Some v →
                  v = VString file) →
            <[ "name" := VString "aerospike-a" ]> ca !! "ca-path" = None →
            tlsEntriesTyped (conf (tlsConfigOf [tlsEntryOf "aerospike-a" ca]))) as Htyped.
  { intros ca file Hfile Hpath network tlsList Hnetwork Htls.
    assert (network = tlsNetworkConf [tlsEntryOf "aerospike-a" ca]) as ->.
    { symmetry. by injection Hnetwork. }
    assert (tlsList = [tlsEntryOf "aerospike-a" ca]) as ->.
    { symmetry. by injection Htls. }
    constructor; [|constructor].
    exists (<[ "name" := VString "aerospike-a" ]> ca), "aerospike-a".
    split; [reflexivity|]. split; [by rewrite lookup_insert_eq|].
    split; intros v Hv; [exists file; by apply Hfile|].
    rewrite Hpath in Hv. discriminate Hv. }
  split.
  - apply (validateAerospikeConfigUpdate_returns scCluster scCluster movedPortConfig
             rf32Config (Some securedStatus) noStorage noStorage 5 5).
    + vm_compute; reflexivity.
    + vm_compute; reflexivity.
    + eapply Hpresent; [reflexivity | by_compute..].
    + eapply Hpresent; [reflexivity | by_compute..].
    + eapply Hnotls; [reflexivity | by_compute].
    + eapply Hnotls; [reflexivity | by_compute].
    + intros status [= <-]. split; [|left; eexists; reflexivity].
      right. exists scCluster, noStorage, 5. vm_compute; reflexivity.
    + left; eexists; reflexivity.
    + left; eexists; reflexivity.
  - apply (validateAerospikeConfigUpdate_returns scCluster scCluster
             (tlsConfigOf [tlsEntryOf "aerospike-a" ∅])
             (tlsConfigOf [tlsEntryOf "aerospike-a" caFileEntry]) None
             noStorage noStorage 5 5).
    + vm_compute; reflexivity.
    + vm_compute; reflexivity.
    + eapply Hpresent; [reflexivity | by_compute..].
    + eapply Hpresent; [reflexivity | by_compute..].
    + apply (Htyped ∅ ""); [intros v Hv; vm_compute in Hv; discriminate Hv|].
      vm_compute; reflexivity.
    + apply (Htyped caFileEntry "/etc/aerospike/secret/cacert.pem");
        [|vm_compute; reflexivity].
      intros v Hv. vm_compute in Hv. injection Hv as <-. reflexivity.
    + intros status Hs. discriminate Hs.
    + left; eexists; reflexivity.
    + left; eexists; reflexivity.
Defined.

Lemma self_update_accepted_witness :
  validateAgainstOld (rf32Cluster (IntVal 1)) (rf32Cluster (IntVal 1)) = Ok tt ∧
  ValidateUpdate (rf32Cluster (IntVal 1)) (rf32Cluster (IntVal 1)) = ([], Ok tt).
Proof.
  apply (self_update_accepted (rf32Cluster (IntVal 1))
           [namespaceOf "test" 3 memoryEngine; namespaceOf "bar" 2 memoryEngine] [] []).
  - reflexivity.
  - exists ["test"; "bar"]. split; [reflexivity|by_compute].
  - exists {[ "service" := VMap {[ "port" := VInt 3000 ]};
              "heartbeat" := VMap {[ "port" := VInt 3002 ]};
              "fabric" := VMap {[ "port" := VInt 3001 ]} ]}.
    split; [reflexivity|]. intros connectionType Hct. unfold networkConnectionTypes in Hct.
    repeat (apply elem_of_cons in Hct as [->|Hct]; [eexists; reflexivity|]).
    by apply elem_of_nil in Hct.
  - vm_compute; reflexivity.
  - vm_compute; reflexivity.
  - vm_compute; reflexivity.
  - vm_compute; reflexivity.
  - vm_compute; reflexivity.
  - reflexivity.
  - vm_compute; reflexivity.
Defined.
